(** * flv.js (tdwu fork): the IO controller and the H.264 demuxer

    A shallow embedding of [src/io/io-controller.js] and
    [src/demux/h264-demuxer.js].  JavaScript numbers that hold byte counts
    and offsets are integers ([Z]); a measured rate is a rational ([Q]).
    Methods that mutate [this] are computations in a state monad over the
    object's record; a JavaScript exception is the [Throw] result, and it
    keeps the fields that were assigned before it was raised, since the
    object lives on after the exception.  A loop that never ends is [Hang]. *)

From Stdlib Require Import ZArith List Lia QArith Bool String.
From Stdlib Require Import Init.Byte Strings.Byte.
From Stdlib Require Import Lqa.
Import ListNotations.
Open Scope Z_scope.

(** ** Results of running a method *)

Inductive Exn : Type :=
| IllegalStateException
| InvalidArgumentException
| RuntimeException
| RangeError
| TypeError
| ReferenceError
| CollaboratorError.

Inductive Res (S A : Type) : Type :=
| Ok (a : A) (s : S)
| Throw (e : Exn) (s : S)
| Hang.

Arguments Ok {S A} a s.
Arguments Throw {S A} e s.
Arguments Hang {S A}.

Definition M (S A : Type) : Type := S -> Res S A.

Definition ret {S A} (a : A) : M S A := fun s => Ok a s.

Definition bind {S A B} (m : M S A) (k : A -> M S B) : M S B :=
  fun s =>
    match m s with
    | Ok a s' => k a s'
    | Throw e s' => Throw e s'
    | Hang => Hang
    end.

Definition throw {S A} (e : Exn) : M S A := fun s => Throw e s.
Definition hang {S A} : M S A := fun _ => Hang.
Definition get {S} : M S S := fun s => Ok s s.
Definition gets {S A} (f : S -> A) : M S A := fun s => Ok (f s) s.
Definition modify {S} (f : S -> S) : M S unit := fun s => Ok tt (f s).

(** [when c m] is the statement [if (c) { m }]. *)
Definition when {S} (c : bool) (m : M S unit) : M S unit :=
  if c then m else ret tt.

Declare Scope js_scope.
Delimit Scope js_scope with js.
Notation "x <- c1 ;; c2" := (bind c1 (fun x => c2))
  (at level 61, c1 at next level, right associativity) : js_scope.
Notation "c1 ;; c2" := (bind c1 (fun _ => c2))
  (at level 61, right associativity) : js_scope.
Open Scope js_scope.

(** The object after a call, whichever way the call ended ([Hang] leaves
    no later state to look at). *)
Definition state_of {S A} (r : Res S A) : option S :=
  match r with
  | Ok _ s => Some s
  | Throw _ s => Some s
  | Hang => None
  end.

(** [returns r P]: the call returned, with a value and in a state that
    satisfy [P]. *)
Definition returns {S A} (r : Res S A) (P : A -> S -> Prop) : Prop :=
  match r with
  | Ok a s => P a s
  | _ => False
  end.

(** [keeps R m s]: running [m] from [s] ends, normally or by an exception,
    in a state that [R] relates to [s]. *)
Definition keeps {S A} (R : S -> S -> Prop) (m : M S A) (s : S) : Prop :=
  match m s with
  | Ok _ s' => R s s'
  | Throw _ s' => R s s'
  | Hang => True
  end.

(** A session runs its calls one after the other on the same object; an
    exception ends the call that raised it, not the session.  The result is
    the object at the end, or [None] when a call hangs. *)
Fixpoint run_all {S A Op} (exec : Op -> M S A) (ops : list Op) (s : S) : option S :=
  match ops with
  | [] => Some s
  | op :: rest =>
      match state_of (exec op s) with
      | Some s' => run_all exec rest s'
      | None => None
      end
  end.

(** ** Bytes *)

Definition byteZ (b : byte) : Z := Z.of_N (Byte.to_N b).

(** [chunk.byteLength] of a received chunk, which the code only reads. *)
Definition byteLength (chunk : list byte) : Z := Z.of_nat (List.length chunk).

(** [array[i]] of a typed array: [None] is [undefined]. *)
Definition at_index (l : list byte) (i : Z) : option byte :=
  if i <? 0 then None else nth_error l (Z.to_nat i).

(** [new Uint8Array(chunk, off, len)] read as a list; the constructor raises
    a RangeError when the window leaves the buffer. *)
Definition subarray (l : list byte) (off len : Z) : list byte :=
  firstn (Z.to_nat len) (skipn (Z.to_nat off) l).

Definition window_ok (total off len : Z) : bool :=
  (0 <=? off) && (0 <=? len) && (off + len <=? total).

(** * The IO controller ([src/io/io-controller.js]) *)

Module IO.

(** ** Data *)

(** [LoaderErrors] is imported from [./loader.js]: the error kinds the
    transport reports. *)
Inductive LoaderErrors : Type :=
| EARLY_EOF
| UNRECOVERABLE_EARLY_EOF
| CONNECTING_TIMEOUT
| HTTP_STATUS_CODE_INVALID
| EXCEPTION.

(** [{from, to}]; [to = -1] is an open end. *)
Record Range : Type := mkRange { from : Z; to : Z }.

(** The stash is an [ArrayBuffer] written in place: its length and the
    byte at each index.  [new ArrayBuffer(n)] is zero-filled. *)
Record ArrayBuffer : Type := mkArrayBuffer {
  ab_byteLength : Z;
  ab_byteAt : Z -> byte
}.

Definition new_ArrayBuffer (n : Z) : ArrayBuffer :=
  {| ab_byteLength := n; ab_byteAt := fun _ => x00 |}.

(** [buffer.slice(0, n)]: a copy of the first [n] bytes, the end clamped to
    the buffer (a negative end counts from the back). *)
Definition slice_end (b : ArrayBuffer) (n : Z) : Z :=
  if n <? 0 then Z.max (ab_byteLength b + n) 0 else Z.min n (ab_byteLength b).

(** The [len] bytes of [b] from index [off] on. *)
Definition ab_read (b : ArrayBuffer) (off len : Z) : list byte :=
  map (fun k => ab_byteAt b (off + Z.of_nat k)) (seq 0 (Z.to_nat len)).

Definition ab_slice (b : ArrayBuffer) (n : Z) : list byte :=
  ab_read b 0 (slice_end b n).

(** [typedArray.set(src, at)] on a view that starts at byte 0 of [b]. *)
Definition ab_write (b : ArrayBuffer) (at_ : Z) (src : list byte) : ArrayBuffer :=
  {| ab_byteLength := ab_byteLength b;
     ab_byteAt := fun i =>
       if (at_ <=? i) && (i <? at_ + byteLength src)
       then nth (Z.to_nat (i - at_)) src x00
       else ab_byteAt b i |}.

(** [new Uint8Array(b, off)] read as a list: the bytes from [off] to the end. *)
Definition ab_from (b : ArrayBuffer) (off : Z) : list byte :=
  ab_read b off (ab_byteLength b - off).

(** Modelled from the spec: the transport collaborator ([loader.js] and the
    loaders derived from it are not in this part of the repository).  It
    exposes open/abort/destroy and a "working" predicate: a loader works
    from [open] until it is aborted. *)
Record Loader : Type := mkLoader { ldr_working : bool }.

(** What the controller reads of [this._loaderClass]: the [needStashBuffer]
    capability of the loaders it creates. *)
Record LoaderClass : Type := mkLoaderClass { needStashBuffer : bool }.

(** The options of [config] the controller reads after construction, and
    the two it reads in the constructor ([None] is [undefined]). *)
Record Config : Type := mkConfig {
  isLive : bool;
  stashInitialSize : option Z;
  enableStashBuffer : option bool
}.

(** What the controller does to its collaborators, in order: calls on the
    loader, and calls of the registered callbacks.  The data of an error
    is its [code]. *)
Inductive Event : Type :=
| EvLoaderOpen (range : Range)
| EvLoaderAbort
| EvLoaderDestroy
| EvDataArrival (chunks : list byte) (byteStart : Z)
| EvSeeked
| EvError (type : LoaderErrors) (code : Z)
| EvComplete
| EvRedirect (url : string)
| EvRecoveredEarlyEof.

Definition truthy (n : option Z) : bool :=
  match n with
  | Some v => negb (v =? 0)
  | None => false
  end.

Section Controller.

(** The consumer registered as [onDataArrival]: a state of its own, and the
    number of bytes it reports consumed (or the exception it raises). *)
Context {CS : Type}.
Variable consume : CS -> list byte -> Z -> Res CS Z.

(** The fields of [this].  [_onDataArrival] holds the consumer's state when
    a consumer is registered; the other callbacks return nothing, so only
    whether they are registered is kept.  [trace] is not a field of the
    source: it records the calls made on the collaborators. *)
Record IOController : Type := mkIOController {
  _config : Config;
  _stashInitialSize : Z;
  _stashUsed : Z;
  _stashSize : Z;
  _bufferSize : Z;
  _stashBuffer : ArrayBuffer;
  _stashByteStart : Z;
  _enableStash : bool;
  lastByteStart : Z;
  _loader : option Loader;
  _loaderClass : LoaderClass;
  _totalLength : option Z;
  _fullRequestFlag : bool;
  _currentRange : option Range;
  _redirectedURL : option string;
  _speedNormalized : Z;
  _isEarlyEofReconnecting : bool;
  _paused : bool;
  _resumeFrom : Z;
  _onDataArrival : option CS;
  _onSeeked : bool;
  _onError : bool;
  _onComplete : bool;
  _onRedirect : bool;
  _onRecoveredEarlyEof : bool;
  trace : list Event
}.

Definition set_stashUsed (v : Z) (s : IOController) : IOController :=
  {| _config := _config s; _stashInitialSize := _stashInitialSize s;
     _stashUsed := v; _stashSize := _stashSize s;
     _bufferSize := _bufferSize s; _stashBuffer := _stashBuffer s;
     _stashByteStart := _stashByteStart s; _enableStash := _enableStash s;
     lastByteStart := lastByteStart s; _loader := _loader s;
     _loaderClass := _loaderClass s; _totalLength := _totalLength s;
     _fullRequestFlag := _fullRequestFlag s;
     _currentRange := _currentRange s; _redirectedURL := _redirectedURL s;
     _speedNormalized := _speedNormalized s;
     _isEarlyEofReconnecting := _isEarlyEofReconnecting s;
     _paused := _paused s; _resumeFrom := _resumeFrom s;
     _onDataArrival := _onDataArrival s; _onSeeked := _onSeeked s;
     _onError := _onError s; _onComplete := _onComplete s;
     _onRedirect := _onRedirect s;
     _onRecoveredEarlyEof := _onRecoveredEarlyEof s; trace := trace s |}.

Definition set_stashSize (v : Z) (s : IOController) : IOController :=
  {| _config := _config s; _stashInitialSize := _stashInitialSize s;
     _stashUsed := _stashUsed s; _stashSize := v;
     _bufferSize := _bufferSize s; _stashBuffer := _stashBuffer s;
     _stashByteStart := _stashByteStart s; _enableStash := _enableStash s;
     lastByteStart := lastByteStart s; _loader := _loader s;
     _loaderClass := _loaderClass s; _totalLength := _totalLength s;
     _fullRequestFlag := _fullRequestFlag s;
     _currentRange := _currentRange s; _redirectedURL := _redirectedURL s;
     _speedNormalized := _speedNormalized s;
     _isEarlyEofReconnecting := _isEarlyEofReconnecting s;
     _paused := _paused s; _resumeFrom := _resumeFrom s;
     _onDataArrival := _onDataArrival s; _onSeeked := _onSeeked s;
     _onError := _onError s; _onComplete := _onComplete s;
     _onRedirect := _onRedirect s;
     _onRecoveredEarlyEof := _onRecoveredEarlyEof s; trace := trace s |}.

Definition set_bufferSize (v : Z) (s : IOController) : IOController :=
  {| _config := _config s; _stashInitialSize := _stashInitialSize s;
     _stashUsed := _stashUsed s; _stashSize := _stashSize s;
     _bufferSize := v; _stashBuffer := _stashBuffer s;
     _stashByteStart := _stashByteStart s; _enableStash := _enableStash s;
     lastByteStart := lastByteStart s; _loader := _loader s;
     _loaderClass := _loaderClass s; _totalLength := _totalLength s;
     _fullRequestFlag := _fullRequestFlag s;
     _currentRange := _currentRange s; _redirectedURL := _redirectedURL s;
     _speedNormalized := _speedNormalized s;
     _isEarlyEofReconnecting := _isEarlyEofReconnecting s;
     _paused := _paused s; _resumeFrom := _resumeFrom s;
     _onDataArrival := _onDataArrival s; _onSeeked := _onSeeked s;
     _onError := _onError s; _onComplete := _onComplete s;
     _onRedirect := _onRedirect s;
     _onRecoveredEarlyEof := _onRecoveredEarlyEof s; trace := trace s |}.

Definition set_stashBuffer (v : ArrayBuffer) (s : IOController) : IOController :=
  {| _config := _config s; _stashInitialSize := _stashInitialSize s;
     _stashUsed := _stashUsed s; _stashSize := _stashSize s;
     _bufferSize := _bufferSize s; _stashBuffer := v;
     _stashByteStart := _stashByteStart s; _enableStash := _enableStash s;
     lastByteStart := lastByteStart s; _loader := _loader s;
     _loaderClass := _loaderClass s; _totalLength := _totalLength s;
     _fullRequestFlag := _fullRequestFlag s;
     _currentRange := _currentRange s; _redirectedURL := _redirectedURL s;
     _speedNormalized := _speedNormalized s;
     _isEarlyEofReconnecting := _isEarlyEofReconnecting s;
     _paused := _paused s; _resumeFrom := _resumeFrom s;
     _onDataArrival := _onDataArrival s; _onSeeked := _onSeeked s;
     _onError := _onError s; _onComplete := _onComplete s;
     _onRedirect := _onRedirect s;
     _onRecoveredEarlyEof := _onRecoveredEarlyEof s; trace := trace s |}.

Definition set_stashByteStart (v : Z) (s : IOController) : IOController :=
  {| _config := _config s; _stashInitialSize := _stashInitialSize s;
     _stashUsed := _stashUsed s; _stashSize := _stashSize s;
     _bufferSize := _bufferSize s; _stashBuffer := _stashBuffer s;
     _stashByteStart := v; _enableStash := _enableStash s;
     lastByteStart := lastByteStart s; _loader := _loader s;
     _loaderClass := _loaderClass s; _totalLength := _totalLength s;
     _fullRequestFlag := _fullRequestFlag s;
     _currentRange := _currentRange s; _redirectedURL := _redirectedURL s;
     _speedNormalized := _speedNormalized s;
     _isEarlyEofReconnecting := _isEarlyEofReconnecting s;
     _paused := _paused s; _resumeFrom := _resumeFrom s;
     _onDataArrival := _onDataArrival s; _onSeeked := _onSeeked s;
     _onError := _onError s; _onComplete := _onComplete s;
     _onRedirect := _onRedirect s;
     _onRecoveredEarlyEof := _onRecoveredEarlyEof s; trace := trace s |}.

Definition set_enableStash (v : bool) (s : IOController) : IOController :=
  {| _config := _config s; _stashInitialSize := _stashInitialSize s;
     _stashUsed := _stashUsed s; _stashSize := _stashSize s;
     _bufferSize := _bufferSize s; _stashBuffer := _stashBuffer s;
     _stashByteStart := _stashByteStart s; _enableStash := v;
     lastByteStart := lastByteStart s; _loader := _loader s;
     _loaderClass := _loaderClass s; _totalLength := _totalLength s;
     _fullRequestFlag := _fullRequestFlag s;
     _currentRange := _currentRange s; _redirectedURL := _redirectedURL s;
     _speedNormalized := _speedNormalized s;
     _isEarlyEofReconnecting := _isEarlyEofReconnecting s;
     _paused := _paused s; _resumeFrom := _resumeFrom s;
     _onDataArrival := _onDataArrival s; _onSeeked := _onSeeked s;
     _onError := _onError s; _onComplete := _onComplete s;
     _onRedirect := _onRedirect s;
     _onRecoveredEarlyEof := _onRecoveredEarlyEof s; trace := trace s |}.

Definition set_lastByteStart (v : Z) (s : IOController) : IOController :=
  {| _config := _config s; _stashInitialSize := _stashInitialSize s;
     _stashUsed := _stashUsed s; _stashSize := _stashSize s;
     _bufferSize := _bufferSize s; _stashBuffer := _stashBuffer s;
     _stashByteStart := _stashByteStart s; _enableStash := _enableStash s;
     lastByteStart := v; _loader := _loader s;
     _loaderClass := _loaderClass s; _totalLength := _totalLength s;
     _fullRequestFlag := _fullRequestFlag s;
     _currentRange := _currentRange s; _redirectedURL := _redirectedURL s;
     _speedNormalized := _speedNormalized s;
     _isEarlyEofReconnecting := _isEarlyEofReconnecting s;
     _paused := _paused s; _resumeFrom := _resumeFrom s;
     _onDataArrival := _onDataArrival s; _onSeeked := _onSeeked s;
     _onError := _onError s; _onComplete := _onComplete s;
     _onRedirect := _onRedirect s;
     _onRecoveredEarlyEof := _onRecoveredEarlyEof s; trace := trace s |}.

Definition set_loader (v : option Loader) (s : IOController) : IOController :=
  {| _config := _config s; _stashInitialSize := _stashInitialSize s;
     _stashUsed := _stashUsed s; _stashSize := _stashSize s;
     _bufferSize := _bufferSize s; _stashBuffer := _stashBuffer s;
     _stashByteStart := _stashByteStart s; _enableStash := _enableStash s;
     lastByteStart := lastByteStart s; _loader := v;
     _loaderClass := _loaderClass s; _totalLength := _totalLength s;
     _fullRequestFlag := _fullRequestFlag s;
     _currentRange := _currentRange s; _redirectedURL := _redirectedURL s;
     _speedNormalized := _speedNormalized s;
     _isEarlyEofReconnecting := _isEarlyEofReconnecting s;
     _paused := _paused s; _resumeFrom := _resumeFrom s;
     _onDataArrival := _onDataArrival s; _onSeeked := _onSeeked s;
     _onError := _onError s; _onComplete := _onComplete s;
     _onRedirect := _onRedirect s;
     _onRecoveredEarlyEof := _onRecoveredEarlyEof s; trace := trace s |}.

Definition set_totalLength (v : option Z) (s : IOController) : IOController :=
  {| _config := _config s; _stashInitialSize := _stashInitialSize s;
     _stashUsed := _stashUsed s; _stashSize := _stashSize s;
     _bufferSize := _bufferSize s; _stashBuffer := _stashBuffer s;
     _stashByteStart := _stashByteStart s; _enableStash := _enableStash s;
     lastByteStart := lastByteStart s; _loader := _loader s;
     _loaderClass := _loaderClass s; _totalLength := v;
     _fullRequestFlag := _fullRequestFlag s;
     _currentRange := _currentRange s; _redirectedURL := _redirectedURL s;
     _speedNormalized := _speedNormalized s;
     _isEarlyEofReconnecting := _isEarlyEofReconnecting s;
     _paused := _paused s; _resumeFrom := _resumeFrom s;
     _onDataArrival := _onDataArrival s; _onSeeked := _onSeeked s;
     _onError := _onError s; _onComplete := _onComplete s;
     _onRedirect := _onRedirect s;
     _onRecoveredEarlyEof := _onRecoveredEarlyEof s; trace := trace s |}.

Definition set_fullRequestFlag (v : bool) (s : IOController) : IOController :=
  {| _config := _config s; _stashInitialSize := _stashInitialSize s;
     _stashUsed := _stashUsed s; _stashSize := _stashSize s;
     _bufferSize := _bufferSize s; _stashBuffer := _stashBuffer s;
     _stashByteStart := _stashByteStart s; _enableStash := _enableStash s;
     lastByteStart := lastByteStart s; _loader := _loader s;
     _loaderClass := _loaderClass s; _totalLength := _totalLength s;
     _fullRequestFlag := v; _currentRange := _currentRange s;
     _redirectedURL := _redirectedURL s;
     _speedNormalized := _speedNormalized s;
     _isEarlyEofReconnecting := _isEarlyEofReconnecting s;
     _paused := _paused s; _resumeFrom := _resumeFrom s;
     _onDataArrival := _onDataArrival s; _onSeeked := _onSeeked s;
     _onError := _onError s; _onComplete := _onComplete s;
     _onRedirect := _onRedirect s;
     _onRecoveredEarlyEof := _onRecoveredEarlyEof s; trace := trace s |}.

Definition set_currentRange (v : option Range) (s : IOController) : IOController :=
  {| _config := _config s; _stashInitialSize := _stashInitialSize s;
     _stashUsed := _stashUsed s; _stashSize := _stashSize s;
     _bufferSize := _bufferSize s; _stashBuffer := _stashBuffer s;
     _stashByteStart := _stashByteStart s; _enableStash := _enableStash s;
     lastByteStart := lastByteStart s; _loader := _loader s;
     _loaderClass := _loaderClass s; _totalLength := _totalLength s;
     _fullRequestFlag := _fullRequestFlag s; _currentRange := v;
     _redirectedURL := _redirectedURL s;
     _speedNormalized := _speedNormalized s;
     _isEarlyEofReconnecting := _isEarlyEofReconnecting s;
     _paused := _paused s; _resumeFrom := _resumeFrom s;
     _onDataArrival := _onDataArrival s; _onSeeked := _onSeeked s;
     _onError := _onError s; _onComplete := _onComplete s;
     _onRedirect := _onRedirect s;
     _onRecoveredEarlyEof := _onRecoveredEarlyEof s; trace := trace s |}.

Definition set_redirectedURL (v : option string) (s : IOController) : IOController :=
  {| _config := _config s; _stashInitialSize := _stashInitialSize s;
     _stashUsed := _stashUsed s; _stashSize := _stashSize s;
     _bufferSize := _bufferSize s; _stashBuffer := _stashBuffer s;
     _stashByteStart := _stashByteStart s; _enableStash := _enableStash s;
     lastByteStart := lastByteStart s; _loader := _loader s;
     _loaderClass := _loaderClass s; _totalLength := _totalLength s;
     _fullRequestFlag := _fullRequestFlag s;
     _currentRange := _currentRange s; _redirectedURL := v;
     _speedNormalized := _speedNormalized s;
     _isEarlyEofReconnecting := _isEarlyEofReconnecting s;
     _paused := _paused s; _resumeFrom := _resumeFrom s;
     _onDataArrival := _onDataArrival s; _onSeeked := _onSeeked s;
     _onError := _onError s; _onComplete := _onComplete s;
     _onRedirect := _onRedirect s;
     _onRecoveredEarlyEof := _onRecoveredEarlyEof s; trace := trace s |}.

Definition set_speedNormalized (v : Z) (s : IOController) : IOController :=
  {| _config := _config s; _stashInitialSize := _stashInitialSize s;
     _stashUsed := _stashUsed s; _stashSize := _stashSize s;
     _bufferSize := _bufferSize s; _stashBuffer := _stashBuffer s;
     _stashByteStart := _stashByteStart s; _enableStash := _enableStash s;
     lastByteStart := lastByteStart s; _loader := _loader s;
     _loaderClass := _loaderClass s; _totalLength := _totalLength s;
     _fullRequestFlag := _fullRequestFlag s;
     _currentRange := _currentRange s; _redirectedURL := _redirectedURL s;
     _speedNormalized := v;
     _isEarlyEofReconnecting := _isEarlyEofReconnecting s;
     _paused := _paused s; _resumeFrom := _resumeFrom s;
     _onDataArrival := _onDataArrival s; _onSeeked := _onSeeked s;
     _onError := _onError s; _onComplete := _onComplete s;
     _onRedirect := _onRedirect s;
     _onRecoveredEarlyEof := _onRecoveredEarlyEof s; trace := trace s |}.

Definition set_isEarlyEofReconnecting (v : bool) (s : IOController) : IOController :=
  {| _config := _config s; _stashInitialSize := _stashInitialSize s;
     _stashUsed := _stashUsed s; _stashSize := _stashSize s;
     _bufferSize := _bufferSize s; _stashBuffer := _stashBuffer s;
     _stashByteStart := _stashByteStart s; _enableStash := _enableStash s;
     lastByteStart := lastByteStart s; _loader := _loader s;
     _loaderClass := _loaderClass s; _totalLength := _totalLength s;
     _fullRequestFlag := _fullRequestFlag s;
     _currentRange := _currentRange s; _redirectedURL := _redirectedURL s;
     _speedNormalized := _speedNormalized s; _isEarlyEofReconnecting := v;
     _paused := _paused s; _resumeFrom := _resumeFrom s;
     _onDataArrival := _onDataArrival s; _onSeeked := _onSeeked s;
     _onError := _onError s; _onComplete := _onComplete s;
     _onRedirect := _onRedirect s;
     _onRecoveredEarlyEof := _onRecoveredEarlyEof s; trace := trace s |}.

Definition set_paused (v : bool) (s : IOController) : IOController :=
  {| _config := _config s; _stashInitialSize := _stashInitialSize s;
     _stashUsed := _stashUsed s; _stashSize := _stashSize s;
     _bufferSize := _bufferSize s; _stashBuffer := _stashBuffer s;
     _stashByteStart := _stashByteStart s; _enableStash := _enableStash s;
     lastByteStart := lastByteStart s; _loader := _loader s;
     _loaderClass := _loaderClass s; _totalLength := _totalLength s;
     _fullRequestFlag := _fullRequestFlag s;
     _currentRange := _currentRange s; _redirectedURL := _redirectedURL s;
     _speedNormalized := _speedNormalized s;
     _isEarlyEofReconnecting := _isEarlyEofReconnecting s; _paused := v;
     _resumeFrom := _resumeFrom s; _onDataArrival := _onDataArrival s;
     _onSeeked := _onSeeked s; _onError := _onError s;
     _onComplete := _onComplete s; _onRedirect := _onRedirect s;
     _onRecoveredEarlyEof := _onRecoveredEarlyEof s; trace := trace s |}.

Definition set_resumeFrom (v : Z) (s : IOController) : IOController :=
  {| _config := _config s; _stashInitialSize := _stashInitialSize s;
     _stashUsed := _stashUsed s; _stashSize := _stashSize s;
     _bufferSize := _bufferSize s; _stashBuffer := _stashBuffer s;
     _stashByteStart := _stashByteStart s; _enableStash := _enableStash s;
     lastByteStart := lastByteStart s; _loader := _loader s;
     _loaderClass := _loaderClass s; _totalLength := _totalLength s;
     _fullRequestFlag := _fullRequestFlag s;
     _currentRange := _currentRange s; _redirectedURL := _redirectedURL s;
     _speedNormalized := _speedNormalized s;
     _isEarlyEofReconnecting := _isEarlyEofReconnecting s;
     _paused := _paused s; _resumeFrom := v;
     _onDataArrival := _onDataArrival s; _onSeeked := _onSeeked s;
     _onError := _onError s; _onComplete := _onComplete s;
     _onRedirect := _onRedirect s;
     _onRecoveredEarlyEof := _onRecoveredEarlyEof s; trace := trace s |}.

Definition set_onDataArrival (v : option CS) (s : IOController) : IOController :=
  {| _config := _config s; _stashInitialSize := _stashInitialSize s;
     _stashUsed := _stashUsed s; _stashSize := _stashSize s;
     _bufferSize := _bufferSize s; _stashBuffer := _stashBuffer s;
     _stashByteStart := _stashByteStart s; _enableStash := _enableStash s;
     lastByteStart := lastByteStart s; _loader := _loader s;
     _loaderClass := _loaderClass s; _totalLength := _totalLength s;
     _fullRequestFlag := _fullRequestFlag s;
     _currentRange := _currentRange s; _redirectedURL := _redirectedURL s;
     _speedNormalized := _speedNormalized s;
     _isEarlyEofReconnecting := _isEarlyEofReconnecting s;
     _paused := _paused s; _resumeFrom := _resumeFrom s;
     _onDataArrival := v; _onSeeked := _onSeeked s; _onError := _onError s;
     _onComplete := _onComplete s; _onRedirect := _onRedirect s;
     _onRecoveredEarlyEof := _onRecoveredEarlyEof s; trace := trace s |}.

Definition set_trace (v : list Event) (s : IOController) : IOController :=
  {| _config := _config s; _stashInitialSize := _stashInitialSize s;
     _stashUsed := _stashUsed s; _stashSize := _stashSize s;
     _bufferSize := _bufferSize s; _stashBuffer := _stashBuffer s;
     _stashByteStart := _stashByteStart s; _enableStash := _enableStash s;
     lastByteStart := lastByteStart s; _loader := _loader s;
     _loaderClass := _loaderClass s; _totalLength := _totalLength s;
     _fullRequestFlag := _fullRequestFlag s;
     _currentRange := _currentRange s; _redirectedURL := _redirectedURL s;
     _speedNormalized := _speedNormalized s;
     _isEarlyEofReconnecting := _isEarlyEofReconnecting s;
     _paused := _paused s; _resumeFrom := _resumeFrom s;
     _onDataArrival := _onDataArrival s; _onSeeked := _onSeeked s;
     _onError := _onError s; _onComplete := _onComplete s;
     _onRedirect := _onRedirect s;
     _onRecoveredEarlyEof := _onRecoveredEarlyEof s; trace := v |}.
Definition MC : Type -> Type := M IOController.

Definition emit (e : Event) : MC unit :=
  modify (fun s => set_trace (trace s ++ [e]) s).

(** ** The loader, as the controller drives it *)

Definition with_loader {A} (k : Loader -> MC A) : MC A :=
  s <- get ;;
  match _loader s with
  | Some l => k l
  | None => throw TypeError
  end.

Definition loader_isWorking : MC bool :=
  with_loader (fun l => ret (ldr_working l)).

Definition loader_abort : MC unit :=
  with_loader (fun _ =>
    modify (set_loader (Some {| ldr_working := false |})) ;;
    emit EvLoaderAbort).

Definition loader_destroy : MC unit :=
  with_loader (fun _ =>
    modify (set_loader (Some {| ldr_working := false |})) ;;
    emit EvLoaderDestroy).

Definition loader_open (range : Range) : MC unit :=
  with_loader (fun _ =>
    modify (set_loader (Some {| ldr_working := true |})) ;;
    emit (EvLoaderOpen range)).

(** ** Construction *)

Definition IOController_new (filesize : option Z) (config : Config)
    (loaderClass : LoaderClass) : IOController :=
  let initial :=
    match stashInitialSize config with
    | Some v => if 0 <? v then v else 1024 * 384
    | None => 1024 * 384
    end in
  {| _config := config;
     _stashInitialSize := initial;
     _stashUsed := 0;
     _stashSize := initial;
     _bufferSize := 1024 * 1024 * 3;
     _stashBuffer := new_ArrayBuffer (1024 * 1024 * 3);
     _stashByteStart := 0;
     _enableStash :=
       match enableStashBuffer config with
       | Some false => false
       | _ => needStashBuffer loaderClass
       end;
     lastByteStart := -1;
     _loader := Some {| ldr_working := false |};
     _loaderClass := loaderClass;
     _totalLength := if truthy filesize then filesize else None;
     _fullRequestFlag := false;
     _currentRange := None;
     _redirectedURL := None;
     _speedNormalized := 0;
     _isEarlyEofReconnecting := false;
     _paused := false;
     _resumeFrom := 0;
     _onDataArrival := None;
     _onSeeked := false;
     _onError := false;
     _onComplete := false;
     _onRedirect := false;
     _onRecoveredEarlyEof := false;
     trace := [] |}.

Definition isWorking (s : IOController) : bool :=
  match _loader s with
  | Some l => ldr_working l && negb (_paused s)
  | None => false
  end.

Definition _createLoader : MC unit :=
  modify (set_loader (Some {| ldr_working := false |})) ;;
  s <- get ;;
  when (negb (needStashBuffer (_loaderClass s))) (modify (set_enableStash false)).

(** [this._currentRange.to]; reading a field of [null] is a TypeError. *)
Definition currentRange : MC Range :=
  s <- get ;;
  match _currentRange s with
  | Some r => ret r
  | None => throw TypeError
  end.

Definition set_currentRange_to (v : Z) : MC unit :=
  r <- currentRange ;;
  modify (set_currentRange (Some {| from := from r; to := v |})).


(** [new Uint8Array(buffer, off, len)] on a buffer of [total] bytes. *)
Definition view (total off len : Z) : MC unit :=
  if window_ok total off len then ret tt else throw RangeError.

(** [stashArray.set(src, at)], [stashArray] being a view of [viewLen] bytes
    from the start of [this._stashBuffer]. *)
Definition stashArray_set (viewLen : Z) (src : list byte) (at_ : Z) : MC unit :=
  if (0 <=? at_) && (at_ + byteLength src <=? viewLen)
  then modify (fun s => set_stashBuffer (ab_write (_stashBuffer s) at_ src) s)
  else throw RangeError.

(** ** Buffer growth and the speed tiers *)

(** The loop [while (bufferNewSize + 1MB < expectedBytes) bufferNewSize *= 2]:
    [None] when the fuel runs out. *)
Fixpoint expand_loop (fuel : nat) (bufferNewSize expectedBytes : Z) : option Z :=
  if bufferNewSize + 1024 * 1024 * 1 <? expectedBytes then
    match fuel with
    | O => None
    | S fuel' => expand_loop fuel' (bufferNewSize * 2) expectedBytes
    end
  else Some bufferNewSize.

Definition expand_fuel (expectedBytes : Z) : nat :=
  Z.to_nat (Z.log2_up expectedBytes).

Definition _expandBuffer (expectedBytes : Z) : MC unit :=
  s <- get ;;
  match expand_loop (expand_fuel expectedBytes) (_stashSize s) expectedBytes with
  | None => hang
  | Some doubled =>
      let bufferNewSize := doubled + 1024 * 1024 * 1 in
      if bufferNewSize =? _bufferSize s then ret tt
      else
        (if bufferNewSize <? 0 then throw RangeError else ret tt) ;;
        let newBuffer := new_ArrayBuffer bufferNewSize in
        newBuffer <-
          (if 0 <? _stashUsed s then
             view (ab_byteLength (_stashBuffer s)) 0 (_stashUsed s) ;;
             let stashOldArray := ab_read (_stashBuffer s) 0 (_stashUsed s) in
             if byteLength stashOldArray <=? bufferNewSize
             then ret (ab_write newBuffer 0 stashOldArray)
             else throw RangeError
           else ret newBuffer) ;;
        modify (set_stashBuffer newBuffer) ;;
        modify (set_bufferSize bufferNewSize)
  end.

Definition _speedNormalizeList : list Z :=
  [64; 128; 256; 384; 512; 768; 1024; 1536; 2048; 3072; 4096].

Definition Qlt_bool (x y : Q) : bool := negb (Qle_bool y x).

(** The binary search of [_normalizeSpeed]; [None] is falling out of the
    loop (the function then returns [undefined]). *)
Fixpoint normalize_loop (fuel : nat) (list : list Z) (input : Q)
    (lbound ubound : Z) : option Z :=
  match fuel with
  | O => None
  | S fuel' =>
      if lbound <=? ubound then
        let last := Z.of_nat (List.length list) - 1 in
        let mid := lbound + (ubound - lbound) / 2 in
        let at_mid := nth (Z.to_nat mid) list 0 in
        let at_next := nth (Z.to_nat (mid + 1)) list 0 in
        if (mid =? last)
           || (Qle_bool (inject_Z at_mid) input && Qlt_bool input (inject_Z at_next))
        then Some at_mid
        else if Qlt_bool (inject_Z at_mid) input
             then normalize_loop fuel' list input (mid + 1) ubound
             else normalize_loop fuel' list input lbound (mid - 1)
      else None
  end.

Definition _normalizeSpeed (input : Q) : option Z :=
  let list := _speedNormalizeList in
  let last := Z.of_nat (List.length list) - 1 in
  if Qlt_bool input (inject_Z (nth 0 list 0)) then Some (nth 0 list 0)
  else normalize_loop (S (List.length list)) list input 0 last.

Definition _adjustStashSize (normalized : Z) : MC unit :=
  s <- get ;;
  let stashSizeKB :=
    if isLive (_config s) then normalized
    else if normalized <? 512 then normalized
    else if (512 <=? normalized) && (normalized <=? 1024) then normalized * 3 / 2
    else normalized * 2 in
  let stashSizeKB := if 8192 <? stashSizeKB then 8192 else stashSizeKB in
  let bufferSize := stashSizeKB * 1024 + 1024 * 1024 * 1 in
  when (_bufferSize s <? bufferSize) (_expandBuffer bufferSize) ;;
  modify (set_stashSize (stashSizeKB * 1024)).

(** ** Dispatching to the consumer *)

Definition call_onDataArrival (chunks : list byte) (byteStart : Z) : MC Z :=
  fun s =>
    match _onDataArrival s with
    | None => Throw TypeError s
    | Some cs =>
        let s1 := set_trace (trace s ++ [EvDataArrival chunks byteStart]) s in
        match consume cs chunks byteStart with
        | Ok consumed cs' => Ok consumed (set_onDataArrival (Some cs') s1)
        | Throw e cs' => Throw e (set_onDataArrival (Some cs') s1)
        | Hang => Hang
        end
    end.

Definition _dispatchChunks (chunks : list byte) (byteStart : Z) : MC Z :=
  set_currentRange_to (byteStart + byteLength chunks - 1) ;;
  call_onDataArrival chunks byteStart.

Definition _onURLRedirect (redirectedURL : string) : MC unit :=
  modify (set_redirectedURL (Some redirectedURL)) ;;
  s <- get ;;
  when (_onRedirect s) (emit (EvRedirect redirectedURL)).

Definition _onContentLengthKnown (contentLength : Z) : MC unit :=
  s <- get ;;
  when (negb (contentLength =? 0) && _fullRequestFlag s)
    (modify (set_totalLength (Some contentLength)) ;;
     modify (set_fullRequestFlag false)).

Definition _flushStashBuffer (dropUnconsumed : bool) : MC Z :=
  s <- get ;;
  if 0 <? _stashUsed s then
    let buffer := ab_slice (_stashBuffer s) (_stashUsed s) in
    consumed <- _dispatchChunks buffer (_stashByteStart s) ;;
    let remain := byteLength buffer - consumed in
    let clear :=
      modify (set_stashUsed 0) ;;
      modify (set_stashByteStart 0) ;;
      ret remain in
    if consumed <? byteLength buffer then
      if dropUnconsumed then clear
      else
        when (0 <? consumed)
          (s <- get ;;
           view (ab_byteLength (_stashBuffer s)) 0 (_bufferSize s) ;;
           let remainArray := skipn (Z.to_nat consumed) buffer in
           stashArray_set (_bufferSize s) remainArray 0 ;;
           modify (set_stashUsed (byteLength remainArray)) ;;
           modify (set_stashByteStart (_stashByteStart s + consumed))) ;;
        ret 0
    else clear
  else ret 0.

(** ** The public operations *)

Definition open (optionalFrom : option Z) : MC unit :=
  let from_ := if truthy optionalFrom then match optionalFrom with Some v => v | None => 0 end else 0 in
  modify (set_currentRange (Some {| from := from_; to := -1 |})) ;;
  when (negb (truthy optionalFrom)) (modify (set_fullRequestFlag true)) ;;
  loader_open {| from := from_; to := -1 |}.

Definition abort : MC unit :=
  loader_abort ;;
  s <- get ;;
  when (_paused s)
    (modify (set_paused false) ;;
     modify (set_resumeFrom 0)).

Definition pause : MC unit :=
  s <- get ;;
  when (isWorking s)
    (loader_abort ;;
     (if negb (_stashUsed s =? 0) then
        modify (set_resumeFrom (_stashByteStart s)) ;;
        set_currentRange_to (_stashByteStart s - 1)
      else
        r <- currentRange ;;
        modify (set_resumeFrom (to r + 1))) ;;
     modify (set_stashUsed 0) ;;
     modify (set_stashByteStart 0) ;;
     modify (set_paused true)).

Definition _internalSeek (bytes : Z) (dropUnconsumed : bool) : MC unit :=
  w <- loader_isWorking ;;
  when w loader_abort ;;
  _flushStashBuffer dropUnconsumed ;;
  loader_destroy ;;
  modify (set_loader None) ;;
  modify (set_currentRange (Some {| from := bytes; to := -1 |})) ;;
  s <- get ;;
  modify (set_stashSize (_stashInitialSize s)) ;;
  _createLoader ;;
  loader_open {| from := bytes; to := -1 |} ;;
  when (_onSeeked s) (emit EvSeeked).

Definition resume : MC unit :=
  s <- get ;;
  when (_paused s)
    (modify (set_paused false) ;;
     let bytes := _resumeFrom s in
     modify (set_resumeFrom 0) ;;
     _internalSeek bytes true).

Definition seek (bytes : Z) : MC unit :=
  modify (set_paused false) ;;
  modify (set_stashUsed 0) ;;
  modify (set_stashByteStart 0) ;;
  _internalSeek bytes true.


(** ** The loader's notifications *)

(** Stash disabled, nothing carried over: dispatch the chunk itself and keep
    what the consumer left. *)
Definition arrival_direct (chunk : list byte) (byteStart : Z) : MC unit :=
  consumed <- _dispatchChunks chunk byteStart ;;
  when (consumed <? byteLength chunk)
    (let remain := byteLength chunk - consumed in
     s <- get ;;
     when (_bufferSize s <? remain) (_expandBuffer remain) ;;
     s <- get ;;
     view (ab_byteLength (_stashBuffer s)) 0 (_bufferSize s) ;;
     view (byteLength chunk) consumed (byteLength chunk - consumed) ;;
     stashArray_set (_bufferSize s) (skipn (Z.to_nat consumed) chunk) 0 ;;
     modify (set_stashUsed (_stashUsed s + remain)) ;;
     modify (set_stashByteStart (byteStart + consumed))).

(** Stash disabled, a remainder is carried over: merge, then dispatch. *)
Definition arrival_merge (chunk : list byte) : MC unit :=
  s <- get ;;
  when (_bufferSize s <? _stashUsed s + byteLength chunk)
    (_expandBuffer (_stashUsed s + byteLength chunk)) ;;
  s <- get ;;
  view (ab_byteLength (_stashBuffer s)) 0 (_bufferSize s) ;;
  let stashArray_length := _bufferSize s in
  stashArray_set stashArray_length chunk (_stashUsed s) ;;
  modify (set_stashUsed (_stashUsed s + byteLength chunk)) ;;
  s <- get ;;
  consumed <- _dispatchChunks (ab_slice (_stashBuffer s) (_stashUsed s))
                              (_stashByteStart s) ;;
  s <- get ;;
  when ((consumed <? _stashUsed s) && (0 <? consumed))
    (view (ab_byteLength (_stashBuffer s)) consumed
          (ab_byteLength (_stashBuffer s) - consumed) ;;
     stashArray_set stashArray_length (ab_from (_stashBuffer s) consumed) 0) ;;
  modify (set_stashUsed (_stashUsed s - consumed)) ;;
  modify (set_stashByteStart (_stashByteStart s + consumed)).

(** Stash enabled, the chunk fits under [_stashSize]. *)
Definition arrival_stash (chunk : list byte) : MC unit :=
  s <- get ;;
  view (ab_byteLength (_stashBuffer s)) 0 (_stashSize s) ;;
  stashArray_set (_stashSize s) chunk (_stashUsed s) ;;
  modify (set_stashUsed (_stashUsed s + byteLength chunk)).

(** Stash enabled, the size limit is exceeded and the stash holds data:
    dispatch the stash, keep what the consumer left, append the chunk. *)
Definition arrival_flush_then_stash (chunk : list byte) : MC unit :=
  s <- get ;;
  let buffer := ab_slice (_stashBuffer s) (_stashUsed s) in
  consumed <- _dispatchChunks buffer (_stashByteStart s) ;;
  (if consumed <? byteLength buffer then
     when (0 <? consumed)
       (let remainArray := skipn (Z.to_nat consumed) buffer in
        s <- get ;;
        stashArray_set (_bufferSize s) remainArray 0 ;;
        modify (set_stashUsed (byteLength remainArray)) ;;
        modify (set_stashByteStart (_stashByteStart s + consumed)))
   else
     modify (set_stashUsed 0) ;;
     s <- get ;;
     modify (set_stashByteStart (_stashByteStart s + consumed))) ;;
  s <- get ;;
  when (_bufferSize s <? _stashUsed s + byteLength chunk)
    (_expandBuffer (_stashUsed s + byteLength chunk) ;;
     s <- get ;;
     view (ab_byteLength (_stashBuffer s)) 0 (_bufferSize s)) ;;
  s <- get ;;
  stashArray_set (_bufferSize s) chunk (_stashUsed s) ;;
  modify (set_stashUsed (_stashUsed s + byteLength chunk)).

(** Stash enabled and empty, the chunk alone exceeds [_stashSize]. *)
Definition arrival_oversized (chunk : list byte) (byteStart : Z) : MC unit :=
  consumed <- _dispatchChunks chunk byteStart ;;
  when (consumed <? byteLength chunk)
    (let remain := byteLength chunk - consumed in
     s <- get ;;
     when (_bufferSize s <? remain)
       (_expandBuffer remain ;;
        s <- get ;;
        view (ab_byteLength (_stashBuffer s)) 0 (_bufferSize s)) ;;
     s <- get ;;
     view (byteLength chunk) consumed (byteLength chunk - consumed) ;;
     stashArray_set (_bufferSize s) (skipn (Z.to_nat consumed) chunk) 0 ;;
     modify (set_stashUsed (_stashUsed s + remain)) ;;
     modify (set_stashByteStart (byteStart + consumed))).

(** The two modes of [_onLoaderChunkArrival], once the rate is dealt with. *)
Definition buffering_policy (chunk : list byte) (byteStart : Z) : MC unit :=
  s <- get ;;
  if negb (_enableStash s) then
    if _stashUsed s =? 0 then arrival_direct chunk byteStart
    else arrival_merge chunk
  else
    when ((_stashUsed s =? 0) && (_stashByteStart s =? 0))
      (modify (set_stashByteStart byteStart)) ;;
    s <- get ;;
    if _stashUsed s + byteLength chunk <=? _stashSize s
    then arrival_stash chunk
    else
      view (ab_byteLength (_stashBuffer s)) 0 (_bufferSize s) ;;
      if 0 <? _stashUsed s then arrival_flush_then_stash chunk
      else arrival_oversized chunk byteStart.

(** [KBps] is what [this._speedSampler.lastSecondKBps] reads once the
    chunk's bytes are added: the sampler is a collaborator, and its reading
    is an input of the notification. *)
Definition _onLoaderChunkArrival (chunk : list byte) (byteStart receivedLength : Z)
    (KBps : Q) : MC unit :=
  modify (set_lastByteStart byteStart) ;;
  s <- get ;;
  match _onDataArrival s with
  | None => throw IllegalStateException
  | Some _ =>
      if _paused s then ret tt
      else
        when (_isEarlyEofReconnecting s)
          (modify (set_isEarlyEofReconnecting false) ;;
           when (_onRecoveredEarlyEof s) (emit EvRecoveredEarlyEof)) ;;
        when (negb (Qeq_bool KBps 0))
          (match _normalizeSpeed KBps with
           | Some normalized =>
               s <- get ;;
               when (negb (_speedNormalized s =? normalized))
                 (modify (set_speedNormalized normalized) ;;
                  _adjustStashSize normalized)
           | None => ret tt
           end) ;;
        buffering_policy chunk byteStart
  end.

Definition _onLoaderComplete (from_ to_ : Z) : MC unit :=
  _flushStashBuffer true ;;
  s <- get ;;
  if 0 <=? lastByteStart s
  then when (_onComplete s) (emit EvComplete)
  else when (_onError s) (emit (EvError CONNECTING_TIMEOUT 500)).

(** The end of [_onLoaderError]: hand the error to [onError], or raise. *)
Definition surface_error (type : LoaderErrors) (code : Z) : MC unit :=
  s <- get ;;
  if _onError s then emit (EvError type code) else throw RuntimeException.

Definition _onLoaderError (type : LoaderErrors) (code : Z) : MC unit :=
  _flushStashBuffer false ;;
  s <- get ;;
  type <- (if _isEarlyEofReconnecting s
           then modify (set_isEarlyEofReconnecting false) ;;
                ret UNRECOVERABLE_EARLY_EOF
           else ret type) ;;
  match type with
  | EARLY_EOF =>
      s <- get ;;
      if negb (isLive (_config s)) && truthy (_totalLength s) then
        r <- currentRange ;;
        let nextFrom := to r + 1 in
        let totalLength := match _totalLength s with Some v => v | None => 0 end in
        when (nextFrom <? totalLength)
          (modify (set_isEarlyEofReconnecting true) ;;
           _internalSeek nextFrom false)
      else surface_error UNRECOVERABLE_EARLY_EOF code
  | _ => surface_error type code
  end.

(** ** Sessions *)

(** What can happen to a controller between its construction and its
    destruction: the calls of its user and the notifications of its loader. *)
Inductive Op : Type :=
| OpOpen (optionalFrom : option Z)
| OpAbort
| OpPause
| OpResume
| OpSeek (bytes : Z)
| OpContentLengthKnown (contentLength : Z)
| OpURLRedirect (redirectedURL : string)
| OpChunkArrival (chunk : list byte) (byteStart receivedLength : Z) (KBps : Q)
| OpComplete (from_ to_ : Z)
| OpError (type : LoaderErrors) (code : Z).

Definition exec (op : Op) : MC unit :=
  match op with
  | OpOpen optionalFrom => open optionalFrom
  | OpAbort => abort
  | OpPause => pause
  | OpResume => resume
  | OpSeek bytes => seek bytes
  | OpContentLengthKnown n => _onContentLengthKnown n
  | OpURLRedirect url => _onURLRedirect url
  | OpChunkArrival chunk byteStart receivedLength KBps =>
      _onLoaderChunkArrival chunk byteStart receivedLength KBps
  | OpComplete from_ to_ => _onLoaderComplete from_ to_
  | OpError type code => _onLoaderError type code
  end.

Definition run (ops : list Op) (s : IOController) : option IOController :=
  run_all exec ops s.

Definition is_arrival (op : Op) : bool :=
  match op with
  | OpChunkArrival _ _ _ _ => true
  | _ => false
  end.

(** Whether the loader has delivered a chunk, of whatever length. *)
Definition has_arrival (ops : list Op) : bool := existsb is_arrival ops.

(** The number of bytes the loader has delivered. *)
Fixpoint bytes_received (ops : list Op) : Z :=
  match ops with
  | [] => 0
  | OpChunkArrival chunk _ _ _ :: rest => byteLength chunk + bytes_received rest
  | _ :: rest => bytes_received rest
  end.

(** Stream offsets are not negative. *)
Definition offset_nonneg (op : Op) : Prop :=
  match op with
  | OpChunkArrival _ byteStart _ _ => 0 <= byteStart
  | _ => True
  end.

(** ** What the properties speak of *)

(** [_bufferSize] is the length of the buffer it describes. *)
Definition buffer_tracked (s : IOController) : Prop :=
  ab_byteLength (_stashBuffer s) = _bufferSize s.

Definition grows (s s' : IOController) : Prop :=
  _bufferSize s <= _bufferSize s' /\ (buffer_tracked s -> buffer_tracked s').

(** What everything but the start of [_onLoaderChunkArrival] keeps. *)
Definition steady (s s' : IOController) : Prop :=
  grows s s' /\ lastByteStart s' = lastByteStart s.

(** The bytes the stash holds. *)
Definition stash_bytes (s : IOController) : list byte :=
  ab_read (_stashBuffer s) 0 (_stashUsed s).

Definition stash_ok (s : IOController) : Prop :=
  buffer_tracked s /\ 0 <= _stashUsed s <= _bufferSize s.

(** The state a dispatch of the whole stash leaves: the range's end is the
    last byte dispatched, the consumer has been called, and the stash is
    [B], [U] bytes long from offset [T]. *)
Definition flushed (s : IOController) (r : Range) (cs' : CS) (B : ArrayBuffer)
    (U T : Z) : IOController :=
  set_stashByteStart T (set_stashUsed U (set_stashBuffer B
    (set_onDataArrival (Some cs')
      (set_trace (trace s ++ [EvDataArrival (stash_bytes s) (_stashByteStart s)])
        (set_currentRange
           (Some {| from := from r; to := _stashByteStart s + _stashUsed s - 1 |})
           s))))).

(** The measured rate leaves the tier where it is. *)
Definition tier_steady (s : IOController) (KBps : Q) : Prop :=
  Qeq_bool KBps 0 = true \/ _normalizeSpeed KBps = Some (_speedNormalized s).

(** The length and the offset of each dispatch among some events. *)
Definition dispatches (events : list Event) : list (Z * Z) :=
  flat_map (fun e =>
              match e with
              | EvDataArrival chunks byteStart => [(byteLength chunks, byteStart)]
              | _ => []
              end) events.

(** The callbacks registered, as the setters [onDataArrival], [onSeeked],
    [onError], [onComplete], [onRedirect] and [onRecoveredEarlyEof] leave
    the object; [cs] is the consumer's state. *)
Definition with_callbacks (cs : CS) (s : IOController) : IOController :=
  {| _config := _config s; _stashInitialSize := _stashInitialSize s;
     _stashUsed := _stashUsed s; _stashSize := _stashSize s;
     _bufferSize := _bufferSize s; _stashBuffer := _stashBuffer s;
     _stashByteStart := _stashByteStart s; _enableStash := _enableStash s;
     lastByteStart := lastByteStart s; _loader := _loader s;
     _loaderClass := _loaderClass s; _totalLength := _totalLength s;
     _fullRequestFlag := _fullRequestFlag s;
     _currentRange := _currentRange s; _redirectedURL := _redirectedURL s;
     _speedNormalized := _speedNormalized s;
     _isEarlyEofReconnecting := _isEarlyEofReconnecting s;
     _paused := _paused s; _resumeFrom := _resumeFrom s;
     _onDataArrival := Some cs; _onSeeked := true; _onError := true;
     _onComplete := true; _onRedirect := true; _onRecoveredEarlyEof := true;
     trace := trace s |}.


(** ** What the further properties speak of *)

(** A consumer that ends each call, and that reports, when it returns, a
    count between 0 and the length of what it was given. *)
Definition well_behaved : Prop :=
  forall cs data byteStart,
    match consume cs data byteStart with
    | Ok consumed _ => 0 <= consumed <= byteLength data
    | Throw _ _ => True
    | Hang => False
    end.

(** The sizes fit: the buffer is as long as [_bufferSize] says, the stash
    holds no more than the buffer, and the target sizes are positive and
    within the buffer. *)
Definition sound (s : IOController) : Prop :=
  buffer_tracked s /\
  0 <= _stashUsed s <= _bufferSize s /\
  0 < _stashSize s <= _bufferSize s /\
  0 < _stashInitialSize s <= _bufferSize s.

(** The kilobytes [_adjustStashSize] aims at for a tier. *)
Definition stash_target_KB (live : bool) (normalized : Z) : Z :=
  let stashSizeKB :=
    if live then normalized
    else if normalized <? 512 then normalized
    else if normalized <=? 1024 then normalized * 3 / 2
    else normalized * 2 in
  Z.min stashSizeKB 8192.

(** A consumer that returns from each call, with a count between 0 and the
    length of what it was given. *)
Definition attentive : Prop :=
  forall cs data byteStart,
    exists consumed cs',
      consume cs data byteStart = Ok consumed cs' /\
      0 <= consumed <= byteLength data.

(** The fields that neither an arrival nor a flush writes. *)
Definition same_settings (s s' : IOController) : Prop :=
  _config s' = _config s /\
  _stashInitialSize s' = _stashInitialSize s /\
  _enableStash s' = _enableStash s /\
  _loader s' = _loader s /\
  _loaderClass s' = _loaderClass s /\
  _totalLength s' = _totalLength s /\
  _paused s' = _paused s /\
  (_onSeeked s', _onError s', _onComplete s', _onRedirect s', _onRecoveredEarlyEof s')
  = (_onSeeked s, _onError s, _onComplete s, _onRedirect s, _onRecoveredEarlyEof s).

(** The calls of the consumer among some events: what it was given and
    the offset it was given it at. *)
Definition dispatched (events : list Event) : list (list byte * Z) :=
  flat_map (fun e =>
              match e with
              | EvDataArrival chunks byteStart => [(chunks, byteStart)]
              | _ => []
              end) events.

(** The consumer along some calls: each call is made on the state the call
    before it left, whether that call returned or raised, and [o'] is what
    the last one leaves. *)
Fixpoint threads (o : option CS) (calls : list (list byte * Z)) (o' : option CS) : Prop :=
  match calls with
  | [] => o' = o
  | (data, byteStart) :: rest =>
      exists cs cs',
        o = Some cs /\
        state_of (consume cs data byteStart) = Some cs' /\
        threads (Some cs') rest o'
  end.

(** [s'] comes after [s]: the trace has only grown, and the consumer of
    [s'] is the one of [s] after the calls logged in between. *)
Definition follows (s s' : IOController) : Prop :=
  exists events,
    trace s' = trace s ++ events /\
    threads (_onDataArrival s) (dispatched events) (_onDataArrival s').

(** Between [s] and [s'] the last thing done is a call of the consumer that
    raised [e]: the trace ends with that call, the call was made on the
    consumer as the calls before it left it, and [s'] holds the consumer as
    the raising call left it. *)
Definition raised_by_consumer (e : Exn) (s s' : IOController) : Prop :=
  exists events data byteStart cs cs',
    trace s' = trace s ++ events ++ [EvDataArrival data byteStart] /\
    threads (_onDataArrival s) (dispatched events) (Some cs) /\
    consume cs data byteStart = Throw e cs' /\
    _onDataArrival s' = Some cs'.

(** A call from a sound object ends, leaves the object sound, logs the
    calls of the consumer it makes, and raises no RangeError but one that
    its last call of the consumer raised. *)
Definition safe {A} (m : MC A) (s : IOController) : Prop :=
  sound s ->
  match m s with
  | Ok _ s' => sound s' /\ follows s s'
  | Throw e s' =>
      sound s' /\ follows s s' /\
      (e = RangeError -> raised_by_consumer RangeError s s')
  | Hang => False
  end.

(** The target size an arrival works with: the one [_adjustStashSize]
    sets when the measured rate falls into another tier, the current one
    otherwise. *)
Definition target_for (s : IOController) (KBps : Q) : Z :=
  if Qeq_bool KBps 0 then _stashSize s
  else match _normalizeSpeed KBps with
       | Some normalized =>
           if _speedNormalized s =? normalized then _stashSize s
           else stash_target_KB (isLive (_config s)) normalized * 1024
       | None => _stashSize s
       end.


(** The offset a dispatch is made at: the start of the stash when it holds
    bytes, the offset of the chunk otherwise. *)
Definition dispatch_offset (s : IOController) (byteStart : Z) : Z :=
  if _stashUsed s =? 0 then byteStart else _stashByteStart s.

(** The dispatch a flush makes: the whole stash at its start, when the
    stash holds bytes. *)
Definition flush_dispatch (s : IOController) : list Event :=
  if 0 <? _stashUsed s
  then [EvDataArrival (ab_read (_stashBuffer s) 0 (_stashUsed s)) (_stashByteStart s)]
  else [].

(** The kind of error [_onLoaderError] hands to [onError]. *)
Definition reported (s : IOController) (type : LoaderErrors) : LoaderErrors :=
  if _isEarlyEofReconnecting s then UNRECOVERABLE_EARLY_EOF
  else match type with
       | EARLY_EOF => UNRECOVERABLE_EARLY_EOF
       | _ => type
       end.

(** The offset after the last byte handed to the consumer, once the
    stash is flushed. *)
Definition next_from (s : IOController) (r : Range) : Z :=
  (if 0 <? _stashUsed s then _stashByteStart s + _stashUsed s - 1 else to r) + 1.

(** What no method changes: the configuration, the initial stash size and
    the loader class stay, a disabled stash stays disabled, and while no
    full request is pending none becomes pending and the total length
    stays. *)
Definition settled (s s' : IOController) : Prop :=
  _config s' = _config s /\
  _stashInitialSize s' = _stashInitialSize s /\
  _loaderClass s' = _loaderClass s /\
  (_enableStash s = false -> _enableStash s' = false) /\
  (_fullRequestFlag s = false ->
   _fullRequestFlag s' = false /\ _totalLength s' = _totalLength s).

(** An operation other than a request for the whole source: an [open] is
    given an offset that is not 0. *)
Definition partial_request (op : Op) : bool :=
  match op with
  | OpOpen optionalFrom => truthy optionalFrom
  | _ => true
  end.

End Controller.
End IO.

(** * The H.264 demuxer ([src/demux/h264-demuxer.js]) *)

Module H264.

(** ** Data *)

Record Size : Type := mkSize { width : Z; height : Z }.

Record FrameRate : Type := mkFrameRate {
  fixed : bool;
  fps : Q;
  fps_num : Z;
  fps_den : Z
}.

(** What [SPSParser.parseSPS] returns ([sps-parser.js] is a collaborator):
    the fields the demuxer reads. *)
Record SPSConfig : Type := mkSPSConfig {
  codec_size : Size;
  present_size : Size;
  profile_string : string;
  level_string : string;
  bit_depth : Z;
  chroma_format : Z;
  chroma_format_string : string;
  sar_ratio : Size;
  frame_rate : FrameRate;
  ref_frames : Z
}.

(** The fields of the video metadata that are assigned from a decoded SPS. *)
Record Geometry : Type := mkGeometry {
  codecWidth : Z;
  codecHeight : Z;
  presentWidth : Z;
  presentHeight : Z;
  profile : string;
  level : string;
  bitDepth : Z;
  chromaFormat : Z;
  sarRatio : Size;
  frameRate : FrameRate;
  refSampleDuration : Q
}.

(** [this._videoMetadata]: created with its first four fields, the others
    are [undefined] ([None]) until they are assigned. *)
Record VideoMetadata : Type := mkVideoMetadata {
  meta_type : string;
  meta_id : Z;
  meta_timescale : Z;
  meta_duration : Z;
  meta_geometry : option Geometry;
  meta_codec : option string
}.

Record MediaInfoVideo : Type := mkMediaInfoVideo {
  mi_width : Z;
  mi_height : Z;
  mi_fps : Q;
  mi_profile : string;
  mi_level : string;
  mi_refFrames : Z;
  mi_chromaFormat : string;
  mi_sarNum : Z;
  mi_sarDen : Z;
  mi_videoCodec : string;
  mi_mimeType : string
}.

(** [MediaInfo] ([core/media-info.js]): every field starts [null]. *)
Record MediaInfo : Type := mkMediaInfo {
  mi_hasAudio : option bool;
  mi_hasVideo : option bool;
  mi_duration : option Z;
  mi_video : option MediaInfoVideo
}.

Record Unit : Type := mkUnit { unit_type : Z; unit_data : list byte }.

Record Sample : Type := mkSample {
  units : list Unit;
  sample_length : Z;
  isKeyframe : bool;
  dts : Z;
  cts : Z;
  pts : Z;
  fileposition : option Z
}.

Record Track : Type := mkTrack {
  track_type : string;
  track_id : Z;
  sequenceNumber : Z;
  samples : list Sample;
  track_length : Z
}.

Inductive LogMessage : Type :=
| MalformedNalu (dts offset dataSize : Z)
| NaluSizeExceedsDataSize (dts : Z).

(** The calls of the registered callbacks and of the logger, in order. *)
Inductive Notification : Type :=
| NMediaInfo (mediaInfo : MediaInfo)
| NTrackMetadata (type : string) (metadata : VideoMetadata)
| NDataAvailable (audioTrack videoTrack : Track)
| NLogW (message : LogMessage).

(** The fields of [this].  The callbacks return nothing, so only whether
    each is registered is kept; [notified] is not a field of the source: it
    records the calls made on them. *)
Record H264Demuxer : Type := mkH264Demuxer {
  _onError : bool;
  _onMediaInfo : bool;
  _onTrackMetadata : bool;
  _onDataAvailable : bool;
  _firstParse : bool;
  _dispatch : bool;
  _hasAudio : bool;
  _hasVideo : bool;
  _audioInitialMetadataDispatched : bool;
  _videoInitialMetadataDispatched : bool;
  _mediaInfo : MediaInfo;
  _videoMetadata : option VideoMetadata;
  _naluLengthSize : Z;
  _timestampBase : Z;
  _timescale : Z;
  _duration : Z;
  _referenceFrameRate : FrameRate;
  _videoTrack : Track;
  _audioTrack : Track;
  _littleEndian : bool;
  notified : list Notification
}.

Definition set_firstParse (v : bool) (d : H264Demuxer) : H264Demuxer :=
  {| _onError := _onError d; _onMediaInfo := _onMediaInfo d;
     _onTrackMetadata := _onTrackMetadata d;
     _onDataAvailable := _onDataAvailable d; _firstParse := v;
     _dispatch := _dispatch d; _hasAudio := _hasAudio d;
     _hasVideo := _hasVideo d;
     _audioInitialMetadataDispatched := _audioInitialMetadataDispatched d;
     _videoInitialMetadataDispatched := _videoInitialMetadataDispatched d;
     _mediaInfo := _mediaInfo d; _videoMetadata := _videoMetadata d;
     _naluLengthSize := _naluLengthSize d;
     _timestampBase := _timestampBase d; _timescale := _timescale d;
     _duration := _duration d; _referenceFrameRate := _referenceFrameRate d;
     _videoTrack := _videoTrack d; _audioTrack := _audioTrack d;
     _littleEndian := _littleEndian d; notified := notified d |}.

Definition set_hasVideo (v : bool) (d : H264Demuxer) : H264Demuxer :=
  {| _onError := _onError d; _onMediaInfo := _onMediaInfo d;
     _onTrackMetadata := _onTrackMetadata d;
     _onDataAvailable := _onDataAvailable d; _firstParse := _firstParse d;
     _dispatch := _dispatch d; _hasAudio := _hasAudio d; _hasVideo := v;
     _audioInitialMetadataDispatched := _audioInitialMetadataDispatched d;
     _videoInitialMetadataDispatched := _videoInitialMetadataDispatched d;
     _mediaInfo := _mediaInfo d; _videoMetadata := _videoMetadata d;
     _naluLengthSize := _naluLengthSize d;
     _timestampBase := _timestampBase d; _timescale := _timescale d;
     _duration := _duration d; _referenceFrameRate := _referenceFrameRate d;
     _videoTrack := _videoTrack d; _audioTrack := _audioTrack d;
     _littleEndian := _littleEndian d; notified := notified d |}.

Definition set_mediaInfo (v : MediaInfo) (d : H264Demuxer) : H264Demuxer :=
  {| _onError := _onError d; _onMediaInfo := _onMediaInfo d;
     _onTrackMetadata := _onTrackMetadata d;
     _onDataAvailable := _onDataAvailable d; _firstParse := _firstParse d;
     _dispatch := _dispatch d; _hasAudio := _hasAudio d;
     _hasVideo := _hasVideo d;
     _audioInitialMetadataDispatched := _audioInitialMetadataDispatched d;
     _videoInitialMetadataDispatched := _videoInitialMetadataDispatched d;
     _mediaInfo := v; _videoMetadata := _videoMetadata d;
     _naluLengthSize := _naluLengthSize d;
     _timestampBase := _timestampBase d; _timescale := _timescale d;
     _duration := _duration d; _referenceFrameRate := _referenceFrameRate d;
     _videoTrack := _videoTrack d; _audioTrack := _audioTrack d;
     _littleEndian := _littleEndian d; notified := notified d |}.

Definition set_videoMetadata (v : option VideoMetadata) (d : H264Demuxer) : H264Demuxer :=
  {| _onError := _onError d; _onMediaInfo := _onMediaInfo d;
     _onTrackMetadata := _onTrackMetadata d;
     _onDataAvailable := _onDataAvailable d; _firstParse := _firstParse d;
     _dispatch := _dispatch d; _hasAudio := _hasAudio d;
     _hasVideo := _hasVideo d;
     _audioInitialMetadataDispatched := _audioInitialMetadataDispatched d;
     _videoInitialMetadataDispatched := _videoInitialMetadataDispatched d;
     _mediaInfo := _mediaInfo d; _videoMetadata := v;
     _naluLengthSize := _naluLengthSize d;
     _timestampBase := _timestampBase d; _timescale := _timescale d;
     _duration := _duration d; _referenceFrameRate := _referenceFrameRate d;
     _videoTrack := _videoTrack d; _audioTrack := _audioTrack d;
     _littleEndian := _littleEndian d; notified := notified d |}.

Definition set_videoTrack (v : Track) (d : H264Demuxer) : H264Demuxer :=
  {| _onError := _onError d; _onMediaInfo := _onMediaInfo d;
     _onTrackMetadata := _onTrackMetadata d;
     _onDataAvailable := _onDataAvailable d; _firstParse := _firstParse d;
     _dispatch := _dispatch d; _hasAudio := _hasAudio d;
     _hasVideo := _hasVideo d;
     _audioInitialMetadataDispatched := _audioInitialMetadataDispatched d;
     _videoInitialMetadataDispatched := _videoInitialMetadataDispatched d;
     _mediaInfo := _mediaInfo d; _videoMetadata := _videoMetadata d;
     _naluLengthSize := _naluLengthSize d;
     _timestampBase := _timestampBase d; _timescale := _timescale d;
     _duration := _duration d; _referenceFrameRate := _referenceFrameRate d;
     _videoTrack := v; _audioTrack := _audioTrack d;
     _littleEndian := _littleEndian d; notified := notified d |}.

Definition set_notified (v : list Notification) (d : H264Demuxer) : H264Demuxer :=
  {| _onError := _onError d; _onMediaInfo := _onMediaInfo d;
     _onTrackMetadata := _onTrackMetadata d;
     _onDataAvailable := _onDataAvailable d; _firstParse := _firstParse d;
     _dispatch := _dispatch d; _hasAudio := _hasAudio d;
     _hasVideo := _hasVideo d;
     _audioInitialMetadataDispatched := _audioInitialMetadataDispatched d;
     _videoInitialMetadataDispatched := _videoInitialMetadataDispatched d;
     _mediaInfo := _mediaInfo d; _videoMetadata := _videoMetadata d;
     _naluLengthSize := _naluLengthSize d;
     _timestampBase := _timestampBase d; _timescale := _timescale d;
     _duration := _duration d; _referenceFrameRate := _referenceFrameRate d;
     _videoTrack := _videoTrack d; _audioTrack := _audioTrack d;
     _littleEndian := _littleEndian d; notified := v |}.

Definition MD : Type -> Type := M H264Demuxer.

Definition notify (n : Notification) : MD unit :=
  modify (fun d => set_notified (notified d ++ [n]) d).

(** Line 305 of the source calls [this._parseAVCVideoPacket] with arguments
    computed from [dataOffset], [dataSize], [tagTimestamp], [tagPosition]
    and [frameType].  The class defines no such method and the five names
    are declared nowhere in the module, so what the line does is decided
    where the code runs: each name is looked up in the global scope
    ([None]: unbound), and the method on the object ([None]: undefined). *)
Record Host : Type := mkHost {
  g_dataOffset : option Z;
  g_dataSize : option Z;
  g_tagTimestamp : option Z;
  g_tagPosition : option Z;
  g_frameType : option Z;
  h_parseAVCVideoPacket : option (list byte -> Z -> Z -> Z -> Z -> Z -> MD unit)
}.

(** The class as it is written, in a scope that binds none of the names. *)
Definition plain_host : Host :=
  {| g_dataOffset := None; g_dataSize := None; g_tagTimestamp := None;
     g_tagPosition := None; g_frameType := None;
     h_parseAVCVideoPacket := None |}.

(** ** Construction *)

Definition MediaInfo_new : MediaInfo :=
  {| mi_hasAudio := None; mi_hasVideo := None; mi_duration := None;
     mi_video := None |}.

(** [new H264Demuxer(probeData, config)]; [littleEndian] is what the
    constructor's probe of the platform finds. *)
Definition H264Demuxer_new (hasAudioTrack hasVideoTrack littleEndian : bool)
    : H264Demuxer :=
  {| _onError := false; _onMediaInfo := false; _onTrackMetadata := false;
     _onDataAvailable := false;
     _firstParse := true; _dispatch := false;
     _hasAudio := hasAudioTrack; _hasVideo := hasVideoTrack;
     _audioInitialMetadataDispatched := false;
     _videoInitialMetadataDispatched := false;
     _mediaInfo :=
       {| mi_hasAudio := Some hasAudioTrack; mi_hasVideo := Some hasVideoTrack;
          mi_duration := None; mi_video := None |};
     _videoMetadata := None;
     _naluLengthSize := 4; _timestampBase := 0; _timescale := 1000;
     _duration := 0;
     _referenceFrameRate :=
       {| fixed := true; fps := 23976 # 1000; fps_num := 23976; fps_den := 1000 |};
     _videoTrack :=
       {| track_type := "video"; track_id := 1; sequenceNumber := 0;
          samples := []; track_length := 0 |};
     _audioTrack :=
       {| track_type := "audio"; track_id := 2; sequenceNumber := 0;
          samples := []; track_length := 0 |};
     _littleEndian := littleEndian;
     notified := [] |}.

(** The callbacks registered, as the setters [onError], [onMediaInfo],
    [onTrackMetadata] and [onDataAvailable] leave the object. *)
Definition with_callbacks (d : H264Demuxer) : H264Demuxer :=
  {| _onError := true; _onMediaInfo := true; _onTrackMetadata := true;
     _onDataAvailable := true;
     _firstParse := _firstParse d; _dispatch := _dispatch d;
     _hasAudio := _hasAudio d; _hasVideo := _hasVideo d;
     _audioInitialMetadataDispatched := _audioInitialMetadataDispatched d;
     _videoInitialMetadataDispatched := _videoInitialMetadataDispatched d;
     _mediaInfo := _mediaInfo d; _videoMetadata := _videoMetadata d;
     _naluLengthSize := _naluLengthSize d; _timestampBase := _timestampBase d;
     _timescale := _timescale d; _duration := _duration d;
     _referenceFrameRate := _referenceFrameRate d;
     _videoTrack := _videoTrack d; _audioTrack := _audioTrack d;
     _littleEndian := _littleEndian d; notified := notified d |}.

Definition _isInitialMetadataDispatched (d : H264Demuxer) : bool :=
  if _hasAudio d && _hasVideo d
  then _audioInitialMetadataDispatched d && _videoInitialMetadataDispatched d
  else if _hasAudio d && negb (_hasVideo d)
  then _audioInitialMetadataDispatched d
  else if negb (_hasAudio d) && _hasVideo d
  then _videoInitialMetadataDispatched d
  else false.

(** ** Reading a [DataView] *)

Definition byte_at (v : list byte) (i : Z) : Z :=
  byteZ (nth (Z.to_nat i) v x00).

Definition getUint8 (v : list byte) (offset : Z) : MD Z :=
  if window_ok (byteLength v) offset 1 then ret (byte_at v offset)
  else throw RangeError.

Definition getUint32 (v : list byte) (offset : Z) (littleEndian : bool) : MD Z :=
  if window_ok (byteLength v) offset 4 then
    let b0 := byte_at v offset in
    let b1 := byte_at v (offset + 1) in
    let b2 := byte_at v (offset + 2) in
    let b3 := byte_at v (offset + 3) in
    ret (if littleEndian
         then Z.lor (Z.lor (Z.lor b0 (Z.shiftl b1 8)) (Z.shiftl b2 16)) (Z.shiftl b3 24)
         else Z.lor (Z.lor (Z.lor (Z.shiftl b0 24) (Z.shiftl b1 16)) (Z.shiftl b2 8)) b3)
  else throw RangeError.

(** ** The codec string *)

Definition hex_digit (n : Z) : string :=
  String.substring (Z.to_nat n) 1 "0123456789abcdef".

(** [n.toString(16)] of a byte, padded to two digits as the loop does. *)
Definition hex2 (n : Z) : string :=
  let h := if n <? 16 then hex_digit n
           else String.append (hex_digit (n / 16)) (hex_digit (n mod 16)) in
  if (Z.of_nat (String.length h) <? 2) then String.append "0" h else h.

(** The one-character string that holds a double quote. *)
Definition dquote : string := String (Ascii.ascii_of_nat 34) EmptyString.

Fixpoint codec_loop (codecArray : list byte) (j : Z) (n : nat) (codecString : string)
    : MD string :=
  match n with
  | O => ret codecString
  | S n' =>
      match at_index codecArray j with
      | None => throw TypeError
      | Some b => codec_loop codecArray (j + 1) n' (String.append codecString (hex2 (byteZ b)))
      end
  end.

Section Demuxer.

(** [SPSParser.parseSPS]; [None] when it raises. *)
Variable parseSPS : list byte -> option SPSConfig.
Variable host : Host.

Definition _parseAVCSPSVideoData (arrayBuffer : list byte) (offset : Z) : MD unit :=
  (if window_ok (byteLength arrayBuffer) offset (byteLength arrayBuffer - offset)
   then ret tt else throw RangeError) ;;
  let sps := subarray arrayBuffer offset (byteLength arrayBuffer - offset) in
  d <- get ;;
  let track := _videoTrack d in
  meta <-
    match _videoMetadata d with
    | Some meta => ret meta
    | None =>
        modify (set_hasVideo true) ;;
        modify (fun d =>
          set_mediaInfo
            {| mi_hasAudio := mi_hasAudio (_mediaInfo d); mi_hasVideo := Some true;
               mi_duration := mi_duration (_mediaInfo d);
               mi_video := mi_video (_mediaInfo d) |} d) ;;
        let meta :=
          {| meta_type := "video"; meta_id := track_id track;
             meta_timescale := _timescale d; meta_duration := _duration d;
             meta_geometry := None; meta_codec := None |} in
        modify (set_videoMetadata (Some meta)) ;;
        ret meta
    end ;;
  match parseSPS sps with
  | None => throw CollaboratorError
  | Some config =>
      let rate := frame_rate config in
      let frameRate :=
        if negb (fixed rate) || (fps_num rate =? 0) || (fps_den rate =? 0)
        then _referenceFrameRate d else rate in
      let geometry :=
        {| codecWidth := width (codec_size config);
           codecHeight := height (codec_size config);
           presentWidth := width (present_size config);
           presentHeight := height (present_size config);
           profile := profile_string config;
           level := level_string config;
           bitDepth := bit_depth config;
           chromaFormat := chroma_format config;
           sarRatio := sar_ratio config;
           frameRate := frameRate;
           refSampleDuration :=
             (inject_Z (meta_timescale meta)
              * (inject_Z (fps_den frameRate) / inject_Z (fps_num frameRate)))%Q |} in
      let meta :=
        {| meta_type := meta_type meta; meta_id := meta_id meta;
           meta_timescale := meta_timescale meta; meta_duration := meta_duration meta;
           meta_geometry := Some geometry; meta_codec := meta_codec meta |} in
      modify (set_videoMetadata (Some meta)) ;;
      let codecArray := firstn 3 (skipn 1 sps) in
      codecString <- codec_loop codecArray 0 3 "avc1." ;;
      let meta :=
        {| meta_type := meta_type meta; meta_id := meta_id meta;
           meta_timescale := meta_timescale meta; meta_duration := meta_duration meta;
           meta_geometry := meta_geometry meta; meta_codec := Some codecString |} in
      modify (set_videoMetadata (Some meta)) ;;
      d <- get ;;
      let mi :=
        {| mi_hasAudio := mi_hasAudio (_mediaInfo d);
           mi_hasVideo := mi_hasVideo (_mediaInfo d);
           mi_duration := mi_duration (_mediaInfo d);
           mi_video := Some
             {| mi_width := codecWidth geometry;
                mi_height := codecHeight geometry;
                mi_fps := fps frameRate;
                mi_profile := profile geometry;
                mi_level := level geometry;
                mi_refFrames := ref_frames config;
                mi_chromaFormat := chroma_format_string config;
                mi_sarNum := width (sarRatio geometry);
                mi_sarDen := height (sarRatio geometry);
                mi_videoCodec := codecString;
                mi_mimeType :=
                  String.append "video/x-flv; codecs="
                    (String.append dquote (String.append codecString dquote)) |} |} in
      modify (set_mediaInfo mi) ;;
      (if _onMediaInfo d then notify (NMediaInfo mi) else throw TypeError) ;;
      (if _onTrackMetadata d then notify (NTrackMetadata "video" meta)
       else throw TypeError)
  end.


(** The scan of [_parseAVCVideoData]: [Some] when the loop ends or breaks,
    with the units gathered, [None] when the method returns from inside
    the loop; [v] is the [DataView] on the payload. *)
Fixpoint scan_units (fuel : nat) (arrayBuffer v : list byte)
    (dataOffset dataSize lengthSize dts : Z) (le : bool)
    (units : list Unit) (length offset : Z) (keyframe : bool)
    : MD (option (list Unit * Z * bool)) :=
  match fuel with
  | O => hang
  | S fuel' =>
      if offset <? dataSize then
        if dataSize <=? offset + 4 then
          notify (NLogW (MalformedNalu dts offset dataSize)) ;;
          ret (Some (units, length, keyframe))
        else
          naluSize <- getUint32 v offset (negb le) ;;
          let naluSize := if lengthSize =? 3 then Z.shiftr naluSize 8 else naluSize in
          if dataSize - lengthSize <? naluSize then
            notify (NLogW (NaluSizeExceedsDataSize dts)) ;;
            ret None
          else
            header <- getUint8 v (offset + lengthSize) ;;
            let unitType := Z.land header 31 in
            let keyframe := if unitType =? 5 then true else keyframe in
            (if window_ok (byteLength arrayBuffer) (dataOffset + offset)
                          (lengthSize + naluSize)
             then ret tt else throw RangeError) ;;
            let data := subarray arrayBuffer (dataOffset + offset) (lengthSize + naluSize) in
            scan_units fuel' arrayBuffer v dataOffset dataSize lengthSize dts le
              (units ++ [{| unit_type := unitType; unit_data := data |}])
              (length + byteLength data)
              (offset + lengthSize + naluSize)
              keyframe
      else ret (Some (units, length, keyframe))
  end.

Definition _parseAVCVideoData (arrayBuffer : list byte)
    (dataOffset dataSize tagTimestamp tagPosition frameType cts : Z) : MD unit :=
  d <- get ;;
  let le := _littleEndian d in
  (if window_ok (byteLength arrayBuffer) dataOffset dataSize
   then ret tt else throw RangeError) ;;
  let v := subarray arrayBuffer dataOffset dataSize in
  let lengthSize := _naluLengthSize d in
  let dts := _timestampBase d + tagTimestamp in
  let keyframe := frameType =? 1 in
  scanned <- scan_units (S (Z.to_nat dataSize)) arrayBuffer v dataOffset dataSize
                        lengthSize dts le [] 0 0 keyframe ;;
  match scanned with
  | None => ret tt
  | Some (units, length, keyframe) =>
      match units with
      | [] => ret tt
      | _ :: _ =>
          d <- get ;;
          let track := _videoTrack d in
          let avcSample :=
            {| units := units; sample_length := length; isKeyframe := keyframe;
               dts := dts; cts := cts; pts := dts + cts;
               fileposition := if keyframe then Some tagPosition else None |} in
          modify (set_videoTrack
            {| track_type := track_type track; track_id := track_id track;
               sequenceNumber := sequenceNumber track;
               samples := samples track ++ [avcSample];
               track_length := track_length track + length |})
      end
  end.

(** Line 305: the arguments are evaluated from left to right, then the
    method is called. *)
Definition call_parseAVCVideoPacket (arrayBuffer : list byte) : MD unit :=
  match g_dataOffset host, g_dataSize host, g_tagTimestamp host,
        g_tagPosition host, g_frameType host with
  | Some dataOffset, Some dataSize, Some tagTimestamp, Some tagPosition,
    Some frameType =>
      match h_parseAVCVideoPacket host with
      | Some method =>
          method arrayBuffer (dataOffset + 1) (dataSize - 1) tagTimestamp
                 tagPosition frameType
      | None => throw TypeError
      end
  | _, _, _, _, _ => throw ReferenceError
  end.

Definition _parseVideoData (arrayBuffer : list byte) : MD unit :=
  d <- get ;;
  let le := _littleEndian d in
  let v := arrayBuffer in
  timestamp <- getUint32 v 0 (negb le) ;;
  naluHeader <- getUint8 v 4 ;;
  let naluType := Z.land naluHeader 31 in
  (if naluType =? 7 then _parseAVCSPSVideoData arrayBuffer 5 else ret tt) ;;
  call_parseAVCVideoPacket arrayBuffer.

Definition parseChunks (chunk : list byte) (byteStart : Z) : MD Z :=
  d <- get ;;
  if negb (_onError d) || negb (_onMediaInfo d) || negb (_onTrackMetadata d)
     || negb (_onDataAvailable d)
  then throw IllegalStateException
  else
    when (_firstParse d) (modify (set_firstParse false)) ;;
    _parseVideoData chunk ;;
    d <- get ;;
    when (_isInitialMetadataDispatched d)
      (when (_dispatch d
             && (negb (track_length (_audioTrack d) =? 0)
                 || negb (track_length (_videoTrack d) =? 0)))
         (notify (NDataAvailable (_audioTrack d) (_videoTrack d)))) ;;
    ret (byteLength chunk).

(** A session of the demuxer: the chunks it is given, each at its offset. *)
Definition parse_session (chunks : list (list byte * Z)) (d : H264Demuxer)
    : option H264Demuxer :=
  run_all (fun c => parseChunks (fst c) (snd c)) chunks d.

(** ** What the properties speak of *)

(** The four callbacks [parseChunks] asks for are registered. *)
Definition registered (d : H264Demuxer) : bool :=
  _onError d && _onMediaInfo d && _onTrackMetadata d && _onDataAvailable d.

(** The NAL type [_parseVideoData] reads from a chunk: the low five bits of
    the byte after the four timestamp bytes ([None] when the chunk is too
    short to hold it). *)
Definition naluType_of (chunk : list byte) : option Z :=
  if 5 <=? byteLength chunk then Some (Z.land (byte_at chunk 4) 31) else None.

(** A type-7 chunk whose parameter set decodes: the parser accepts the
    bytes after the header, and they hold the three bytes of the codec tag. *)
Definition decodable_sps (chunk : list byte) : Prop :=
  naluType_of chunk = Some 7 /\
  9 <= byteLength chunk /\
  exists config, parseSPS (subarray chunk 5 (byteLength chunk - 5)) = Some config.

(** Whether a chunk is a type-7 frame. *)
Definition is_sps (chunk : list byte) : bool :=
  match naluType_of chunk with
  | Some naluType => naluType =? 7
  | None => false
  end.

(** The calls of [onMediaInfo], of [onTrackMetadata] and of
    [onDataAvailable] among some notifications. *)
Definition media_infos (ns : list Notification) : list Notification :=
  filter (fun n => match n with NMediaInfo _ => true | _ => false end) ns.

Definition track_metadatas (ns : list Notification) : list Notification :=
  filter (fun n => match n with NTrackMetadata _ _ => true | _ => false end) ns.

Definition samples_available (ns : list Notification) : list Notification :=
  filter (fun n => match n with NDataAvailable _ _ => true | _ => false end) ns.

(** The notifications of some parameter sets: for each the media info,
    then the metadata of the video track. *)
Definition sps_notifications (pairs : list (MediaInfo * VideoMetadata))
    : list Notification :=
  flat_map (fun p => [NMediaInfo (fst p); NTrackMetadata "video" (snd p)]) pairs.

End Demuxer.

(** ** The helpers declared above the class *)

(** [ToUint32] and [ToInt32] of a number that holds an integer. *)
Definition ToUint32 (x : Z) : Z := x mod 2 ^ 32.

Definition ToInt32 (x : Z) : Z :=
  let int := x mod 2 ^ 32 in
  if 2 ^ 31 <=? int then int - 2 ^ 32 else int.

(** [a & b], [a | b], [a << n] and [a >>> n]: the operands are converted
    to 32 bits, the shift count is taken modulo 32, and the result is
    signed for all but [>>>]. *)
Definition js_and (a b : Z) : Z := ToInt32 (Z.land (ToInt32 a) (ToInt32 b)).
Definition js_or (a b : Z) : Z := ToInt32 (Z.lor (ToInt32 a) (ToInt32 b)).
Definition js_shl (a n : Z) : Z := ToInt32 (Z.shiftl (ToInt32 a) (ToUint32 n mod 32)).
Definition js_shru (a n : Z) : Z := Z.shiftr (ToUint32 a) (ToUint32 n mod 32).

Definition Swap16 (src : Z) : Z :=
  js_or (js_and (js_shru src 8) 255)
        (js_shl (js_and src 255) 8).

Definition Swap32 (src : Z) : Z :=
  js_or (js_or (js_or (js_shru (js_and src 4278190080) 24)
                      (js_shru (js_and src 16711680) 8))
               (js_shl (js_and src 65280) 8))
        (js_shl (js_and src 255) 24).

(** [array[i]] as an operand of [<<] or [|]: [undefined] converts to 0. *)
Definition element (array : list byte) (i : Z) : Z :=
  match at_index array i with
  | Some b => byteZ b
  | None => 0
  end.

Definition ReadBig32 (array : list byte) (index : Z) : Z :=
  js_or (js_or (js_or (js_shl (element array index) 24)
                      (js_shl (element array (index + 1)) 16))
               (js_shl (element array (index + 2)) 8))
        (element array (index + 3)).

(** ** What the further properties speak of *)

(** The calls of [onDataAvailable] among some notifications. *)
Definition handed_over (ns : list Notification) : list Notification :=
  filter (fun n => match n with NDataAvailable _ _ => true | _ => false end) ns.

(** The object has no [_parseAVCVideoPacket], or the one it has hands the
    payload to [_parseAVCVideoData]. *)
Definition packet_parser_scans (host : Host) : Prop :=
  h_parseAVCVideoPacket host = None \/
  exists cts,
    h_parseAVCVideoPacket host =
    Some (fun arrayBuffer dataOffset dataSize tagTimestamp tagPosition frameType =>
            _parseAVCVideoData arrayBuffer dataOffset dataSize tagTimestamp
                               tagPosition frameType cts).

(** What every method keeps while [_dispatch] is false: the flag itself,
    and the calls of [onDataAvailable] made so far. *)
Definition dispatch_off (d d' : H264Demuxer) : Prop :=
  _dispatch d = false ->
  _dispatch d' = false /\ handed_over (notified d') = handed_over (notified d).

(** The track and the prefix length are those of [d]. *)
Definition same_track (d d' : H264Demuxer) : Prop :=
  _videoTrack d' = _videoTrack d /\ _naluLengthSize d' = _naluLengthSize d.

Definition Zsum (l : list Z) : Z := fold_right Z.add 0 l.

(** The bytes of the units of a sample. *)
Definition units_length (us : list Unit) : Z :=
  Zsum (map (fun u => byteLength (unit_data u)) us).

(** A track whose [length] is the sum of the lengths of its samples, each
    of which has a unit and is as long as its units together. *)
Definition accounted (t : Track) : Prop :=
  track_length t = Zsum (map sample_length (samples t)) /\
  Forall (fun s => units s <> [] /\ sample_length s = units_length (units s))
         (samples t).

Definition byte_of_Z (z : Z) : byte :=
  match Byte.of_N (Z.to_N z) with
  | Some b => b
  | None => x00
  end.

(** The four bytes of a length prefix, the most significant first. *)
Definition be32 (n : Z) : list byte :=
  [byte_of_Z (n / 2 ^ 24 mod 256); byte_of_Z (n / 2 ^ 16 mod 256);
   byte_of_Z (n / 2 ^ 8 mod 256); byte_of_Z (n mod 256)].

(** The four bytes of a length prefix in the order the scan reads them
    with [getUint32(offset, !le)]: the most significant first when [le] is
    true, the least significant first when it is false. *)
Definition prefix32 (le : bool) (n : Z) : list byte :=
  if le then be32 n else rev (be32 n).

(** A frame payload: each unit behind the prefix that holds its length. *)
Definition frame_of (le : bool) (nalus : list (list byte)) : list byte :=
  flat_map (fun nalu => prefix32 le (byteLength nalu) ++ nalu) nalus.

(** The unit the scan makes of a NAL unit: its type is in the low five
    bits of its first byte, its data keeps the prefix. *)
Definition unit_of (le : bool) (nalu : list byte) : Unit :=
  {| unit_type := Z.land (byte_at nalu 0) 31;
     unit_data := prefix32 le (byteLength nalu) ++ nalu |}.

(** The value of a lower-case hexadecimal digit. *)
Definition hex_value (c : Ascii.ascii) : option Z :=
  let n := Z.of_nat (Ascii.nat_of_ascii c) in
  if (48 <=? n) && (n <=? 57) then Some (n - 48)
  else if (97 <=? n) && (n <=? 102) then Some (n - 87)
  else None.

Definition unhex2 (s : string) : option Z :=
  match s with
  | String hi (String lo EmptyString) =>
      match hex_value hi, hex_value lo with
      | Some h, Some l => Some (16 * h + l)
      | _, _ => None
      end
  | _ => None
  end.

(** The bit of the argument that [Swap32] moves to bit [m] of its result. *)
Definition swap_index (m : Z) : Z :=
  if m <? 8 then m + 24 else if m <? 16 then m + 8
  else if m <? 24 then m - 8 else m - 24.

(** Whether a parsed frame rate is taken as it is: fixed, with a numerator
    and a denominator that are not 0. *)
Definition usable (rate : FrameRate) : bool :=
  fixed rate && negb (fps_num rate =? 0) && negb (fps_den rate =? 0).

End H264.

(** * Example inputs *)

Module DemuxExamples.
Import H264.

(** A stand-in for the SPS parser: it accepts any parameter set of four
    bytes or more and reports a 1280x720 stream at a fixed 25 fps. *)
Definition sample_parseSPS (sps : list byte) : option SPSConfig :=
  if 4 <=? byteLength sps then
    Some {| codec_size := {| width := 1280; height := 720 |};
            present_size := {| width := 1280; height := 720 |};
            profile_string := "Baseline"; level_string := "3.0";
            bit_depth := 8; chroma_format := 420;
            chroma_format_string := "4:2:0";
            sar_ratio := {| width := 1; height := 1 |};
            frame_rate := {| fixed := true; fps := 25; fps_num := 25000;
                             fps_den := 1000 |};
            ref_frames := 1 |}
  else None.

(** A demuxer as [probe] and the constructor make it on a little-endian
    platform, with its four callbacks registered. *)
Definition fresh : H264Demuxer := with_callbacks (H264Demuxer_new false true true).

(** Four timestamp bytes, the header 0x67 (type 7), four bytes of SPS. *)
Definition sps_chunk : list byte :=
  [x00; x00; x00; x00; x67; x42; x00; x1e; xab].

(** Four timestamp bytes, the header 0x65 (type 5), a payload. *)
Definition idr_chunk : list byte :=
  [x00; x00; x00; x28; x65; x88; x84; x00].

(** The parameter set, the same parameter set again, then the key frame. *)
Definition repeated_sps_session : list (list byte * Z) :=
  [(sps_chunk, 0); (sps_chunk, 9); (idr_chunk, 18)].

(** A host that binds the five names and gives the object a
    [_parseAVCVideoPacket] that hands the payload to [_parseAVCVideoData]. *)
Definition scanning_host : Host :=
  {| g_dataOffset := Some 4; g_dataSize := Some 7; g_tagTimestamp := Some 0;
     g_tagPosition := Some 0; g_frameType := Some 0;
     h_parseAVCVideoPacket := Some (fun arrayBuffer dataOffset dataSize
                                        tagTimestamp tagPosition frameType =>
       _parseAVCVideoData arrayBuffer dataOffset dataSize tagTimestamp
                          tagPosition frameType 0) |}.


(** A payload of twenty bytes: a unit of four bytes, then a unit that
    declares sixteen bytes where eight are left. *)
Definition overrun_frame : list byte :=
  [x00; x00; x00; x04; x41; x01; x02; x03;
   x00; x00; x00; x10; x41; x00; x00; x00; x00; x00; x00; x00].

(** The same payload followed by eight bytes of whatever comes next. *)
Definition overrun_frame_in_chunk : list byte :=
  overrun_frame ++ [xaa; xaa; xaa; xaa; xaa; xaa; xaa; xaa].


(** Four timestamp bytes, the header 0x41, then a payload of six bytes:
    one unit of two bytes, of type 5, behind its prefix. *)
Definition idr_frame_chunk : list byte :=
  [x00; x00; x00; x00; x41; x00; x00; x00; x02; x65; x88].

(** Four timestamp bytes and nothing else. *)
Definition timestamp_only : list byte := [x00; x00; x00; x00].

(** Two NAL units, of types 5 and 1. *)
Definition two_nalus : list (list byte) := [[x65; x88]; [x41]].

(** Four bytes whose big-endian reading has its top bit set. *)
Definition high_word : list byte := [x80; x01; x02; x03].

End DemuxExamples.

Module IOExamples.
Import IO.

(** A consumer without state that takes every byte it is given. *)
Definition eager (cs : unit) (data : list byte) (byteStart : Z) : Res unit Z :=
  Ok (byteLength data) cs.

(** A consumer without state that takes half of what it is given. *)
Definition halving (cs : unit) (data : list byte) (byteStart : Z) : Res unit Z :=
  Ok (byteLength data / 2) cs.

Definition default_config : Config :=
  {| isLive := false; stashInitialSize := None; enableStashBuffer := None |}.

Definition config_64k : Config :=
  {| isLive := false; stashInitialSize := Some (64 * 1024);
     enableStashBuffer := None |}.

Definition stream_loader : LoaderClass := {| needStashBuffer := true |}.

(** A controller as the constructor makes it for a source of unknown
    length, with its callbacks registered. *)
Definition listening : IOController :=
  with_callbacks tt (IOController_new None default_config stream_loader).

(** The same for a source of 100000 bytes. *)
Definition listening_100000 : IOController :=
  with_callbacks tt (IOController_new (Some 100000) default_config stream_loader).

(** The same with an initial stash size of 64 KiB. *)
Definition listening_64k : IOController :=
  with_callbacks tt (IOController_new None config_64k stream_loader).

(** The object after a session, when the session does not hang. *)
Definition after (consume : unit -> list byte -> Z -> Res unit Z) (ops : list Op)
    (s : IOController) : IOController :=
  match run consume ops s with
  | Some s' => s'
  | None => s
  end.

Definition chunk_of (b : byte) (n : Z) : list byte := repeat b (Z.to_nat n).

(** Three chunks of 40 KiB at a measured 70 KB/s, which is the 64 KB/s tier
    and gives a target of 64 KiB. *)
Definition three_chunks : list Op :=
  [OpOpen None;
   OpChunkArrival (chunk_of x01 40960) 0 40960 (70 # 1);
   OpChunkArrival (chunk_of x02 40960) 40960 81920 (70 # 1);
   OpChunkArrival (chunk_of x03 40960) 81920 122880 (70 # 1)].

(** A loader that delivers one empty chunk and completes. *)
Definition empty_delivery : list Op :=
  [OpOpen None; OpChunkArrival [] 0 0 (0 # 1); OpComplete 0 (-1)].

(** Four bytes received from offset 0 and still in the stash. *)
Definition four_bytes : list Op :=
  [OpOpen None; OpChunkArrival [x01; x02; x03; x04] 0 4 (0 # 1)].

(** A session that opens at offset 1000 and has five bytes in the stash. *)
Definition five_bytes_from_1000 : list Op :=
  [OpOpen (Some 1000); OpChunkArrival [x01; x02; x03; x04; x05] 1000 5 (0 # 1)].

(** An arrival at a measured 4096 KB/s, then a pause and a resume. *)
Definition fast_arrival_pause_resume : list Op :=
  [OpChunkArrival [x06] 1005 6 (4096 # 1); OpPause; OpResume].


(** A consumer that raises a RangeError whatever it is given. *)
Definition refusing (cs : unit) (data : list byte) (byteStart : Z) : Res unit Z :=
  Throw RangeError cs.

Definition config_no_stash : Config :=
  {| isLive := false; stashInitialSize := None;
     enableStashBuffer := Some false |}.

(** An initial stash size of 4 MiB, above the 3 MiB the buffer starts with. *)
Definition config_4m : Config :=
  {| isLive := false; stashInitialSize := Some (4 * 1024 * 1024);
     enableStashBuffer := None |}.

(** A controller with the stash disabled, its callbacks registered. *)
Definition listening_no_stash : IOController :=
  with_callbacks tt (IOController_new None config_no_stash stream_loader).

(** A controller for a source of 4 bytes. *)
Definition listening_4 : IOController :=
  with_callbacks tt (IOController_new (Some 4) default_config stream_loader).


(** A seek to offset 10, then the content length of the range request. *)
Definition seek_then_content_length : list Op :=
  [OpSeek 10; OpContentLengthKnown 90].

(** Four bytes from offset 0, then a seek to offset 100. *)
Definition arrival_then_seek : list Op :=
  [OpChunkArrival [x01; x02; x03; x04] 0 4 (0 # 1); OpSeek 100].

End IOExamples.

(** * Properties *)

(** ** The monad *)

Lemma bind_Ok {S A B} (m : M S A) (k : A -> M S B) s a s' :
  m s = Ok a s' -> bind m k s = k a s'.
Proof. intros H. unfold bind. now rewrite H. Qed.

Lemma bind_Throw {S A B} (m : M S A) (k : A -> M S B) s e s' :
  m s = Throw e s' -> bind m k s = Throw e s'.
Proof. intros H. unfold bind. now rewrite H. Qed.

Lemma bind_Ok_inv {S A B} (m : M S A) (k : A -> M S B) s b s2 :
  bind m k s = Ok b s2 -> exists a s1, m s = Ok a s1 /\ k a s1 = Ok b s2.
Proof.
  unfold bind. destruct (m s) as [a s1 | e s1 |]; intros H; try discriminate.
  now exists a, s1.
Qed.

Lemma run_all_app {S A Op} (exec : Op -> M S A) (l1 l2 : list Op) (s : S) :
  run_all exec (l1 ++ l2) s =
  match run_all exec l1 s with
  | Some s' => run_all exec l2 s'
  | None => None
  end.
Proof.
  revert s. induction l1 as [| op l1 IH]; intros s; simpl; [reflexivity |].
  destruct (state_of (exec op s)); [apply IH | reflexivity].
Qed.

(** ** The demuxer *)

Section DemuxerFacts.

Import H264.

Variable parseSPS : list byte -> option SPSConfig.

Lemma not_registered_iff d :
  negb (_onError d) || negb (_onMediaInfo d) || negb (_onTrackMetadata d)
    || negb (_onDataAvailable d) = negb (registered d).
Proof.
  unfold registered.
  destruct (_onError d), (_onMediaInfo d), (_onTrackMetadata d),
    (_onDataAvailable d); reflexivity.
Qed.



Lemma byteLength_nonneg (l : list byte) : 0 <= byteLength l.
Proof. unfold byteLength. lia. Qed.

Lemma byteLength_skipn (l : list byte) (n : Z) :
  0 <= n <= byteLength l ->
  byteLength (skipn (Z.to_nat n) l) = byteLength l - n.
Proof. unfold byteLength. intros H. rewrite length_skipn. lia. Qed.

Lemma byteLength_firstn (l : list byte) (n : Z) :
  0 <= n <= byteLength l ->
  byteLength (firstn (Z.to_nat n) l) = n.
Proof. unfold byteLength. intros H. rewrite length_firstn. lia. Qed.

Lemma byteLength_app (l1 l2 : list byte) :
  byteLength (l1 ++ l2) = byteLength l1 + byteLength l2.
Proof. unfold byteLength. rewrite length_app. lia. Qed.

Lemma codec_loop_Ok (codecArray : list byte) (n : nat) :
  forall (j : Z) (codecString : string) (d : H264Demuxer),
    0 <= j -> j + Z.of_nat n <= byteLength codecArray ->
    exists codec, codec_loop codecArray j n codecString d = Ok codec d.
Proof.
  induction n as [| n IH]; intros j codecString d Hj Hn; simpl.
  - now exists codecString.
  - unfold at_index. destruct (j <? 0) eqn:E; [lia |].
    destruct (nth_error codecArray (Z.to_nat j)) as [b |] eqn:Eb.
    + apply IH; lia.
    + apply nth_error_None in Eb. unfold byteLength in Hn. lia.
Qed.

Lemma call_parseAVCVideoPacket_undefined host arrayBuffer d :
  h_parseAVCVideoPacket host = None ->
  exists e, call_parseAVCVideoPacket host arrayBuffer d = Throw e d.
Proof.
  intros H. unfold call_parseAVCVideoPacket. rewrite H.
  destruct (g_dataOffset host), (g_dataSize host), (g_tagTimestamp host),
    (g_tagPosition host), (g_frameType host); eexists; reflexivity.
Qed.

(** A decodable parameter set calls [onMediaInfo], then [onTrackMetadata],
    once each, and nothing else. *)
Lemma _parseAVCSPSVideoData_notifies (chunk : list byte) (d : H264Demuxer) :
  registered d = true ->
  decodable_sps parseSPS chunk ->
  exists d' mi meta,
    _parseAVCSPSVideoData parseSPS chunk 5 d = Ok tt d' /\
    notified d' = notified d ++ [NMediaInfo mi; NTrackMetadata "video" meta] /\
    registered d' = true.
Proof.
  intros Hreg (Hty & Hlen & config & Hsps).
  assert (Hreg' := Hreg). unfold registered in Hreg'.
  apply andb_prop in Hreg'. destruct Hreg' as (Hreg' & Hda).
  apply andb_prop in Hreg'. destruct Hreg' as (Hreg' & Htm).
  apply andb_prop in Hreg'. destruct Hreg' as (Herr & Hmi).
  unfold _parseAVCSPSVideoData.
  assert (Hw : window_ok (byteLength chunk) 5 (byteLength chunk - 5) = true).
  { unfold window_ok. repeat (apply andb_true_intro; split); lia. }
  rewrite Hsps.
  set (sps := subarray chunk 5 (byteLength chunk - 5)).
  assert (Hcodec : forall d0, exists codec,
             codec_loop (firstn 3 (skipn 1 sps)) 0 3 "avc1." d0 = Ok codec d0).
  { intros d0. apply codec_loop_Ok; [lia |].
    unfold sps, subarray, byteLength.
    rewrite length_firstn, length_skipn, length_firstn, length_skipn.
    unfold byteLength in Hlen. lia. }
  unfold bind at 1. rewrite Hw. cbn [ret].
  unfold bind at 1. cbn [get].
  destruct (_videoMetadata d) as [meta0 |] eqn:Emeta.
  - unfold bind at 1. cbn [ret].
    unfold bind at 1. cbn [modify].
    unfold bind at 1.
    match goal with |- context [codec_loop _ _ _ _ ?d0] =>
      destruct (Hcodec d0) as (codec & Hc); rewrite Hc end.
    cbn. rewrite Hmi, Htm. cbn.
    do 3 eexists. split; [reflexivity |]. cbn.
    split; [now rewrite <- app_assoc | exact Hreg].
  - do 5 (unfold bind at 1; cbn [modify ret]).
    unfold bind at 1.
    match goal with |- context [codec_loop _ _ _ _ ?d0] =>
      destruct (Hcodec d0) as (codec & Hc); rewrite Hc end.
    cbn. rewrite Hmi, Htm. cbn.
    do 3 eexists. split; [reflexivity |]. cbn.
    split; [now rewrite <- app_assoc | exact Hreg].
Qed.

Lemma registered_set_firstParse v d :
  registered (set_firstParse v d) = registered d.
Proof. reflexivity. Qed.

(** With no [_parseAVCVideoPacket] on the object, a chunk that is not of
    type 7 makes [parseChunks] raise before it has called anything. *)
Lemma parseChunks_other_chunk host chunk byteStart d :
  registered d = true ->
  h_parseAVCVideoPacket host = None ->
  naluType_of chunk <> Some 7 ->
  exists e d',
    parseChunks parseSPS host chunk byteStart d = Throw e d' /\
    notified d' = notified d /\ registered d' = true.
Proof.
  intros Hreg Hhost Hty.
  unfold parseChunks. unfold bind at 1. cbn [get].
  rewrite not_registered_iff, Hreg. cbn [negb].
  set (d1 := if _firstParse d then set_firstParse false d else d).
  assert (H1 : when (_firstParse d) (modify (set_firstParse false)) d = Ok tt d1).
  { unfold d1. now destruct (_firstParse d). }
  assert (Hn1 : notified d1 = notified d) by (unfold d1; now destruct (_firstParse d)).
  assert (Hr1 : registered d1 = true) by (unfold d1; now destruct (_firstParse d)).
  unfold bind at 1. rewrite H1.
  unfold bind at 1. unfold _parseVideoData.
  unfold bind at 1. cbn [get].
  unfold bind at 1. unfold getUint32.
  destruct (window_ok (byteLength chunk) 0 4) eqn:E4;
    [| now exists RangeError, d1].
  cbn [ret]. unfold bind at 1. unfold getUint8.
  destruct (window_ok (byteLength chunk) 4 1) eqn:E1;
    [| now exists RangeError, d1].
  cbn [ret].
  assert (Hne : (Z.land (byte_at chunk 4) 31 =? 7) = false).
  { apply Z.eqb_neq. intros E. apply Hty. unfold naluType_of.
    unfold window_ok in E1.
    apply andb_prop in E1. destruct E1 as (_ & E1).
    apply Z.leb_le in E1.
    destruct (5 <=? byteLength chunk) eqn:E5; [now rewrite E | ].
    apply Z.leb_gt in E5. lia. }
  rewrite Hne. unfold bind at 1. cbn [ret].
  destruct (call_parseAVCVideoPacket_undefined host chunk d1 Hhost) as (e & He).
  rewrite He. now exists e, d1.
Qed.

(** With no [_parseAVCVideoPacket] on the object, a decodable type-7 chunk
    makes [parseChunks] notify the media info and the track metadata, and
    then raise. *)
Lemma parseChunks_sps_chunk host chunk byteStart d :
  registered d = true ->
  h_parseAVCVideoPacket host = None ->
  decodable_sps parseSPS chunk ->
  exists e d' mi meta,
    parseChunks parseSPS host chunk byteStart d = Throw e d' /\
    notified d' = notified d ++ [NMediaInfo mi; NTrackMetadata "video" meta] /\
    registered d' = true.
Proof.
  intros Hreg Hhost Hsps.
  assert (Hsps' := Hsps). destruct Hsps' as (Hty & Hlen & _).
  unfold parseChunks. unfold bind at 1. cbn [get].
  rewrite not_registered_iff, Hreg. cbn [negb].
  set (d1 := if _firstParse d then set_firstParse false d else d).
  assert (H1 : when (_firstParse d) (modify (set_firstParse false)) d = Ok tt d1).
  { unfold d1. now destruct (_firstParse d). }
  assert (Hn1 : notified d1 = notified d) by (unfold d1; now destruct (_firstParse d)).
  assert (Hr1 : registered d1 = true) by (unfold d1; now destruct (_firstParse d)).
  unfold bind at 1. rewrite H1.
  unfold bind at 1. unfold _parseVideoData.
  unfold bind at 1. cbn [get].
  unfold bind at 1. unfold getUint32.
  assert (E4 : window_ok (byteLength chunk) 0 4 = true).
  { unfold window_ok. repeat (apply andb_true_intro; split); lia. }
  assert (E1 : window_ok (byteLength chunk) 4 1 = true).
  { unfold window_ok. repeat (apply andb_true_intro; split); lia. }
  rewrite E4. cbn [ret]. unfold bind at 1. unfold getUint8. rewrite E1. cbn [ret].
  assert (He7 : (Z.land (byte_at chunk 4) 31 =? 7) = true).
  { unfold naluType_of in Hty.
    destruct (5 <=? byteLength chunk); [| discriminate].
    inversion Hty as [E]. rewrite E. reflexivity. }
  rewrite He7.
  destruct (_parseAVCSPSVideoData_notifies chunk d1 Hr1 Hsps)
    as (d2 & mi & meta & Hrun & Hn2 & Hr2).
  unfold bind at 1. rewrite Hrun.
  destruct (call_parseAVCVideoPacket_undefined host chunk d2 Hhost) as (e & He).
  rewrite He. exists e, d2, mi, meta.
  repeat split; [now rewrite Hn2, Hn1 | exact Hr2].
Qed.

(** A run of chunks none of which is of type 7 notifies nothing. *)
Lemma parse_session_other_chunks host chunks :
  h_parseAVCVideoPacket host = None ->
  Forall (fun c => naluType_of (fst c) <> Some 7) chunks ->
  forall d,
    registered d = true ->
    exists d',
      parse_session parseSPS host chunks d = Some d' /\
      notified d' = notified d /\ registered d' = true.
Proof.
  intros Hhost Hall. induction Hall as [| c chunks Hc _ IH]; intros d Hreg.
  - now exists d.
  - destruct (parseChunks_other_chunk host (fst c) (snd c) d Hreg Hhost Hc)
      as (e & d1 & Hrun & Hn1 & Hr1).
    destruct (IH d1 Hr1) as (d2 & Hrest & Hn2 & Hr2).
    exists d2. unfold parse_session in *. cbn [run_all].
    rewrite Hrun. cbn [state_of]. rewrite Hrest.
    repeat split; [congruence | exact Hr2].
Qed.

Lemma sps_notifications_app (l1 l2 : list (MediaInfo * VideoMetadata)) :
  sps_notifications (l1 ++ l2) = sps_notifications l1 ++ sps_notifications l2.
Proof. unfold sps_notifications. apply flat_map_app. Qed.

Lemma sps_notifications_counts (pairs : list (MediaInfo * VideoMetadata)) :
  List.length (media_infos (sps_notifications pairs)) = List.length pairs /\
  List.length (track_metadatas (sps_notifications pairs)) = List.length pairs /\
  samples_available (sps_notifications pairs) = [].
Proof.
  unfold media_infos, track_metadatas, samples_available, sps_notifications.
  induction pairs as [| p pairs (IH1 & IH2 & IH3)]; [repeat split |].
  cbn [flat_map app filter List.length]. rewrite IH1, IH2, IH3. repeat split.
Qed.

(** C4: in a session of the class as it is written (no
    [_parseAVCVideoPacket] on the object) in which every type-7 frame
    decodes, each type-7 frame makes the demuxer call [onMediaInfo] and then
    [onTrackMetadata] for the video track, and nothing else is notified:
    the notifications of the session are one such pair for each type-7
    frame, one pair when there is one frame and two when it is repeated.
    [onDataAvailable] is not called at all, so no samples are handed over
    before, between or after the pairs. *)
Theorem sps_session_notifies_media_info_then_metadata :
  forall (host : Host) (chunks : list (list byte * Z)) (d : H264Demuxer),
    h_parseAVCVideoPacket host = None ->
    registered d = true ->
    Forall (fun c => is_sps (fst c) = true -> decodable_sps parseSPS (fst c)) chunks ->
    exists d' pairs,
      parse_session parseSPS host chunks d = Some d' /\
      notified d' = notified d ++ sps_notifications pairs /\
      List.length pairs = List.length (filter (fun c => is_sps (fst c)) chunks) /\
      List.length (media_infos (notified d'))
      = (List.length (media_infos (notified d)) + List.length pairs)%nat /\
      List.length (track_metadatas (notified d'))
      = (List.length (track_metadatas (notified d)) + List.length pairs)%nat /\
      samples_available (notified d') = samples_available (notified d).
Proof.
  intros host chunks d Hhost Hreg Hall.
  assert (H : exists d' pairs,
             parse_session parseSPS host chunks d = Some d' /\
             notified d' = notified d ++ sps_notifications pairs /\
             List.length pairs
             = List.length (filter (fun c => is_sps (fst c)) chunks)).
  { revert d Hreg. induction Hall as [| c chunks Hc _ IH]; intros d Hreg.
    - exists d, []. cbn. now rewrite app_nil_r.
    - unfold parse_session in *. cbn [run_all filter].
      destruct (is_sps (fst c)) eqn:Esps.
      + destruct (parseChunks_sps_chunk host (fst c) (snd c) d Hreg Hhost (Hc eq_refl))
          as (e & d1 & mi & meta & Hrun & Hn1 & Hr1).
        destruct (IH d1 Hr1) as (d2 & pairs & Hrest & Hn2 & Hlen).
        exists d2, ((mi, meta) :: pairs). rewrite Hrun. cbn [state_of].
        split; [exact Hrest |]. split; [| cbn [List.length]; now rewrite Hlen].
        rewrite Hn2, Hn1, <- app_assoc. reflexivity.
      + assert (Hty : naluType_of (fst c) <> Some 7).
        { intros E. unfold is_sps in Esps. rewrite E in Esps. discriminate. }
        destruct (parseChunks_other_chunk host (fst c) (snd c) d Hreg Hhost Hty)
          as (e & d1 & Hrun & Hn1 & Hr1).
        destruct (IH d1 Hr1) as (d2 & pairs & Hrest & Hn2 & Hlen).
        exists d2, pairs. rewrite Hrun. cbn [state_of].
        split; [exact Hrest |]. split; [congruence | exact Hlen]. }
  destruct H as (d' & pairs & Hrun & Hn & Hlen).
  exists d', pairs. split; [exact Hrun |]. split; [exact Hn |]. split; [exact Hlen |].
  destruct (sps_notifications_counts pairs) as (H1 & H2 & H3).
  rewrite Hn. unfold media_infos, track_metadatas, samples_available in *.
  rewrite !filter_app, !length_app, H1, H2, H3, app_nil_r. repeat split.
Qed.

(** C8: a zero-length chunk makes [parseChunks] raise: with the callbacks
    registered it is the RangeError of reading the timestamp from an empty
    buffer, otherwise the IllegalStateException.  It does not return 0. *)
Theorem parseChunks_empty_chunk_raises :
  forall (host : Host) (byteStart : Z) (d : H264Demuxer),
    parseChunks parseSPS host [] byteStart d =
    Throw (if registered d then RangeError else IllegalStateException)
          (if registered d && _firstParse d then set_firstParse false d else d).
Proof.
  intros host byteStart d.
  unfold parseChunks. unfold bind at 1. cbn [get].
  rewrite not_registered_iff.
  destruct (registered d); cbn [negb andb]; [| reflexivity].
  destruct (_firstParse d); reflexivity.
Qed.

End DemuxerFacts.

(** Examples *)

Section DemuxerExamples.

Import H264 DemuxExamples.


(** On the class as it is written every call ends in an exception, so the
    count that [parseChunks] would return never reaches its caller. *)
Lemma parseChunks_never_returns_as_written
    (parseSPS : list byte -> option SPSConfig) host chunk byteStart d :
  h_parseAVCVideoPacket host = None ->
  forall consumed d', parseChunks parseSPS host chunk byteStart d <> Ok consumed d'.
Proof.
  intros Hhost consumed d' H.
  unfold parseChunks in H.
  apply bind_Ok_inv in H. destruct H as (d0 & s0 & _ & H).
  destruct (negb (_onError d0) || negb (_onMediaInfo d0)
            || negb (_onTrackMetadata d0) || negb (_onDataAvailable d0));
    [discriminate |].
  apply bind_Ok_inv in H. destruct H as (? & s1 & _ & H).
  apply bind_Ok_inv in H. destruct H as (? & s2 & H & _).
  unfold _parseVideoData in H.
  repeat (apply bind_Ok_inv in H; destruct H as (? & ? & _ & H)).
  match type of H with call_parseAVCVideoPacket _ _ ?s = _ =>
    destruct (call_parseAVCVideoPacket_undefined host chunk s Hhost) as (e & He) end.
  congruence.
Qed.

Lemma sps_chunk_is_decodable : decodable_sps sample_parseSPS sps_chunk.
Proof. repeat split; [vm_compute; discriminate | eexists; reflexivity]. Qed.

Lemma sps_session_notifies_media_info_then_metadata_witness :
  h_parseAVCVideoPacket plain_host = None /\
  registered fresh = true /\
  Forall (fun c : list byte * Z =>
            is_sps (fst c) = true -> decodable_sps sample_parseSPS (fst c))
         [(sps_chunk, 0); (idr_chunk, 9)] /\
  exists d' pairs,
    parse_session sample_parseSPS plain_host [(sps_chunk, 0); (idr_chunk, 9)] fresh
      = Some d' /\
    notified d' = notified fresh ++ sps_notifications pairs /\
    List.length pairs = 1%nat /\
    List.length (media_infos (notified d')) = (0 + List.length pairs)%nat /\
    List.length (track_metadatas (notified d')) = (0 + List.length pairs)%nat /\
    samples_available (notified d') = [].
Proof.
  assert (H : Forall (fun c : list byte * Z =>
                        is_sps (fst c) = true -> decodable_sps sample_parseSPS (fst c))
                     [(sps_chunk, 0); (idr_chunk, 9)]).
  { constructor; [intros _; exact sps_chunk_is_decodable |].
    constructor; [intros E; discriminate E | constructor]. }
  split; [reflexivity |]. split; [reflexivity |]. split; [exact H |].
  exact (sps_session_notifies_media_info_then_metadata sample_parseSPS plain_host
           [(sps_chunk, 0); (idr_chunk, 9)] fresh eq_refl eq_refl H).
Defined.

(** C4 as the claim has it fails: in [repeated_sps_session] the type-7
    frame decodes and comes before the only type-5 frame, and it comes
    twice; [onMediaInfo] and [onTrackMetadata] are each called twice, not
    once. *)
Lemma repeated_sps_notifies_again_counterexample :
  decodable_sps sample_parseSPS sps_chunk /\
  map (fun c => naluType_of (fst c)) repeated_sps_session
    = [Some 7; Some 7; Some 5] /\
  option_map (fun d => (List.length (media_infos (notified d)),
                        List.length (track_metadatas (notified d)),
                        List.length (samples_available (notified d))))
             (parse_session sample_parseSPS plain_host repeated_sps_session fresh)
    = Some (2%nat, 2%nat, 0%nat) /\
  option_map (fun d => (List.length (media_infos (notified d)),
                        List.length (track_metadatas (notified d))))
             (parse_session sample_parseSPS plain_host repeated_sps_session fresh)
    <> Some (1%nat, 1%nat).
Proof.
  split; [exact sps_chunk_is_decodable |]. split; [reflexivity |].
  split; [reflexivity | discriminate].
Qed.

(** C6: the scan stops on a declared length only when it exceeds the whole
    payload less the prefix.  In [overrun_frame] the second unit declares
    sixteen bytes where eight are left: the scan goes on to build the unit,
    and the typed-array constructor raises a RangeError; when the buffer
    holds more bytes after the payload, the unit is built and runs past the
    payload's end into them. *)
Theorem scan_overruns_remaining_payload :
  _parseAVCVideoData overrun_frame 0 20 0 0 0 0 fresh = Throw RangeError fresh /\
  exists d',
    _parseAVCVideoData overrun_frame_in_chunk 0 20 0 0 0 0 fresh = Ok tt d' /\
    map (fun s => map (fun u => byteLength (unit_data u)) (units s))
        (samples (_videoTrack d')) = [[8; 20]] /\
    notified d' = [].
Proof.
  split; [reflexivity |].
  eexists. split; [lazy; reflexivity |]. split; reflexivity.
Qed.

End DemuxerExamples.

(** ** The controller: what every operation keeps *)

Section Keeps.

Context {S : Type}.
Variable R : S -> S -> Prop.
Hypothesis R_refl : forall s, R s s.
Hypothesis R_trans : forall s1 s2 s3, R s1 s2 -> R s2 s3 -> R s1 s3.

Lemma keeps_ret {A} (a : A) s : keeps R (ret a) s.
Proof. apply R_refl. Qed.

Lemma keeps_throw {A} e s : keeps R (@throw S A e) s.
Proof. apply R_refl. Qed.

Lemma keeps_hang {A} s : keeps R (@hang S A) s.
Proof. exact I. Qed.

Lemma keeps_modify f s : R s (f s) -> keeps R (modify f) s.
Proof. intros H. exact H. Qed.

Lemma keeps_bind {A B} (m : M S A) (k : A -> M S B) s :
  keeps R m s ->
  (forall a s', m s = Ok a s' -> keeps R (k a) s') ->
  keeps R (bind m k) s.
Proof.
  unfold keeps, bind. intros Hm Hk.
  destruct (m s) as [a s1 | e s1 |] eqn:E; [| exact Hm | exact I].
  specialize (Hk a s1 eq_refl).
  destruct (k a s1) as [b s2 | e s2 |]; [| | exact I]; eapply R_trans; eassumption.
Qed.

Lemma keeps_bind_get {B} (k : S -> M S B) s :
  keeps R (k s) s -> keeps R (bind get k) s.
Proof. intros H. exact H. Qed.

Lemma keeps_state_of {A} (m : M S A) s s' :
  keeps R m s -> state_of (m s) = Some s' -> R s s'.
Proof.
  unfold keeps. destruct (m s); simpl; intros H E; inversion E; subst; exact H.
Qed.

Lemma keeps_run_all {A Op} (exec : Op -> M S A) :
  (forall op s, keeps R (exec op) s) ->
  forall ops s s', run_all exec ops s = Some s' -> R s s'.
Proof.
  intros Hexec ops. induction ops as [| op ops IH]; intros s s' H; simpl in H.
  - inversion H. apply R_refl.
  - destruct (state_of (exec op s)) as [s1 |] eqn:E; [| discriminate].
    eapply R_trans; [eapply keeps_state_of; [apply Hexec | exact E] | now apply IH].
Qed.

End Keeps.

Lemma keeps_weaken {S A} (R1 R2 : S -> S -> Prop) (m : M S A) s :
  (forall s', R1 s s' -> R2 s s') -> keeps R1 m s -> keeps R2 m s.
Proof.
  unfold keeps. intros H. destruct (m s); auto.
Qed.

Section ControllerFacts.

Import IO.

Context {CS : Type}.
Variable consume : CS -> list byte -> Z -> Res CS Z.

Abbreviation Ctl := (@IOController CS).

Lemma grows_refl (s : Ctl) : grows s s.
Proof. split; [lia | auto]. Qed.

Lemma grows_trans (s1 s2 s3 : Ctl) : grows s1 s2 -> grows s2 s3 -> grows s1 s3.
Proof. intros (H1 & H2) (H3 & H4). split; [lia | auto]. Qed.

Lemma steady_refl (s : Ctl) : steady s s.
Proof. split; [apply grows_refl | reflexivity]. Qed.

Lemma steady_trans (s1 s2 s3 : Ctl) :
  steady s1 s2 -> steady s2 s3 -> steady s1 s3.
Proof.
  intros (H1 & H2) (H3 & H4). split; [eapply grows_trans; eassumption | congruence].
Qed.

(** *** The doubling loop *)

Lemma expand_loop_exit (fuel : nat) :
  forall n e r, expand_loop fuel n e = Some r -> e <= r + 1024 * 1024 * 1.
Proof.
  induction fuel as [| fuel IH]; intros n e r; cbn [expand_loop];
    destruct (n + 1024 * 1024 * 1 <? e) eqn:E; intros H;
    try discriminate; try (inversion H; subst; apply Z.ltb_ge in E; lia).
  eapply IH; eassumption.
Qed.

Lemma expand_loop_enough (fuel : nat) :
  forall n e, 0 < n -> e <= n * 2 ^ Z.of_nat fuel + 1024 * 1024 * 1 ->
    exists r, expand_loop fuel n e = Some r.
Proof.
  induction fuel as [| fuel IH]; intros n e Hn He; cbn [expand_loop];
    destruct (n + 1024 * 1024 * 1 <? e) eqn:E; try (now eexists).
  - apply Z.ltb_lt in E. simpl in He. lia.
  - apply IH; [lia |].
    rewrite Nat2Z.inj_succ, Z.pow_succ_r in He by lia. lia.
Qed.

(** With a positive [_stashSize] the loop of [_expandBuffer] ends within
    the fuel it is given: the model hangs only where the source does. *)
Lemma expand_loop_terminates (n e : Z) :
  0 < n -> exists r, expand_loop (expand_fuel e) n e = Some r.
Proof.
  intros Hn. apply expand_loop_enough; [exact Hn |].
  unfold expand_fuel. rewrite Z2Nat.id by apply Z.log2_up_nonneg.
  destruct (Z.le_gt_cases e 1) as [He | He].
  - assert (0 < 2 ^ Z.log2_up e) by (apply Z.pow_pos_nonneg; [lia | apply Z.log2_up_nonneg]).
    nia.
  - pose proof (Z.log2_up_spec e He) as (_ & Hs). nia.
Qed.

Lemma keeps_expandBuffer (e : Z) (s : Ctl) :
  _bufferSize s < e -> keeps steady (_expandBuffer e) s.
Proof.
  intros He. unfold keeps, _expandBuffer. unfold bind at 1. cbn [get].
  destruct (expand_loop (expand_fuel e) (_stashSize s) e) as [r |] eqn:El;
    [| exact I].
  apply expand_loop_exit in El.
  destruct (r + 1024 * 1024 * 1 =? _bufferSize s) eqn:Eq; [apply steady_refl |].
  unfold bind at 1.
  destruct (r + 1024 * 1024 * 1 <? 0); [apply steady_refl |].
  cbn [ret]. unfold bind at 1.
  destruct (0 <? _stashUsed s).
  - unfold bind at 1, view.
    destruct (window_ok _ _ _); [| apply steady_refl].
    cbn [ret].
    destruct (byteLength _ <=? _); [| apply steady_refl].
    cbn. repeat split; cbn; try lia.
  - cbn. repeat split; cbn; try lia.
Qed.


(** *** Every method keeps [steady] *)

Ltac steady_modify :=
  apply keeps_modify; repeat split; cbn; solve [lia | tauto | auto].

Ltac steady_step :=
  lazymatch goal with
  | |- keeps _ (ret _) _ => apply (keeps_ret _ steady_refl)
  | |- keeps _ (throw _) _ => apply (keeps_throw _ steady_refl)
  | |- keeps _ hang _ => apply keeps_hang
  | |- keeps _ (bind get _) _ => apply keeps_bind_get; cbv beta
  | |- keeps _ (bind _ _) _ => apply (keeps_bind _ steady_trans); [| intros ? ? _]
  | |- keeps _ (when ?c _) _ => destruct c eqn:?; cbn [when]
  | |- keeps _ (modify _) _ => steady_modify
  | |- keeps _ (_expandBuffer _) _ => apply keeps_expandBuffer; lia
  | |- keeps _ (if ?c then _ else _) _ => destruct c eqn:?
  | |- keeps _ (match ?x with _ => _ end) _ => destruct x eqn:?
  | |- keeps _ _ _ => solve [auto with steady]
  end.

Ltac steady_tac :=
  repeat match goal with
         | H : (_ <? _) = true |- _ => apply Z.ltb_lt in H
         end;
  repeat steady_step.

Create HintDb steady.

Lemma steady_emit e (s : Ctl) : keeps steady (emit e) s.
Proof. unfold emit. steady_tac. Qed.

Hint Resolve steady_emit : steady.

Lemma steady_with_loader {A} (k : Loader -> MC A) (s : Ctl) :
  (forall l s', keeps steady (k l) s') -> keeps steady (with_loader k) s.
Proof. intros H. unfold with_loader. steady_tac. Qed.

Lemma steady_loader_isWorking (s : Ctl) : keeps steady loader_isWorking s.
Proof. apply steady_with_loader. intros. steady_tac. Qed.

Lemma steady_loader_abort (s : Ctl) : keeps steady loader_abort s.
Proof. apply steady_with_loader. intros. steady_tac. Qed.

Lemma steady_loader_destroy (s : Ctl) : keeps steady loader_destroy s.
Proof. apply steady_with_loader. intros. steady_tac. Qed.

Lemma steady_loader_open r (s : Ctl) : keeps steady (loader_open r) s.
Proof. apply steady_with_loader. intros. steady_tac. Qed.

Hint Resolve steady_loader_isWorking steady_loader_abort
  steady_loader_destroy steady_loader_open : steady.

Lemma steady_createLoader (s : Ctl) : keeps steady _createLoader s.
Proof. unfold _createLoader. steady_tac. Qed.

Lemma steady_currentRange (s : Ctl) : keeps steady currentRange s.
Proof. unfold currentRange. steady_tac. Qed.

Hint Resolve steady_createLoader steady_currentRange : steady.

Lemma steady_set_currentRange_to v (s : Ctl) : keeps steady (set_currentRange_to v) s.
Proof. unfold set_currentRange_to. steady_tac. Qed.

Lemma steady_view total off len (s : Ctl) : keeps steady (view total off len) s.
Proof. unfold view. steady_tac. Qed.

Lemma steady_stashArray_set viewLen src at_ (s : Ctl) :
  keeps steady (stashArray_set viewLen src at_) s.
Proof. unfold stashArray_set. steady_tac. Qed.

Lemma steady_call_onDataArrival chunks byteStart (s : Ctl) :
  keeps steady (call_onDataArrival consume chunks byteStart) s.
Proof.
  unfold keeps, call_onDataArrival.
  destruct (_onDataArrival s) as [cs |]; [| apply steady_refl].
  destruct (consume cs chunks byteStart); try exact I; repeat split; cbn; auto; lia.
Qed.

Hint Resolve steady_set_currentRange_to steady_view steady_stashArray_set
  steady_call_onDataArrival : steady.

Lemma steady_dispatchChunks chunks byteStart (s : Ctl) :
  keeps steady (_dispatchChunks consume chunks byteStart) s.
Proof. unfold _dispatchChunks. steady_tac. Qed.

Hint Resolve steady_dispatchChunks : steady.

Lemma steady_adjustStashSize normalized (s : Ctl) :
  keeps steady (_adjustStashSize normalized) s.
Proof. unfold _adjustStashSize. steady_tac. Qed.

Lemma steady_flushStashBuffer dropUnconsumed (s : Ctl) :
  keeps steady (_flushStashBuffer consume dropUnconsumed) s.
Proof. unfold _flushStashBuffer. steady_tac. Qed.

Hint Resolve steady_adjustStashSize steady_flushStashBuffer : steady.

Lemma steady_internalSeek bytes dropUnconsumed (s : Ctl) :
  keeps steady (_internalSeek consume bytes dropUnconsumed) s.
Proof. unfold _internalSeek. steady_tac. Qed.

Hint Resolve steady_internalSeek : steady.

Lemma steady_arrival_direct chunk byteStart (s : Ctl) :
  keeps steady (arrival_direct consume chunk byteStart) s.
Proof. unfold arrival_direct. steady_tac. Qed.

Lemma steady_arrival_merge chunk (s : Ctl) :
  keeps steady (arrival_merge consume chunk) s.
Proof. unfold arrival_merge. steady_tac. Qed.

Lemma steady_arrival_stash chunk (s : Ctl) :
  keeps steady (arrival_stash chunk) s.
Proof. unfold arrival_stash. steady_tac. Qed.

Lemma steady_arrival_flush_then_stash chunk (s : Ctl) :
  keeps steady (arrival_flush_then_stash consume chunk) s.
Proof. unfold arrival_flush_then_stash. steady_tac. Qed.

Lemma steady_arrival_oversized chunk byteStart (s : Ctl) :
  keeps steady (arrival_oversized consume chunk byteStart) s.
Proof. unfold arrival_oversized. steady_tac. Qed.

Hint Resolve steady_arrival_direct steady_arrival_merge steady_arrival_stash
  steady_arrival_flush_then_stash steady_arrival_oversized : steady.

Lemma steady_buffering_policy chunk byteStart (s : Ctl) :
  keeps steady (buffering_policy consume chunk byteStart) s.
Proof. unfold buffering_policy. steady_tac. Qed.

Hint Resolve steady_buffering_policy : steady.


Lemma steady_open optionalFrom (s : Ctl) : keeps steady (open optionalFrom) s.
Proof. unfold open. steady_tac. Qed.

Lemma steady_abort (s : Ctl) : keeps steady abort s.
Proof. unfold abort. steady_tac. Qed.

Lemma steady_pause (s : Ctl) : keeps steady pause s.
Proof. unfold pause. steady_tac. Qed.

Lemma steady_resume (s : Ctl) : keeps steady (resume consume) s.
Proof. unfold resume. steady_tac. Qed.

Lemma steady_seek bytes (s : Ctl) : keeps steady (seek consume bytes) s.
Proof. unfold seek. steady_tac. Qed.

Lemma steady_onContentLengthKnown n (s : Ctl) :
  keeps steady (_onContentLengthKnown n) s.
Proof. unfold _onContentLengthKnown. steady_tac. Qed.

Lemma steady_onURLRedirect url (s : Ctl) : keeps steady (_onURLRedirect url) s.
Proof. unfold _onURLRedirect. steady_tac. Qed.

Lemma steady_onLoaderComplete from_ to_ (s : Ctl) :
  keeps steady (_onLoaderComplete consume from_ to_) s.
Proof. unfold _onLoaderComplete. steady_tac. Qed.

Lemma steady_surface_error type code (s : Ctl) :
  keeps steady (surface_error type code) s.
Proof. unfold surface_error. steady_tac. Qed.

Hint Resolve steady_surface_error : steady.

Lemma steady_onLoaderError type code (s : Ctl) :
  keeps steady (_onLoaderError consume type code) s.
Proof. unfold _onLoaderError. steady_tac. Qed.

(** [_onLoaderChunkArrival] records the offset; the rest of it is [steady]. *)
Lemma onLoaderChunkArrival_records chunk byteStart receivedLength KBps (s s' : Ctl) :
  state_of (_onLoaderChunkArrival consume chunk byteStart receivedLength KBps s)
    = Some s' ->
  grows s s' /\ lastByteStart s' = byteStart.
Proof.
  unfold _onLoaderChunkArrival. unfold bind at 1. cbn [modify].
  set (s1 := set_lastByteStart byteStart s).
  match goal with |- state_of (?m s1) = _ -> _ => assert (H : keeps steady m s1) end.
  { steady_tac. }
  intros E. apply (keeps_state_of _ _ _ _ H) in E.
  destruct E as ((Hsize & Htracked) & Hlast).
  split; [split; [exact Hsize | exact Htracked] | exact Hlast].
Qed.

Lemma grows_exec op (s : Ctl) : keeps grows (exec consume op) s.
Proof.
  destruct op; cbn [exec];
    try (eapply keeps_weaken; [| first
      [ apply steady_open | apply steady_abort | apply steady_pause
      | apply steady_resume | apply steady_seek
      | apply steady_onContentLengthKnown | apply steady_onURLRedirect
      | apply steady_onLoaderComplete | apply steady_onLoaderError ]];
      intros ? (? & _); assumption).
  unfold keeps.
  pose proof (onLoaderChunkArrival_records chunk byteStart receivedLength KBps s) as H.
  destruct (_onLoaderChunkArrival consume chunk byteStart receivedLength KBps s);
    try exact I; apply (H _ eq_refl).
Qed.


(** C2: along a session the stash buffer is never replaced by a smaller
    one: its length at any point of the session is at most its length at
    any later point, whatever the operations in between (the calls of the
    user, the arrivals with their measured rates, the completions and the
    errors of the loader) and whatever the consumer reports. *)
Theorem stash_capacity_never_shrinks :
  forall (earlier later : list Op) (s s1 s2 : Ctl),
    buffer_tracked s ->
    run consume earlier s = Some s1 ->
    run consume later s1 = Some s2 ->
    ab_byteLength (_stashBuffer s1) <= ab_byteLength (_stashBuffer s2) /\
    _bufferSize s1 <= _bufferSize s2.
Proof.
  intros earlier later s s1 s2 Htracked H1 H2.
  assert (G : forall ops a b, run consume ops a = Some b -> grows a b).
  { intros ops a b. unfold run.
    apply (keeps_run_all (@grows CS) grows_refl grows_trans (exec consume)).
    intros op x. apply grows_exec. }
  destruct (G _ _ _ H1) as (_ & T1). specialize (T1 Htracked).
  destruct (G _ _ _ H2) as (Hsize & T2). specialize (T2 T1).
  unfold buffer_tracked in *. split; [rewrite T1, T2 |]; exact Hsize.
Qed.

(** *** Pause and resume *)

Ltac io_unfold :=
  unfold _onLoaderError, _onLoaderComplete, pause, resume, seek, open, abort,
    isWorking, _internalSeek, _flushStashBuffer, _dispatchChunks, call_onDataArrival,
    _createLoader, loader_open, loader_abort, loader_destroy, loader_isWorking,
    with_loader, currentRange, set_currentRange_to, surface_error, emit, view,
    stashArray_set, when, bind, ret, get, gets, modify, throw, hang.

(** C5: [pause] does nothing unless the controller is working.  When it is,
    [pause] aborts the loader and sets the resume offset: the stash's
    logical start when the stash holds bytes, one past the last dispatched
    byte otherwise.  The [resume] that follows clears the paused state and
    opens a new loader at exactly that offset. *)
Theorem pause_then_resume_reopens_at_resume_offset :
  forall (s : Ctl) (r : Range),
    _currentRange s = Some r ->
    returns (pause s) (fun _ s1 =>
      if isWorking s then
        let resumeAt :=
          if _stashUsed s =? 0 then to r + 1 else _stashByteStart s in
        trace s1 = trace s ++ [EvLoaderAbort] /\
        _paused s1 = true /\
        _resumeFrom s1 = resumeAt /\
        returns (resume consume s1) (fun _ s2 =>
          _paused s2 = false /\
          isWorking s2 = true /\
          _currentRange s2 = Some {| from := resumeAt; to := -1 |} /\
          trace s2 = trace s1
                     ++ [EvLoaderDestroy; EvLoaderOpen {| from := resumeAt; to := -1 |}]
                     ++ (if _onSeeked s then [EvSeeked] else []))
      else s1 = s).
Proof.
  intros s r Hr. destruct s. cbn in Hr. subst.
  destruct _loader0 as [[[|]] |], _paused0, _loaderClass0 as [[|]], _onSeeked0,
    (_stashUsed0 =? 0) eqn:E.
  all: io_unfold; unfold isWorking, returns; cbn; rewrite ?E; cbn.
  all: try reflexivity.
  all: repeat (split; [reflexivity |]).
  all: repeat rewrite <- app_assoc; reflexivity.
Qed.


(** C10: [pause] on a working controller empties the stash (length and
    logical start both 0) and calls nothing but the loader's [abort]: the
    consumer is not called, so the bytes the stash held are dropped.  They
    come back only from the loader that [resume] opens at the resume offset,
    which is where the dropped bytes began. *)
Theorem pause_drops_stash_without_dispatch :
  forall (s : Ctl) (r : Range),
    isWorking s = true ->
    _currentRange s = Some r ->
    returns (pause s) (fun _ s1 =>
      _stashUsed s1 = 0 /\
      _stashByteStart s1 = 0 /\
      trace s1 = trace s ++ [EvLoaderAbort] /\
      _onDataArrival s1 = _onDataArrival s /\
      _resumeFrom s1 = (if _stashUsed s =? 0 then to r + 1 else _stashByteStart s) /\
      returns (resume consume s1) (fun _ s2 =>
        _stashUsed s2 = 0 /\
        _onDataArrival s2 = _onDataArrival s /\
        trace s2 = trace s1
                   ++ [EvLoaderDestroy;
                       EvLoaderOpen {| from := _resumeFrom s1; to := -1 |}]
                   ++ (if _onSeeked s then [EvSeeked] else []))).
Proof.
  intros s r Hw Hr. destruct s. cbn in Hr. subst.
  unfold isWorking in Hw. cbn in Hw.
  destruct _loader0 as [[[|]] |]; try discriminate.
  destruct _paused0; try discriminate.
  destruct _loaderClass0 as [[|]], _onSeeked0, (_stashUsed0 =? 0) eqn:E.
  all: io_unfold; unfold isWorking, returns; cbn; rewrite ?E; cbn.
  all: repeat (split; [reflexivity |]).
  all: repeat rewrite <- app_assoc; reflexivity.
Qed.


(** *** Completion *)

Lemma run_lastByteStart (ops : list Op) :
  forall (s s' : Ctl),
    Forall offset_nonneg ops ->
    run consume ops s = Some s' ->
    (0 <=? lastByteStart s') = has_arrival ops || (0 <=? lastByteStart s).
Proof.
  induction ops as [| op ops IH]; intros s s' Hall H; unfold run in *; cbn in H.
  - inversion H. reflexivity.
  - inversion Hall as [| ? ? Hop Hrest]; subst.
    destruct (state_of (exec consume op s)) as [s1 |] eqn:E; [| discriminate].
    rewrite (IH s1 s' Hrest H).
    assert (K : forall m : MC unit, keeps steady m s -> state_of (m s) = Some s1 ->
                lastByteStart s1 = lastByteStart s).
    { intros m Hm Em. now destruct (keeps_state_of _ _ _ _ Hm Em). }
    destruct op; cbn [exec] in E; cbn [has_arrival existsb is_arrival orb];
      try (rewrite (K _ (steady_open _ _) E); reflexivity);
      try (rewrite (K _ (steady_abort _) E); reflexivity);
      try (rewrite (K _ (steady_pause _) E); reflexivity);
      try (rewrite (K _ (steady_resume _) E); reflexivity);
      try (rewrite (K _ (steady_seek _ _) E); reflexivity);
      try (rewrite (K _ (steady_onContentLengthKnown _ _) E); reflexivity);
      try (rewrite (K _ (steady_onURLRedirect _ _) E); reflexivity);
      try (rewrite (K _ (steady_onLoaderComplete _ _ _) E); reflexivity);
      try (rewrite (K _ (steady_onLoaderError _ _ _) E); reflexivity).
    apply onLoaderChunkArrival_records in E. destruct E as (_ & E).
    rewrite E. cbn in Hop. apply Z.leb_le in Hop. rewrite Hop.
    now rewrite orb_true_r.
Qed.

(** C7, as the code has it: when the loader completes, the stash is
    dispatched once if it holds bytes and is then empty whatever the
    consumer took; after that [onComplete] is called if the loader has
    delivered a chunk, of whatever length, since the controller was made,
    and [onError] with CONNECTING_TIMEOUT (code 500) if it has delivered
    none. *)
Theorem completion_flushes_then_notifies :
  forall (ops : list Op) (s0 s : Ctl) (r : Range) (cs cs' : CS)
         (consumed from_ to_ : Z),
    lastByteStart s0 = -1 ->
    Forall offset_nonneg ops ->
    run consume ops s0 = Some s ->
    0 <= _stashUsed s ->
    _currentRange s = Some r ->
    _onDataArrival s = Some cs ->
    consume cs (ab_slice (_stashBuffer s) (_stashUsed s)) (_stashByteStart s)
      = Ok consumed cs' ->
    returns (_onLoaderComplete consume from_ to_ s) (fun _ s' =>
      _stashUsed s' = 0 /\
      trace s' =
        trace s
        ++ (if 0 <? _stashUsed s
            then [EvDataArrival (ab_slice (_stashBuffer s) (_stashUsed s))
                                (_stashByteStart s)]
            else [])
        ++ (if has_arrival ops
            then (if _onComplete s then [EvComplete] else [])
            else (if _onError s then [EvError CONNECTING_TIMEOUT 500] else []))).
Proof.
  intros ops s0 s r cs cs' consumed from_ to_ H0 Hall Hrun Hused Hr Hcs Hconsume.
  pose proof (run_lastByteStart ops s0 s Hall Hrun) as Hlast.
  rewrite H0 in Hlast. cbn in Hlast. rewrite orb_false_r in Hlast.
  rewrite <- Hlast. clear Hlast Hrun H0 Hall.
  destruct s. cbn in *. subst.
  io_unfold; unfold returns; cbn.
  destruct (0 <? _stashUsed0) eqn:E; cbn.
  - rewrite Hconsume. cbn.
    destruct (consumed <? _) ; cbn;
      destruct (0 <=? lastByteStart0); cbn;
      destruct _onComplete0, _onError0; cbn;
      (split; [reflexivity |]);
      repeat rewrite <- app_assoc; try rewrite app_nil_r; reflexivity.
  - apply Z.ltb_ge in E. assert (_stashUsed0 = 0) by lia. subst.
    destruct (0 <=? lastByteStart0); cbn;
      destruct _onComplete0, _onError0; cbn;
      (split; [reflexivity |]);
      repeat rewrite <- app_assoc; try rewrite app_nil_r; reflexivity.
Qed.


(** *** Reading back what was written *)

Lemma nth_map_seq {A} (f : nat -> A) (n i : nat) (d : A) :
  (i < n)%nat -> nth i (map f (seq 0 n)) d = f i.
Proof.
  intros H. rewrite (nth_indep _ d (f 0%nat)) by (rewrite length_map, length_seq; lia).
  rewrite map_nth, seq_nth by lia. reflexivity.
Qed.

Lemma byteLength_ab_read (b : ArrayBuffer) (off len : Z) :
  0 <= len -> byteLength (ab_read b off len) = len.
Proof.
  intros H. unfold byteLength, ab_read. rewrite length_map, length_seq. lia.
Qed.

Lemma ab_slice_read (b : ArrayBuffer) (n : Z) :
  0 <= n <= ab_byteLength b -> ab_slice b n = ab_read b 0 n.
Proof.
  intros H. unfold ab_slice, slice_end.
  destruct (n <? 0) eqn:E; [apply Z.ltb_lt in E; lia |].
  now rewrite Z.min_l by lia.
Qed.

(** After [set(src, 0)] the first bytes of the buffer are [src]. *)
Lemma ab_read_write_front (b : ArrayBuffer) (src : list byte) (n : Z) :
  n = byteLength src -> ab_read (ab_write b 0 src) 0 n = src.
Proof.
  intros ->. unfold ab_read, byteLength. rewrite Nat2Z.id.
  apply (nth_ext _ _ x00 x00); [now rewrite length_map, length_seq |].
  intros i Hi. rewrite length_map, length_seq in Hi.
  rewrite nth_map_seq by exact Hi. cbn.
  unfold byteLength.
  destruct (Z.of_nat i <? Z.of_nat (List.length src)) eqn:E;
    [| apply Z.ltb_ge in E; lia].
  replace (0 <=? Z.of_nat i) with true by (symmetry; apply Z.leb_le; lia).
  cbn [andb]. rewrite Z.sub_0_r, Nat2Z.id. reflexivity.
Qed.

(** After [set(src, used)] the buffer holds what it held below [used],
    then [src]. *)
Lemma ab_read_write_append (b : ArrayBuffer) (src : list byte) (used : Z) :
  0 <= used ->
  ab_read (ab_write b used src) 0 (used + byteLength src)
  = ab_read b 0 used ++ src.
Proof.
  intros Hused. unfold ab_read.
  apply (nth_ext _ _ x00 x00).
  - rewrite length_app, !length_map, !length_seq. unfold byteLength. lia.
  - intros i Hi. rewrite length_map, length_seq in Hi.
    rewrite nth_map_seq by exact Hi. cbn.
    destruct (Z.of_nat i <? used) eqn:E.
    + apply Z.ltb_lt in E.
      rewrite app_nth1 by (rewrite length_map, length_seq; lia).
      rewrite nth_map_seq by lia.
      destruct (used <=? Z.of_nat i) eqn:E2; [apply Z.leb_le in E2; lia |].
      reflexivity.
    + apply Z.ltb_ge in E.
      rewrite app_nth2 by (rewrite length_map, length_seq; lia).
      rewrite length_map, length_seq.
      destruct (used <=? Z.of_nat i) eqn:E2; [| apply Z.leb_gt in E2; lia].
      destruct (Z.of_nat i <? used + byteLength src) eqn:E3;
        [| apply Z.ltb_ge in E3; unfold byteLength in *; lia].
      cbn. f_equal. lia.
Qed.


(** *** Flushing without dropping *)

Ltac prove_test :=
  unfold window_ok;
  repeat (apply andb_true_intro; split);
  first [ apply Z.ltb_lt; lia | apply Z.leb_le; lia | apply Z.eqb_eq; lia
        | apply Z.ltb_ge; lia | apply Z.leb_gt; lia | apply Z.eqb_neq; lia ].

Ltac settle_tests :=
  repeat match goal with
         | |- context [if ?b then _ else _] =>
             first [ replace b with true by (symmetry; prove_test)
                   | replace b with false by (symmetry; prove_test) ];
             cbn
         end.

Ltac norm_len :=
  repeat first
    [ rewrite byteLength_ab_read by lia
    | rewrite byteLength_skipn by (rewrite ?byteLength_ab_read by lia; lia) ].

Lemma flush_keeps_remainder (s : Ctl) (r : Range) (cs cs' : CS) (c : Z) :
  stash_ok s ->
  0 < _stashUsed s ->
  _currentRange s = Some r ->
  _onDataArrival s = Some cs ->
  consume cs (stash_bytes s) (_stashByteStart s) = Ok c cs' ->
  0 <= c <= _stashUsed s ->
  exists v B,
    _flushStashBuffer consume false s
      = Ok v (flushed s r cs' B (_stashUsed s - c)
                (if c <? _stashUsed s then _stashByteStart s + c else 0)) /\
    ab_byteLength B = ab_byteLength (_stashBuffer s) /\
    ab_read B 0 (_stashUsed s - c) = skipn (Z.to_nat c) (stash_bytes s).
Proof.
  intros (Htracked & Hused) Hpos Hr Hcs Hconsume Hc.
  destruct s. unfold buffer_tracked, flushed, stash_bytes in *. cbn in *. subst.
  io_unfold. cbn.
  settle_tests.
  rewrite ab_slice_read by lia. norm_len. rewrite Hconsume. cbn.
  destruct (c <? _stashUsed0) eqn:E1; cbn.
  - destruct (0 <? c) eqn:E2; cbn.
    + apply Z.ltb_lt in E1, E2. settle_tests. norm_len. settle_tests.
      eexists _, (ab_write _stashBuffer0 0 (skipn (Z.to_nat c) (ab_read _stashBuffer0 0 _stashUsed0))).
      split; [reflexivity |]. split; [reflexivity |].
      apply ab_read_write_front. norm_len. reflexivity.
    + apply Z.ltb_ge in E2. assert (c = 0) by lia. subst c.
      cbn. rewrite Z.sub_0_r, Z.add_0_r.
      eexists _, _stashBuffer0. split; [reflexivity |]. split; reflexivity.
  - apply Z.ltb_ge in E1. assert (c = _stashUsed0) by lia. subst c.
    cbn. rewrite Z.sub_diag.
    eexists _, _stashBuffer0. split; [reflexivity |]. split; [reflexivity |].
    unfold ab_read at 1. cbn.
    rewrite skipn_all2; [reflexivity |].
    unfold ab_read. rewrite length_map, length_seq. lia.
Qed.


Lemma flush_empty (s : Ctl) (dropUnconsumed : bool) :
  _stashUsed s = 0 -> _flushStashBuffer consume dropUnconsumed s = Ok 0 s.
Proof.
  intros H. unfold _flushStashBuffer. unfold bind at 1. cbn [get].
  now rewrite H.
Qed.

(** *** Errors of the loader *)

(** Evaluation of the monad, the setters and the projections, and of
    nothing else. *)
Ltac ctl_eval :=
  lazy beta iota zeta delta
    [bind ret get gets modify throw hang when state_of
     emit with_loader loader_isWorking loader_abort loader_destroy loader_open
     _createLoader currentRange set_currentRange_to view stashArray_set
     call_onDataArrival _dispatchChunks surface_error
     flushed stash_bytes truthy negb andb orb
     ldr_working needStashBuffer isLive from to
     set_stashUsed set_stashSize set_bufferSize set_stashBuffer set_stashByteStart set_enableStash set_lastByteStart set_loader set_totalLength set_fullRequestFlag set_currentRange set_redirectedURL set_speedNormalized set_isEarlyEofReconnecting set_paused set_resumeFrom set_onDataArrival set_trace
     _config _stashInitialSize _stashUsed _stashSize _bufferSize _stashBuffer _stashByteStart _enableStash lastByteStart _loader _loaderClass _totalLength _fullRequestFlag _currentRange _redirectedURL _speedNormalized _isEarlyEofReconnecting _paused _resumeFrom _onDataArrival _onSeeked _onError _onComplete _onRedirect _onRecoveredEarlyEof trace].

(** A reopening that keeps what the consumer leaves of the stash. *)
Lemma internalSeek_keeps_remainder (x : Ctl) (rx : Range) (l : Loader)
    (csx cs' : CS) (c bytes : Z) :
  stash_ok x ->
  _currentRange x = Some rx ->
  _loader x = Some l ->
  _onDataArrival x = Some csx ->
  (0 < _stashUsed x ->
   consume csx (stash_bytes x) (_stashByteStart x) = Ok c cs') ->
  0 <= c <= _stashUsed x ->
  returns (_internalSeek consume bytes false x) (fun _ s' =>
    _isEarlyEofReconnecting s' = _isEarlyEofReconnecting x /\
    trace s' =
      trace x
      ++ (if ldr_working l then [EvLoaderAbort] else [])
      ++ (if 0 <? _stashUsed x
          then [EvDataArrival (stash_bytes x) (_stashByteStart x)] else [])
      ++ [EvLoaderDestroy; EvLoaderOpen {| from := bytes; to := -1 |}]
      ++ (if _onSeeked x then [EvSeeked] else []) /\
    _currentRange s' = Some {| from := bytes; to := -1 |} /\
    stash_bytes s' = skipn (Z.to_nat c) (stash_bytes x) /\
    (c < _stashUsed x -> _stashByteStart s' = _stashByteStart x + c)).
Proof.
  intros Hok Hr Hl Hcs Hconsume Hc.
  destruct x. unfold stash_ok, buffer_tracked, stash_bytes in Hok, Hconsume.
  cbn in Hok, Hr, Hl, Hcs, Hconsume, Hc. destruct Hok as (Htracked & Hused). subst.
  destruct l as [w], _loaderClass0 as [need].
  destruct (0 <? _stashUsed0) eqn:Epos.
  - pose proof Epos as Epos'. apply Z.ltb_lt in Epos. specialize (Hconsume Epos).
    destruct w, need, _onSeeked0; unfold _internalSeek; ctl_eval;
      match goal with
      | |- context [_flushStashBuffer consume false ?x1] =>
          destruct (flush_keeps_remainder x1 rx csx cs' c) as (v & B & Hflush & HB & Hread);
            [ split; [reflexivity | exact Hused] | exact Epos | reflexivity
            | reflexivity | exact Hconsume | exact Hc | ];
            rewrite Hflush
      end;
      unfold stash_bytes in Hread; cbn in Hread;
      unfold returns; ctl_eval; rewrite Epos';
      (split; [reflexivity |]);
      (split; [rewrite <- ?app_assoc; reflexivity |]);
      (split; [reflexivity |]);
      (split; [exact Hread |]);
      intros Hlt;
      replace (c <? _stashUsed0) with true by (symmetry; apply Z.ltb_lt; lia);
      reflexivity.
  - apply Z.ltb_ge in Epos. assert (_stashUsed0 = 0) by lia. subst.
    assert (c = 0) by lia. subst c.
    destruct w, need, _onSeeked0; unfold _internalSeek; ctl_eval;
      match goal with
      | |- context [_flushStashBuffer consume false ?x1] =>
          rewrite (flush_empty x1 false eq_refl)
      end;
      unfold returns; ctl_eval;
      (split; [reflexivity |]);
      (split; [rewrite <- ?app_assoc; reflexivity |]);
      (split; [reflexivity |]);
      (split; [reflexivity | intros; lia]).
Qed.

Lemma returns_weaken {S A} (r : Res S A) (P Q : A -> S -> Prop) :
  returns r P -> (forall a s, P a s -> Q a s) -> returns r Q.
Proof. destruct r; cbn; auto. Qed.

Lemma skipn_twice (l : list byte) (a b : Z) :
  0 <= a -> 0 <= b ->
  skipn (Z.to_nat b) (skipn (Z.to_nat a) l) = skipn (Z.to_nat (a + b)) l.
Proof.
  intros Ha Hb. rewrite skipn_skipn. f_equal. lia.
Qed.

(** C3: an EARLY_EOF error on a source that is not live, whose total
    length is known, with the offset after the last received byte below
    that length.  The stash is first dispatched and what the consumer
    leaves of it is kept.  If no reconnection is in progress, the controller
    marks itself reconnecting and reopens once, at that offset: it aborts
    the loader if it works, dispatches the kept bytes again, destroys the
    loader and opens a new one from the offset; [onError] is not called,
    and the stash ends with exactly the bytes the consumer did not take.
    If a reconnection is in progress, the flag is cleared and [onError] is
    called with UNRECOVERABLE_EARLY_EOF; no loader is opened. *)
Theorem early_eof_reconnects_once_or_escalates :
  forall (s : Ctl) (r : Range) (l : Loader) (cs cs1 cs2 : CS)
         (c1 c2 total code : Z),
    stash_ok s ->
    isLive (_config s) = false ->
    _totalLength s = Some total ->
    0 < total ->
    _currentRange s = Some r ->
    _loader s = Some l ->
    _onDataArrival s = Some cs ->
    _onError s = true ->
    (if 0 <? _stashUsed s then _stashByteStart s + _stashUsed s - 1 else to r) + 1
      < total ->
    consume cs (stash_bytes s) (_stashByteStart s) = Ok c1 cs1 ->
    0 <= c1 <= _stashUsed s ->
    consume cs1 (skipn (Z.to_nat c1) (stash_bytes s)) (_stashByteStart s + c1)
      = Ok c2 cs2 ->
    0 <= c2 <= _stashUsed s - c1 ->
    returns (_onLoaderError consume EARLY_EOF code s) (fun _ s' =>
      let used := _stashUsed s in
      let start := _stashByteStart s in
      let held := stash_bytes s in
      let nextFrom := (if 0 <? used then start + used - 1 else to r) + 1 in
      let first := if 0 <? used then [EvDataArrival held start] else [] in
      if _isEarlyEofReconnecting s then
        _isEarlyEofReconnecting s' = false /\
        trace s' = trace s ++ first ++ [EvError UNRECOVERABLE_EARLY_EOF code] /\
        stash_bytes s' = skipn (Z.to_nat c1) held
      else
        _isEarlyEofReconnecting s' = true /\
        trace s' =
          trace s ++ first
          ++ (if ldr_working l then [EvLoaderAbort] else [])
          ++ (if c1 <? used
              then [EvDataArrival (skipn (Z.to_nat c1) held) (start + c1)]
              else [])
          ++ [EvLoaderDestroy; EvLoaderOpen {| from := nextFrom; to := -1 |}]
          ++ (if _onSeeked s then [EvSeeked] else []) /\
        _currentRange s' = Some {| from := nextFrom; to := -1 |} /\
        stash_bytes s' = skipn (Z.to_nat (c1 + c2)) held /\
        (c1 + c2 < used -> _stashByteStart s' = start + (c1 + c2))).
Proof.
  intros s r l cs cs1 cs2 c1 c2 total code Hok Hlive Htotal Htotal0 Hr Hl Hcs
    Herr Hnext Hc1 Hc1r Hc2 Hc2r.
  cbv zeta.
  assert (Etotal : (total =? 0) = false) by (apply Z.eqb_neq; lia).
  destruct (0 <? _stashUsed s) eqn:Epos.
  - (* the stash holds bytes *)
    pose proof Epos as Epos'. apply Z.ltb_lt in Epos.
    destruct (flush_keeps_remainder s r cs cs1 c1 Hok Epos Hr Hcs Hc1 Hc1r)
      as (v1 & B1 & Hf1 & HB1 & Hread1).
    destruct s, r as [rfrom rto]. unfold stash_ok, buffer_tracked, stash_bytes in *.
    destruct _config0 as [live ? ?].
    cbn in Hok, Hlive, Htotal, Hr, Hl, Hcs, Herr, Hnext, Hc1, Hc1r, Hc2, Hc2r,
      Epos, Epos', HB1, Hread1.
    destruct Hok as (Htracked & Hused). subst.
    cbn [_stashUsed _stashBuffer _stashByteStart _isEarlyEofReconnecting trace
         _onSeeked to].
    match goal with |- returns _ ?P => set (post := P) end.
    unfold _onLoaderError. ctl_eval. rewrite Hf1. ctl_eval.
    destruct _isEarlyEofReconnecting0; ctl_eval.
    + unfold returns, post, stash_bytes. cbn.
      repeat split; [rewrite <- ?app_assoc; reflexivity | exact Hread1].
    + rewrite Etotal.
      replace (_stashByteStart0 + _stashUsed0 - 1 + 1 <? total) with true
        by (symmetry; apply Z.ltb_lt; lia).
      match goal with
      | |- returns (_internalSeek consume ?bytes false ?x) _ =>
          pose proof (internalSeek_keeps_remainder x
                        {| from := rfrom;
                           to := _stashByteStart0 + _stashUsed0 - 1 |}
                        l cs1 cs2 c2 bytes) as Hseek
      end.
      unfold stash_ok, buffer_tracked, stash_bytes in Hseek. cbn in Hseek.
      rewrite Hread1 in Hseek.
      eapply returns_weaken.
      * apply Hseek; try reflexivity; try lia.
        intros Hlt.
        replace (c1 <? _stashUsed0) with true by (symmetry; apply Z.ltb_lt; lia).
        exact Hc2.
      * unfold post. cbv beta. unfold stash_bytes.
        intros _ s' (Hflag & Htrace & Hrange & Hbytes & Hstart).
        replace (0 <? _stashUsed0 - c1) with (c1 <? _stashUsed0) in Htrace
          by (destruct (c1 <? _stashUsed0) eqn:E1;
              [apply Z.ltb_lt in E1; symmetry; apply Z.ltb_lt; lia
              |apply Z.ltb_ge in E1; symmetry; apply Z.ltb_ge; lia]).
        split; [exact Hflag |].
        split.
        { rewrite Htrace. rewrite <- ?app_assoc. cbn [app].
          destruct (c1 <? _stashUsed0); reflexivity. }
        split; [exact Hrange |].
        split; [rewrite Hbytes; apply skipn_twice; lia |].
        intros Hlt. rewrite Hstart by lia.
        replace (c1 <? _stashUsed0) with true by (symmetry; apply Z.ltb_lt; lia).
        lia.
  - (* the stash is empty *)
    apply Z.ltb_ge in Epos.
    assert (E0 : _stashUsed s = 0) by (destruct Hok as (_ & ?); lia).
    pose proof (flush_empty s false E0) as Hf1.
    destruct s, r as [rfrom rto]. unfold stash_ok, buffer_tracked, stash_bytes in *.
    destruct _config0 as [live ? ?].
    cbn in Hok, Hlive, Htotal, Hr, Hl, Hcs, Herr, Hnext, Hc1, Hc1r, Hc2, Hc2r, E0.
    destruct Hok as (Htracked & Hused). subst.
    assert (c1 = 0) by lia. subst c1. assert (c2 = 0) by lia. subst c2.
    cbn [_stashUsed _stashBuffer _stashByteStart _isEarlyEofReconnecting trace
         _onSeeked to].
    match goal with |- returns _ ?P => set (post := P) end.
    unfold _onLoaderError. ctl_eval. rewrite Hf1. ctl_eval.
    destruct _isEarlyEofReconnecting0; ctl_eval.
    + unfold returns, post, stash_bytes. cbn. repeat split.
    + rewrite Etotal.
      replace (rto + 1 <? total) with true by (symmetry; apply Z.ltb_lt; lia).
      match goal with
      | |- returns (_internalSeek consume ?bytes false ?x) _ =>
          pose proof (internalSeek_keeps_remainder x {| from := rfrom; to := rto |}
                        l cs cs 0 bytes) as Hseek
      end.
      unfold stash_ok, buffer_tracked, stash_bytes in Hseek. cbn in Hseek.
      eapply returns_weaken.
      * apply Hseek; try reflexivity; try lia.
      * unfold post. cbv beta. unfold stash_bytes.
        intros _ s' (Hflag & Htrace & Hrange & Hbytes & Hstart).
        split; [exact Hflag |].
        split; [rewrite Htrace; reflexivity |].
        split; [exact Hrange |].
        split; [exact Hbytes | intros; lia].
Qed.


(** *** The buffering policy with the stash enabled *)

Lemma arrival_reaches_policy (s : Ctl) (cs : CS) chunk byteStart receivedLength KBps :
  _onDataArrival s = Some cs ->
  _paused s = false ->
  _isEarlyEofReconnecting s = false ->
  tier_steady s KBps ->
  _onLoaderChunkArrival consume chunk byteStart receivedLength KBps s
  = buffering_policy consume chunk byteStart (set_lastByteStart byteStart s).
Proof.
  intros Hcs Hp Hre Htier. destruct s. cbn in Hcs, Hp, Hre. subst.
  unfold tier_steady in Htier. cbn in Htier.
  unfold _onLoaderChunkArrival. ctl_eval.
  destruct Htier as [Hz | Hn].
  - rewrite Hz. reflexivity.
  - destruct (Qeq_bool KBps 0); [reflexivity |].
    rewrite Hn. ctl_eval. rewrite Z.eqb_refl. reflexivity.
Qed.

Ltac settle_ctl :=
  repeat (ctl_eval;
          match goal with
          | |- context [if ?b then _ else _] =>
              first [ replace b with true by (symmetry; prove_test)
                    | replace b with false by (symmetry; prove_test) ]
          end);
  ctl_eval.

(** While the chunk fits under the target, it is appended. *)
Lemma policy_appends (s : Ctl) chunk byteStart :
  _enableStash s = true ->
  0 <= _stashUsed s ->
  _stashUsed s + byteLength chunk <= _stashSize s ->
  _stashSize s <= ab_byteLength (_stashBuffer s) ->
  buffering_policy consume chunk byteStart s
  = Ok tt
      (set_stashUsed (_stashUsed s + byteLength chunk)
         (set_stashBuffer (ab_write (_stashBuffer s) (_stashUsed s) chunk)
            (set_stashByteStart
               (if (_stashUsed s =? 0) && (_stashByteStart s =? 0)
                then byteStart else _stashByteStart s)
               s))).
Proof.
  intros He Hu Hfit Hcap. destruct s. cbn in He, Hu, Hfit, Hcap. subst.
  pose proof (byteLength_nonneg chunk) as Hlen.
  unfold buffering_policy, arrival_stash.
  destruct (_stashUsed0 =? 0) eqn:E1, (_stashByteStart0 =? 0) eqn:E2;
    ctl_eval; rewrite ?E1, ?E2; settle_ctl; reflexivity.
Qed.

(** When the chunk would exceed the target and the stash holds bytes, the
    stash is dispatched; a consumer that takes it all leaves the stash to
    the chunk alone. *)
Lemma policy_flushes (s : Ctl) (r : Range) (cs cs' : CS) chunk byteStart :
  _enableStash s = true ->
  stash_ok s ->
  0 < _stashUsed s ->
  _stashSize s < _stashUsed s + byteLength chunk ->
  byteLength chunk <= _bufferSize s ->
  _currentRange s = Some r ->
  _onDataArrival s = Some cs ->
  consume cs (stash_bytes s) (_stashByteStart s) = Ok (_stashUsed s) cs' ->
  buffering_policy consume chunk byteStart s
  = Ok tt
      (set_stashUsed (byteLength chunk)
         (set_stashBuffer (ab_write (_stashBuffer s) 0 chunk)
            (set_stashByteStart (_stashByteStart s + _stashUsed s)
               (set_onDataArrival (Some cs')
                  (set_trace
                     (trace s ++ [EvDataArrival (stash_bytes s) (_stashByteStart s)])
                     (set_currentRange
                        (Some {| from := from r;
                                 to := _stashByteStart s + _stashUsed s - 1 |})
                        s)))))).
Proof.
  intros He (Htracked & Hused) Hpos Hover Hcap Hr Hcs Hconsume.
  destruct s, r as [rfrom rto]. unfold buffer_tracked, stash_bytes in *.
  cbn in He, Htracked, Hused, Hpos, Hover, Hcap, Hr, Hcs, Hconsume. subst.
  pose proof (byteLength_nonneg chunk) as Hlen.
  unfold buffering_policy, arrival_flush_then_stash.
  settle_ctl.
  rewrite ab_slice_read by lia. rewrite byteLength_ab_read by lia.
  rewrite Hconsume. ctl_eval.
  rewrite Z.ltb_irrefl.
  settle_ctl.
  rewrite Z.add_0_l. reflexivity.
Qed.


(** C1, as the code has it: stash enabled and empty, a target of 64 KiB
    that the measured rates leave where it is, three chunks of 40 KiB at
    offsets 0, 40 KiB and 80 KiB, a consumer that takes all it is given.
    The first arrival dispatches nothing.  The second dispatches the first
    chunk alone, at offset 0, and the third dispatches the second chunk
    alone, at offset 40 KiB: two dispatches of 40 KiB each.  The third
    chunk is then what the stash holds, from offset 80 KiB. *)
Theorem three_chunks_are_dispatched_one_arrival_late :
  forall (s : Ctl) (r : Range) (cs : CS) (chunk1 chunk2 chunk3 : list byte)
         (KBps1 KBps2 KBps3 : Q) (received1 received2 received3 : Z),
    (forall cs data byteStart,
        exists cs', consume cs data byteStart = Ok (byteLength data) cs') ->
    _enableStash s = true ->
    _stashSize s = 64 * 1024 ->
    _stashUsed s = 0 ->
    _stashByteStart s = 0 ->
    buffer_tracked s ->
    80 * 1024 <= _bufferSize s ->
    _paused s = false ->
    _isEarlyEofReconnecting s = false ->
    _currentRange s = Some r ->
    _onDataArrival s = Some cs ->
    tier_steady s KBps1 -> tier_steady s KBps2 -> tier_steady s KBps3 ->
    byteLength chunk1 = 40 * 1024 ->
    byteLength chunk2 = 40 * 1024 ->
    byteLength chunk3 = 40 * 1024 ->
    returns (_onLoaderChunkArrival consume chunk1 0 received1 KBps1 s)
      (fun _ s1 =>
         trace s1 = trace s /\
         returns (_onLoaderChunkArrival consume chunk2 (40 * 1024) received2 KBps2 s1)
           (fun _ s2 =>
              trace s2 = trace s ++ [EvDataArrival chunk1 0] /\
              returns (_onLoaderChunkArrival consume chunk3 (80 * 1024) received3 KBps3 s2)
                (fun _ s3 =>
                   trace s3 = trace s ++ [EvDataArrival chunk1 0;
                                          EvDataArrival chunk2 (40 * 1024)] /\
                   stash_bytes s3 = chunk3 /\
                   _stashByteStart s3 = 80 * 1024 /\
                   _stashUsed s3 = 40 * 1024))).
Proof.
  intros s r cs chunk1 chunk2 chunk3 KBps1 KBps2 KBps3 received1 received2
    received3 Hfull He Hsize Hused Hstart Htracked Hcap Hp Hre Hr Hcs
    Ht1 Ht2 Ht3 Hl1 Hl2 Hl3.
  destruct s, r as [rfrom rto]. unfold buffer_tracked, tier_steady in *.
  cbn in He, Hsize, Hused, Hstart, Htracked, Hcap, Hp, Hre, Hr, Hcs, Ht1, Ht2, Ht3.
  subst. cbn [trace].
  (* the first chunk is stashed *)
  match goal with |- returns _ ?P => set (post1 := P) end.
  rewrite (arrival_reaches_policy _ cs) by (try reflexivity; exact Ht1).
  rewrite policy_appends by (cbn; lia || reflexivity).
  unfold returns. ctl_eval. unfold post1. cbv beta. clear post1.
  split; [reflexivity |].
  (* the second chunk makes the first one go *)
  match goal with |- returns _ ?P => set (post2 := P) end.
  rewrite (arrival_reaches_policy _ cs) by (try reflexivity; exact Ht2).
  ctl_eval.
  match goal with
  | |- returns (buffering_policy consume _ _ ?x) _ =>
      destruct (Hfull cs (stash_bytes x) (_stashByteStart x)) as (cs1 & Hgo1)
  end.
  unfold stash_bytes in Hgo1. cbn in Hgo1.
  rewrite byteLength_ab_read in Hgo1 by lia.
  rewrite (policy_flushes _ {| from := rfrom; to := rto |} cs cs1);
    [ | reflexivity | split; [exact eq_refl | cbn; lia] | cbn; lia | cbn; lia
      | cbn; lia | reflexivity | reflexivity | exact Hgo1 ].
  unfold returns. unfold stash_bytes. ctl_eval.
  rewrite ab_read_write_front by lia.
  unfold post2. cbv beta. clear post2.
  split; [reflexivity |].
  (* the third chunk makes the second one go *)
  match goal with |- returns _ ?P => set (post3 := P) end.
  rewrite (arrival_reaches_policy _ cs1) by (try reflexivity; exact Ht3).
  ctl_eval.
  match goal with
  | |- returns (buffering_policy consume _ _ ?x) _ =>
      destruct (Hfull cs1 (stash_bytes x) (_stashByteStart x)) as (cs2 & Hgo2)
  end.
  unfold stash_bytes in Hgo2. cbn in Hgo2.
  rewrite byteLength_ab_read in Hgo2 by lia.
  rewrite (policy_flushes _ {| from := rfrom; to := 0 + (0 + byteLength chunk1) - 1 |}
             cs1 cs2);
    [ | reflexivity | split; [exact eq_refl | cbn; lia] | cbn; lia | cbn; lia
      | cbn; lia | reflexivity | reflexivity | exact Hgo2 ].
  unfold returns. unfold stash_bytes. ctl_eval.
  rewrite ab_read_write_front by lia.
  unfold post3. cbv beta. clear post3. unfold stash_bytes. cbn.
  split; [rewrite <- app_assoc, Hl1; reflexivity |].
  split; [apply ab_read_write_front; reflexivity |].
  split; lia.
Qed.


(** ** Further properties of the controller *)

(** *** The speed tiers *)

Ltac settle_cmp :=
  repeat match goal with
         | |- context [Qle_bool ?a ?b] =>
             first [ replace (Qle_bool a b) with true
                       by (symmetry; apply Qle_bool_iff; lra)
                   | replace (Qle_bool a b) with false
                       by (symmetry; apply not_true_is_false; rewrite Qle_bool_iff; lra) ]
         end.

(** The tier of a rate that lies between two neighbouring tiers. *)
Ltac in_tier t :=
  exists t; unfold inject_Z in *;
  split; [cbv -[Qle_bool Qle Qlt]; settle_cmp; reflexivity |];
  split; [cbv; tauto |];
  split; [intros ?; first [reflexivity | exfalso; lra] |];
  intros ?; split; [first [lra | exfalso; lra] |];
  intros other Hin Hle; cbv [_speedNormalizeList In] in Hin;
  repeat (destruct Hin as [<- | Hin]; [first [lia | exfalso; lra] |]);
  contradiction.

Lemma normalizeSpeed_tier (input : Q) :
  exists tier,
    _normalizeSpeed input = Some tier /\
    In tier _speedNormalizeList /\
    ((input < inject_Z 64)%Q -> tier = 64) /\
    ((inject_Z 64 <= input)%Q ->
     (inject_Z tier <= input)%Q /\
     forall other,
       In other _speedNormalizeList -> (inject_Z other <= input)%Q -> other <= tier).
Proof.
  destruct (Qlt_le_dec input (inject_Z 64)) as [H64 | H64]; [in_tier 64 |].
  destruct (Qlt_le_dec input (inject_Z 128)) as [H128 | H128]; [in_tier 64 |].
  destruct (Qlt_le_dec input (inject_Z 256)) as [H256 | H256]; [in_tier 128 |].
  destruct (Qlt_le_dec input (inject_Z 384)) as [H384 | H384]; [in_tier 256 |].
  destruct (Qlt_le_dec input (inject_Z 512)) as [H512 | H512]; [in_tier 384 |].
  destruct (Qlt_le_dec input (inject_Z 768)) as [H768 | H768]; [in_tier 512 |].
  destruct (Qlt_le_dec input (inject_Z 1024)) as [H1024 | H1024]; [in_tier 768 |].
  destruct (Qlt_le_dec input (inject_Z 1536)) as [H1536 | H1536]; [in_tier 1024 |].
  destruct (Qlt_le_dec input (inject_Z 2048)) as [H2048 | H2048]; [in_tier 1536 |].
  destruct (Qlt_le_dec input (inject_Z 3072)) as [H3072 | H3072]; [in_tier 2048 |].
  destruct (Qlt_le_dec input (inject_Z 4096)) as [H4096 | H4096]; [in_tier 3072 |].
  in_tier 4096.
Qed.

Lemma normalizeSpeed_bounds (input : Q) (n : Z) :
  _normalizeSpeed input = Some n -> 64 <= n <= 4096.
Proof.
  destruct (normalizeSpeed_tier input) as (tier & E & Hin & _).
  rewrite E. intros [= <-]. cbv [_speedNormalizeList In] in Hin.
  repeat (destruct Hin as [<- | Hin]; [lia |]). contradiction.
Qed.

(** X1: [_normalizeSpeed] returns for every rate one of the eleven tiers of
    [_speedNormalizeList]: 64 for a rate below 64, and otherwise the
    greatest tier that is not above the rate. *)
Theorem normalizeSpeed_floors_to_tier :
  forall input : Q,
    exists tier,
      _normalizeSpeed input = Some tier /\
      In tier _speedNormalizeList /\
      ((input < inject_Z 64)%Q -> tier = 64) /\
      ((inject_Z 64 <= input)%Q ->
       (inject_Z tier <= input)%Q /\
       forall other,
         In other _speedNormalizeList -> (inject_Z other <= input)%Q -> other <= tier).
Proof. exact normalizeSpeed_tier. Qed.

(** *** Growing the buffer *)

Lemma expand_loop_power (fuel : nat) :
  forall n e r, expand_loop fuel n e = Some r -> exists k, 0 <= k /\ r = n * 2 ^ k.
Proof.
  induction fuel as [| fuel IH]; intros n e r; cbn [expand_loop];
    destruct (n + 1024 * 1024 * 1 <? e); intros H; try discriminate;
    try (injection H as <-; exists 0; split; [lia | cbn; lia]).
  destruct (IH _ _ _ H) as (k & Hk & ->). exists (k + 1). split; [lia |].
  rewrite Z.pow_add_r by lia. cbn. lia.
Qed.

Lemma expandBuffer_result (s : Ctl) (e : Z) :
  0 < _stashSize s ->
  _bufferSize s < e ->
  0 <= _stashUsed s <= ab_byteLength (_stashBuffer s) ->
  _stashUsed s <= _bufferSize s ->
  exists n B,
    _expandBuffer e s = Ok tt (set_bufferSize n (set_stashBuffer B s)) /\
    e <= n /\ ab_byteLength B = n /\
    ab_read B 0 (_stashUsed s) = ab_read (_stashBuffer s) 0 (_stashUsed s) /\
    exists k, 0 <= k /\ n = _stashSize s * 2 ^ k + 1024 * 1024 * 1.
Proof.
  intros Hsize He Hused Hcap.
  destruct (expand_loop_terminates (_stashSize s) e Hsize) as (r & Hr).
  pose proof (expand_loop_exit _ _ _ _ Hr) as Hexit.
  assert (Hpow : exists k, 0 <= k /\
                  r + 1024 * 1024 * 1 = _stashSize s * 2 ^ k + 1024 * 1024 * 1).
  { destruct (expand_loop_power _ _ _ _ Hr) as (k & Hk & Ek).
    exists k. split; [exact Hk | now rewrite Ek]. }
  unfold _expandBuffer. unfold bind at 1. cbn [get]. rewrite Hr.
  replace (r + 1024 * 1024 * 1 =? _bufferSize s) with false
    by (symmetry; apply Z.eqb_neq; lia).
  unfold bind at 1.
  replace (r + 1024 * 1024 * 1 <? 0) with false by (symmetry; apply Z.ltb_ge; lia).
  cbn [ret]. unfold bind at 1.
  destruct (0 <? _stashUsed s) eqn:Epos.
  - unfold bind at 1, view.
    replace (window_ok _ _ _) with true by (symmetry; prove_test).
    cbn [ret]. rewrite byteLength_ab_read by lia.
    replace (_stashUsed s <=? r + 1024 * 1024 * 1) with true
      by (symmetry; apply Z.leb_le; lia).
    cbn [ret]. unfold bind, modify.
    eexists _, _. split; [reflexivity |]. split; [exact Hexit |].
    split; [reflexivity |]. split; [| exact Hpow].
    apply ab_read_write_front. now rewrite byteLength_ab_read by lia.
  - apply Z.ltb_ge in Epos. assert (E0 : _stashUsed s = 0) by lia.
    cbn [ret]. unfold bind, modify.
    eexists _, _. split; [reflexivity |]. split; [exact Hexit |].
    split; [reflexivity |]. split; [| exact Hpow].
    rewrite E0. reflexivity.
Qed.

(** X2: when more bytes are expected than the buffer holds, [_expandBuffer]
    returns with a buffer that holds them: its size is [_stashSize] doubled
    some number of times plus 1 MiB, [_bufferSize] is the length of the new
    buffer, and the bytes of the stash, their count, the target size and
    the trace are what they were. *)
Theorem expandBuffer_grows_and_keeps_bytes :
  forall (s : Ctl) (expectedBytes : Z),
    0 < _stashSize s ->
    buffer_tracked s ->
    0 <= _stashUsed s <= _bufferSize s ->
    _bufferSize s < expectedBytes ->
    returns (_expandBuffer expectedBytes s) (fun _ s' =>
      expectedBytes <= _bufferSize s' /\
      buffer_tracked s' /\
      (exists k, 0 <= k /\
                 _bufferSize s' = _stashSize s * 2 ^ k + 1024 * 1024 * 1) /\
      _stashUsed s' = _stashUsed s /\
      stash_bytes s' = stash_bytes s /\
      _stashSize s' = _stashSize s /\
      trace s' = trace s).
Proof.
  intros s e Hsize Htracked Hused He.
  unfold buffer_tracked in Htracked.
  destruct (expandBuffer_result s e Hsize He ltac:(lia) ltac:(lia))
    as (n & B & Hrun & Hn & HB & Hread & Hpow).
  rewrite Hrun. cbn [returns]. unfold buffer_tracked, stash_bytes. cbn.
  repeat split; try assumption; try reflexivity.
Qed.

(** *** Choosing the target size *)

Lemma stash_target_KB_eq (live : bool) (normalized : Z) :
  (let stashSizeKB :=
     if live then normalized
     else if normalized <? 512 then normalized
     else if (512 <=? normalized) && (normalized <=? 1024) then normalized * 3 / 2
     else normalized * 2 in
   if 8192 <? stashSizeKB then 8192 else stashSizeKB)
  = stash_target_KB live normalized.
Proof.
  unfold stash_target_KB. cbv zeta.
  destruct live.
  - destruct (8192 <? normalized) eqn:E;
      [apply Z.ltb_lt in E | apply Z.ltb_ge in E]; lia.
  - destruct (normalized <? 512) eqn:E1.
    + destruct (8192 <? normalized) eqn:E;
        [apply Z.ltb_lt in E | apply Z.ltb_ge in E]; lia.
    + apply Z.ltb_ge in E1.
      replace (512 <=? normalized) with true by (symmetry; apply Z.leb_le; lia).
      cbn [andb].
      destruct (normalized <=? 1024);
        match goal with
        | |- (if 8192 <? ?x then _ else _) = _ =>
            destruct (8192 <? x) eqn:E;
              [apply Z.ltb_lt in E | apply Z.ltb_ge in E]; lia
        end.
Qed.

Lemma stash_target_KB_bounds (live : bool) (normalized : Z) :
  0 < normalized ->
  0 < stash_target_KB live normalized <= 8192 /\
  (64 <= normalized -> 64 <= stash_target_KB live normalized).
Proof.
  intros Hn. unfold stash_target_KB. cbv zeta.
  destruct live; [lia |].
  destruct (normalized <? 512); [lia |].
  destruct (normalized <=? 1024) eqn:E; [| lia].
  assert (normalized <= normalized * 3 / 2)
    by (apply Z.div_le_lower_bound; lia).
  lia.
Qed.

Lemma adjustStashSize_result (s : Ctl) (normalized : Z) :
  0 < normalized ->
  0 < _stashSize s ->
  0 <= _stashUsed s <= ab_byteLength (_stashBuffer s) ->
  _stashUsed s <= _bufferSize s ->
  exists n B,
    _adjustStashSize normalized s
    = Ok tt (set_stashSize (stash_target_KB (isLive (_config s)) normalized * 1024)
               (set_bufferSize n (set_stashBuffer B s))) /\
    _bufferSize s <= n /\
    stash_target_KB (isLive (_config s)) normalized * 1024 + 1024 * 1024 * 1 <= n /\
    (ab_byteLength (_stashBuffer s) = _bufferSize s -> ab_byteLength B = n) /\
    ab_read B 0 (_stashUsed s) = ab_read (_stashBuffer s) 0 (_stashUsed s).
Proof.
  intros Hn Hsize Hused Hcap.
  unfold _adjustStashSize. unfold bind at 1. cbn [get]. cbv zeta.
  rewrite stash_target_KB_eq.
  set (kb := stash_target_KB (isLive (_config s)) normalized).
  destruct (_bufferSize s <? kb * 1024 + 1024 * 1024 * 1) eqn:E; cbn [when].
  - apply Z.ltb_lt in E.
    destruct (expandBuffer_result s _ Hsize E Hused Hcap)
      as (n & B & Hrun & Hle & HB & Hread & _).
    unfold bind. rewrite Hrun. unfold modify.
    exists n, B. split; [reflexivity |]. split; [lia |]. split; [exact Hle |].
    split; [intros _; exact HB | exact Hread].
  - apply Z.ltb_ge in E. unfold bind, ret, modify.
    exists (_bufferSize s), (_stashBuffer s).
    split; [destruct s; reflexivity |]. split; [lia |]. split; [exact E |].
    split; [auto | reflexivity].
Qed.

(** X3: for a positive tier [_adjustStashSize] sets [_stashSize] to
    [min(k, 8192)] KiB, where [k] is the tier for a live source and
    otherwise the tier below 512, one and a half times the tier up to 1024
    and twice the tier above; the new size is positive and at most 8 MiB,
    the buffer is at least 1 MiB longer and never shorter than it was, and
    the stash keeps its bytes. *)
Theorem adjustStashSize_sets_target_within_buffer :
  forall (s : Ctl) (normalized : Z),
    0 < normalized ->
    0 < _stashSize s ->
    buffer_tracked s ->
    0 <= _stashUsed s <= _bufferSize s ->
    returns (_adjustStashSize normalized s) (fun _ s' =>
      _stashSize s' = stash_target_KB (isLive (_config s)) normalized * 1024 /\
      0 < _stashSize s' <= 8192 * 1024 /\
      _stashSize s' + 1024 * 1024 <= _bufferSize s' /\
      _bufferSize s <= _bufferSize s' /\
      buffer_tracked s' /\
      _stashUsed s' = _stashUsed s /\
      stash_bytes s' = stash_bytes s /\
      trace s' = trace s).
Proof.
  intros s normalized Hn Hsize Htracked Hused.
  unfold buffer_tracked in Htracked.
  destruct (adjustStashSize_result s normalized Hn Hsize ltac:(lia) ltac:(lia))
    as (n & B & Hrun & Hle & Hfit & HB & Hread).
  pose proof (stash_target_KB_bounds (isLive (_config s)) normalized Hn) as (Hkb & _).
  rewrite Hrun. cbn [returns]. unfold buffer_tracked, stash_bytes. cbn.
  repeat split; try lia; try assumption; auto.
Qed.

(** *** Every method is safe *)

Ltac ctl_eval_in H :=
  lazy beta iota zeta delta
    [bind ret get gets modify throw hang when state_of
     emit with_loader loader_isWorking loader_abort loader_destroy loader_open
     _createLoader currentRange set_currentRange_to view stashArray_set
     call_onDataArrival _dispatchChunks surface_error
     flushed stash_bytes truthy negb andb orb
     ldr_working needStashBuffer isLive from to
     set_stashUsed set_stashSize set_bufferSize set_stashBuffer set_stashByteStart set_enableStash set_lastByteStart set_loader set_totalLength set_fullRequestFlag set_currentRange set_redirectedURL set_speedNormalized set_isEarlyEofReconnecting set_paused set_resumeFrom set_onDataArrival set_trace
     _config _stashInitialSize _stashUsed _stashSize _bufferSize _stashBuffer _stashByteStart _enableStash lastByteStart _loader _loaderClass _totalLength _fullRequestFlag _currentRange _redirectedURL _speedNormalized _isEarlyEofReconnecting _paused _resumeFrom _onDataArrival _onSeeked _onError _onComplete _onRedirect _onRecoveredEarlyEof trace] in H.

Ltac bool_prop :=
  repeat match goal with
         | H : (_ <? _) = true |- _ => apply Z.ltb_lt in H
         | H : (_ <? _) = false |- _ => apply Z.ltb_ge in H
         | H : (_ <=? _) = true |- _ => apply Z.leb_le in H
         | H : (_ <=? _) = false |- _ => apply Z.leb_gt in H
         | H : (_ =? _) = true |- _ => apply Z.eqb_eq in H
         | H : (_ =? _) = false |- _ => apply Z.eqb_neq in H
         end.

Lemma ab_write_length (b : ArrayBuffer) (at_ : Z) (src : list byte) :
  ab_byteLength (ab_write b at_ src) = ab_byteLength b.
Proof. reflexivity. Qed.

Lemma ab_from_read (b : ArrayBuffer) (off : Z) :
  ab_from b off = ab_read b off (ab_byteLength b - off).
Proof. reflexivity. Qed.

Ltac len_norm :=
  repeat first
    [ rewrite ab_write_length
    | rewrite ab_from_read
    | rewrite ab_slice_read by (rewrite ?ab_write_length; lia)
    | rewrite byteLength_ab_read by lia
    | rewrite byteLength_skipn by (rewrite ?byteLength_ab_read by lia; lia)
    | rewrite byteLength_app ].

Ltac len_norm_in H :=
  repeat first
    [ rewrite ab_write_length in H
    | rewrite ab_from_read in H
    | rewrite ab_slice_read in H by (rewrite ?ab_write_length; lia)
    | rewrite byteLength_ab_read in H by lia
    | rewrite byteLength_skipn in H by (rewrite ?byteLength_ab_read by lia; lia)
    | rewrite byteLength_app in H ].

Ltac sound_leaf :=
  unfold sound, buffer_tracked; ctl_eval; rewrite ?ab_write_length; lia.

(** One step of a symbolic run: evaluate, then settle the test or the call
    that the run waits for. *)
Ltac ctl_case Hwb :=
  ctl_eval; len_norm;
  match goal with
  | |- context [match consume ?cs ?d ?b with _ => _ end] =>
      let E := fresh "Econsume" in
      let Hb := fresh "Hbound" in
      pose proof (Hwb cs d b) as Hb;
      destruct (consume cs d b) as [? ? | ? ? |] eqn:E;
      [len_norm_in Hb | | contradiction]
  | |- context [if (if ?b then _ else _) then _ else _] =>
      first [ replace b with true by (symmetry; prove_test)
            | replace b with false by (symmetry; prove_test)
            | let E := fresh "Etest" in destruct b eqn:E; bool_prop ]
  | |- context [if ?b then _ else _] =>
      first [ replace b with true by (symmetry; prove_test)
            | replace b with false by (symmetry; prove_test)
            | let E := fresh "Etest" in destruct b eqn:E; bool_prop ]
  | |- context [_expandBuffer ?e ?x] =>
      let n := fresh "n" in
      let B := fresh "B" in
      let Hrun := fresh "Hrun" in
      let Hle := fresh "Hle" in
      let HB := fresh "HB" in
      let Hread := fresh "Hread" in
      destruct (expandBuffer_result x e) as (n & B & Hrun & Hle & HB & Hread & _);
      [ sound_leaf | sound_leaf | sound_leaf | sound_leaf | ];
      rewrite Hrun; clear Hrun; ctl_eval_in Hread
  end.

Ltac follows_leaf :=
  unfold follows; ctl_eval;
  first
    [ exists []; split; [symmetry; apply app_nil_r | reflexivity]
    | eexists (cons _ nil); split; [reflexivity |];
      cbn [dispatched flat_map app threads];
      do 2 eexists; split; [reflexivity |]; split; [| reflexivity];
      match goal with
      | E : consume _ _ _ = _ |- _ => rewrite E; reflexivity
      end ].

Ltac raised_leaf :=
  let H := fresh in
  intros H;
  first
    [ discriminate H
    | subst; unfold raised_by_consumer; ctl_eval;
      exists []; do 4 eexists;
      split; [reflexivity |]; split; [reflexivity |];
      split; [eassumption | reflexivity] ].

Ltac safe_leaf :=
  ctl_eval;
  lazymatch goal with
  | |- _ /\ _ /\ _ => split; [sound_leaf | split; [follows_leaf | raised_leaf]]
  | |- _ /\ _ => split; [sound_leaf | follows_leaf]
  end.

Lemma threads_app (o o' o'' : option CS) calls calls' :
  threads consume o calls o' ->
  threads consume o' calls' o'' ->
  threads consume o (calls ++ calls') o''.
Proof.
  revert o. induction calls as [| [data byteStart] calls IH]; intros o H H'.
  - cbn in H. subst o'. exact H'.
  - cbn [app threads] in *. destruct H as (cs & cs' & Ho & Hcall & H).
    exists cs, cs'. split; [exact Ho |]. split; [exact Hcall |].
    now apply IH.
Qed.

Lemma dispatched_app (events events' : list Event) :
  dispatched (events ++ events') = dispatched events ++ dispatched events'.
Proof. apply flat_map_app. Qed.

Lemma follows_refl (s : Ctl) : follows consume s s.
Proof. exists []. split; [symmetry; apply app_nil_r | reflexivity]. Qed.

Lemma follows_trans (s s1 s2 : Ctl) :
  follows consume s s1 -> follows consume s1 s2 -> follows consume s s2.
Proof.
  intros (evs & Ht & Hc) (evs' & Ht' & Hc').
  exists (evs ++ evs'). split.
  - rewrite Ht', Ht. symmetry. apply app_assoc.
  - rewrite dispatched_app. exact (threads_app _ _ _ _ _ Hc Hc').
Qed.

Lemma raised_follows e (s s' : Ctl) :
  raised_by_consumer consume e s s' -> follows consume s s'.
Proof.
  intros (evs & data & byteStart & cs & cs' & Ht & Hc & Hcall & Hcs).
  exists (evs ++ [EvDataArrival data byteStart]). split; [exact Ht |].
  rewrite dispatched_app. apply (threads_app _ _ _ _ _ Hc).
  cbn. exists cs, cs'. split; [reflexivity |]. rewrite Hcall, Hcs.
  split; reflexivity.
Qed.

Lemma raised_after e (s s1 s2 : Ctl) :
  follows consume s s1 ->
  raised_by_consumer consume e s1 s2 ->
  raised_by_consumer consume e s s2.
Proof.
  intros (evs & Ht & Hc) (evs' & data & byteStart & cs & cs' & Ht' & Hc' & Hcall & Hcs).
  exists (evs ++ evs'), data, byteStart, cs, cs'. split.
  - rewrite Ht', Ht. rewrite <- !app_assoc. reflexivity.
  - split; [| split; [exact Hcall | exact Hcs]].
    rewrite dispatched_app. exact (threads_app _ _ _ _ _ Hc Hc').
Qed.

Lemma safe_flushStashBuffer (Hwb : well_behaved consume) dropUnconsumed (s : Ctl) :
  safe consume (_flushStashBuffer consume dropUnconsumed) s.
Proof.
  intros Hs. destruct s. unfold sound, buffer_tracked in Hs. cbn in Hs.
  destruct Hs as (Htracked & Hused & Hsize & Hinit). subst.
  unfold _flushStashBuffer.
  destruct _currentRange0 as [r |], _onDataArrival0 as [cs |], dropUnconsumed.
  all: repeat ctl_case Hwb.
  all: safe_leaf.
Qed.

Lemma safe_buffering_policy (Hwb : well_behaved consume) chunk byteStart (s : Ctl) :
  safe consume (buffering_policy consume chunk byteStart) s.
Proof.
  intros Hs. destruct s. unfold sound, buffer_tracked in Hs. cbn in Hs.
  destruct Hs as (Htracked & Hused & Hsize & Hinit). subst.
  pose proof (byteLength_nonneg chunk) as Hchunk.
  unfold buffering_policy, arrival_direct, arrival_merge, arrival_stash,
    arrival_flush_then_stash, arrival_oversized.
  destruct _currentRange0 as [r |], _onDataArrival0 as [cs |], _enableStash0.
  all: repeat ctl_case Hwb.
  all: safe_leaf.
Qed.

Lemma safe_ret {A} (a : A) (s : Ctl) : safe consume (ret a) s.
Proof. intros Hs. split; [exact Hs | apply follows_refl]. Qed.

Lemma safe_throw {A} (e : Exn) (s : Ctl) :
  e <> RangeError -> safe consume (@throw _ A e) s.
Proof.
  intros He Hs. split; [exact Hs |].
  split; [apply follows_refl | intros E; contradiction].
Qed.

Lemma safe_modify f (s : Ctl) :
  (sound s -> sound (f s)) ->
  trace (f s) = trace s ->
  _onDataArrival (f s) = _onDataArrival s ->
  safe consume (modify f) s.
Proof.
  intros H Ht Hc Hs. split; [exact (H Hs) |].
  exists []. split; [rewrite Ht; symmetry; apply app_nil_r | exact Hc].
Qed.

Lemma safe_bind {A B} (m : MC A) (k : A -> MC B) (s : Ctl) :
  safe consume m s ->
  (forall a s', m s = Ok a s' -> safe consume (k a) s') ->
  safe consume (bind m k) s.
Proof.
  unfold safe, bind. intros Hm Hk Hs. specialize (Hm Hs).
  destruct (m s) as [a s1 | e s1 |] eqn:E; [| exact Hm | exact Hm].
  destruct Hm as (Hs1 & Hf). specialize (Hk a s1 eq_refl Hs1).
  destruct (k a s1) as [b s2 | e s2 |]; [| | exact Hk].
  - destruct Hk as (Hs2 & Hf'). split; [exact Hs2 |].
    exact (follows_trans _ _ _ Hf Hf').
  - destruct Hk as (Hs2 & Hf' & Hr). split; [exact Hs2 |].
    split; [exact (follows_trans _ _ _ Hf Hf') |].
    intros He. exact (raised_after _ _ _ _ Hf (Hr He)).
Qed.

Lemma safe_bind_get {B} (k : Ctl -> MC B) (s : Ctl) :
  safe consume (k s) s -> safe consume (bind get k) s.
Proof. intros H. exact H. Qed.

Ltac safe_modify :=
  apply safe_modify;
  [ unfold sound, buffer_tracked; cbn; intros; lia | reflexivity | reflexivity ].

Ltac safe_step :=
  lazymatch goal with
  | |- safe _ (ret _) _ => apply safe_ret
  | |- safe _ (throw _) _ => apply safe_throw; discriminate
  | |- safe _ (bind get _) _ => apply safe_bind_get; cbv beta
  | |- safe _ (bind _ _) _ => apply safe_bind; [| intros ? ? _]
  | |- safe _ (when ?c _) _ => destruct c eqn:?; cbn [when]
  | |- safe _ (emit _) _ => solve [auto with safe]
  | |- safe _ (modify _) _ => safe_modify
  | |- safe _ (if ?c then _ else _) _ => destruct c eqn:?
  | |- safe _ (match ?x with _ => _ end) _ => destruct x eqn:?
  | |- safe _ _ _ => solve [auto with safe]
  end.

Ltac safe_tac := repeat safe_step.

Create HintDb safe.

Lemma safe_emit e (s : Ctl) : dispatched [e] = [] -> safe consume (emit e) s.
Proof.
  intros He Hs. unfold emit, modify. split.
  - destruct s. exact Hs.
  - exists [e]. split; [destruct s; reflexivity |]. rewrite He.
    destruct s. reflexivity.
Qed.

Hint Extern 1 (safe _ (emit _) _) => apply safe_emit; reflexivity : safe.

Lemma safe_loader_isWorking (s : Ctl) : safe consume loader_isWorking s.
Proof. unfold loader_isWorking, with_loader. safe_tac. Qed.

Lemma safe_loader_abort (s : Ctl) : safe consume loader_abort s.
Proof. unfold loader_abort, with_loader. safe_tac. Qed.

Lemma safe_loader_destroy (s : Ctl) : safe consume loader_destroy s.
Proof. unfold loader_destroy, with_loader. safe_tac. Qed.

Lemma safe_loader_open r (s : Ctl) : safe consume (loader_open r) s.
Proof. unfold loader_open, with_loader. safe_tac. Qed.

Hint Resolve safe_loader_isWorking safe_loader_abort safe_loader_destroy
  safe_loader_open : safe.

Lemma safe_createLoader (s : Ctl) : safe consume _createLoader s.
Proof. unfold _createLoader. safe_tac. Qed.

Lemma safe_currentRange (s : Ctl) : safe consume currentRange s.
Proof. unfold currentRange. safe_tac. Qed.

Hint Resolve safe_createLoader safe_currentRange : safe.

Lemma safe_set_currentRange_to v (s : Ctl) : safe consume (set_currentRange_to v) s.
Proof. unfold set_currentRange_to. safe_tac. Qed.

Lemma safe_surface_error type code (s : Ctl) : safe consume (surface_error type code) s.
Proof. unfold surface_error. safe_tac. Qed.

Hint Resolve safe_set_currentRange_to safe_surface_error : safe.

Lemma safe_adjustStashSize normalized (s : Ctl) :
  0 < normalized -> safe consume (_adjustStashSize normalized) s.
Proof.
  intros Hn (Htracked & Hused & Hsize & Hinit). unfold buffer_tracked in Htracked.
  destruct (adjustStashSize_result s normalized Hn ltac:(lia) ltac:(lia) ltac:(lia))
    as (n & B & Hrun & Hle & Hfit & HB & _).
  pose proof (stash_target_KB_bounds (isLive (_config s)) normalized Hn) as (Hkb & _).
  rewrite Hrun. split.
  - unfold sound, buffer_tracked. cbn. specialize (HB Htracked). lia.
  - exists []. cbn. split; [symmetry; apply app_nil_r | reflexivity].
Qed.

Section Safety.

Hypothesis Hwb : well_behaved consume.

Lemma safe_internalSeek bytes dropUnconsumed (s : Ctl) :
  safe consume (_internalSeek consume bytes dropUnconsumed) s.
Proof.
  unfold _internalSeek. safe_tac. apply safe_flushStashBuffer. exact Hwb.
Qed.

Lemma safe_open optionalFrom (s : Ctl) : safe consume (open optionalFrom) s.
Proof. unfold open. safe_tac. Qed.

Lemma safe_abort (s : Ctl) : safe consume abort s.
Proof. unfold abort. safe_tac. Qed.

Lemma safe_pause (s : Ctl) : safe consume pause s.
Proof. unfold pause. safe_tac. Qed.

Lemma safe_resume (s : Ctl) : safe consume (resume consume) s.
Proof. unfold resume. safe_tac. apply safe_internalSeek. Qed.

Lemma safe_seek bytes (s : Ctl) : safe consume (seek consume bytes) s.
Proof. unfold seek. safe_tac. apply safe_internalSeek. Qed.

Lemma safe_onContentLengthKnown n (s : Ctl) : safe consume (_onContentLengthKnown n) s.
Proof. unfold _onContentLengthKnown. safe_tac. Qed.

Lemma safe_onURLRedirect url (s : Ctl) : safe consume (_onURLRedirect url) s.
Proof. unfold _onURLRedirect. safe_tac. Qed.

Lemma safe_onLoaderComplete from_ to_ (s : Ctl) :
  safe consume (_onLoaderComplete consume from_ to_) s.
Proof.
  unfold _onLoaderComplete. safe_tac. apply safe_flushStashBuffer. exact Hwb.
Qed.

Lemma safe_onLoaderError type code (s : Ctl) :
  safe consume (_onLoaderError consume type code) s.
Proof.
  unfold _onLoaderError. safe_tac.
  all: try (apply safe_flushStashBuffer; exact Hwb).
  all: apply safe_internalSeek.
Qed.

Lemma safe_onLoaderChunkArrival chunk byteStart receivedLength KBps (s : Ctl) :
  safe consume (_onLoaderChunkArrival consume chunk byteStart receivedLength KBps) s.
Proof.
  unfold _onLoaderChunkArrival. safe_tac.
  all: try (apply safe_buffering_policy; exact Hwb).
  all: apply safe_adjustStashSize;
    match goal with
    | H : _normalizeSpeed _ = Some _ |- _ => apply normalizeSpeed_bounds in H; lia
    end.
Qed.

Lemma safe_exec op (s : Ctl) : safe consume (exec consume op) s.
Proof.
  destruct op; cbn [exec];
    auto using safe_open, safe_abort, safe_pause, safe_resume, safe_seek,
      safe_onContentLengthKnown, safe_onURLRedirect, safe_onLoaderChunkArrival,
      safe_onLoaderComplete, safe_onLoaderError.
Qed.

Lemma sound_run (ops : list Op) :
  forall s : Ctl, sound s -> exists s', run consume ops s = Some s' /\ sound s'.
Proof.
  induction ops as [| op ops IH]; intros s Hs; [now exists s |].
  unfold run in *. cbn [run_all].
  pose proof (safe_exec op s Hs) as H.
  destruct (exec consume op s) as [a s1 | e s1 |]; cbn [state_of];
    [apply IH; apply H | apply IH; apply H | contradiction].
Qed.

End Safety.

(** X4: whatever the operations of a session and their order, with a
    consumer that returns a count between 0 and the length it was given or
    raises, no call hangs and the sizes fit at the end as they did at the
    start: [_bufferSize] is the length of the buffer, [_stashUsed] lies
    between 0 and [_bufferSize], and [_stashSize] and [_stashInitialSize]
    are positive and at most [_bufferSize]. *)
Theorem session_ends_with_sizes_that_fit :
  forall (ops : list Op) (s : Ctl),
    well_behaved consume ->
    sound s ->
    exists s', run consume ops s = Some s' /\ sound s'.
Proof. intros ops s Hwb Hs. exact (sound_run Hwb ops s Hs). Qed.

(** X5: in such a session the controller raises no RangeError of its own:
    when an operation ends with a RangeError, that RangeError is the one
    the consumer raised in the last call the operation made of it.  The
    operation's trace ends with that call, [EvDataArrival data byteStart];
    the call was made on the consumer as the operation's earlier calls,
    the ones logged in [events], left it; the call itself raised
    RangeError; and the object the operation leaves holds the consumer as
    the raising call left it. *)
Theorem range_errors_come_from_the_consumer :
  forall (ops : list Op) (op : Op) (s s1 s2 : Ctl),
    well_behaved consume ->
    sound s ->
    run consume ops s = Some s1 ->
    exec consume op s1 = Throw RangeError s2 ->
    exists events data byteStart cs cs',
      trace s2 = trace s1 ++ events ++ [EvDataArrival data byteStart] /\
      threads consume (_onDataArrival s1) (dispatched events) (Some cs) /\
      consume cs data byteStart = Throw RangeError cs' /\
      _onDataArrival s2 = Some cs'.
Proof.
  intros ops op s s1 s2 Hwb Hs Hrun Hop.
  destruct (sound_run Hwb ops s Hs) as (s' & Hrun' & Hs').
  assert (s' = s1) by congruence. subst s'.
  pose proof (safe_exec Hwb op s1 Hs') as H.
  rewrite Hop in H. destruct H as (_ & _ & H). exact (H eq_refl).
Qed.

(** X6: the object the constructor makes has sizes that fit exactly when
    [config.stashInitialSize], if given, is at most the 3 MiB of the
    initial buffer. *)
Theorem constructor_sizes_fit_unless_initial_stash_exceeds_buffer :
  forall (filesize : option Z) (config : Config) (loaderClass : LoaderClass),
    sound (IOController_new filesize config loaderClass : Ctl) <->
    (forall v, stashInitialSize config = Some v -> v <= 1024 * 1024 * 3).
Proof.
  intros filesize config loaderClass.
  unfold sound, buffer_tracked, IOController_new. cbn.
  destruct (stashInitialSize config) as [v |].
  - destruct (0 <? v) eqn:E; [apply Z.ltb_lt in E | apply Z.ltb_ge in E]; split.
    + intros (_ & _ & H & _) w [= <-]. lia.
    + intros H. specialize (H v eq_refl). lia.
    + intros _ w [= <-]. lia.
    + intros _. lia.
  - split; [intros _ w; discriminate | intros _; lia].
Qed.

(** *** What an arrival leaves in the stash *)

Lemma ab_read_nth (b : ArrayBuffer) (off len : Z) (i : nat) :
  (i < Z.to_nat len)%nat ->
  nth i (ab_read b off len) x00 = ab_byteAt b (off + Z.of_nat i).
Proof. intros H. unfold ab_read. now rewrite nth_map_seq. Qed.

Lemma ab_read_length (b : ArrayBuffer) (off len : Z) :
  List.length (ab_read b off len) = Z.to_nat len.
Proof. unfold ab_read. now rewrite length_map, length_seq. Qed.

Lemma ab_read_skipn (b : ArrayBuffer) (c m : Z) :
  0 <= c -> 0 <= m ->
  skipn (Z.to_nat c) (ab_read b 0 (c + m)) = ab_read b c m.
Proof.
  intros Hc Hm. apply (nth_ext _ _ x00 x00).
  - rewrite length_skipn, !ab_read_length. lia.
  - intros i Hi. rewrite length_skipn, ab_read_length in Hi.
    rewrite nth_skipn, !ab_read_nth by lia. f_equal. lia.
Qed.

(** After the bytes from [c] on are moved to the front, the front holds
    what was behind [c]. *)
Lemma ab_read_moved_front (b : ArrayBuffer) (c m len : Z) :
  0 <= c -> 0 <= m <= len ->
  ab_read (ab_write b 0 (ab_read b c len)) 0 m
  = skipn (Z.to_nat c) (ab_read b 0 (c + m)).
Proof.
  intros Hc Hm. rewrite ab_read_skipn by lia.
  apply (nth_ext _ _ x00 x00).
  - now rewrite !ab_read_length.
  - intros i Hi. rewrite ab_read_length in Hi.
    rewrite !ab_read_nth by lia. cbn [ab_byteAt ab_write].
    rewrite byteLength_ab_read by lia.
    replace (0 <=? 0 + Z.of_nat i) with true by (symmetry; apply Z.leb_le; lia).
    replace (0 + Z.of_nat i <? 0 + len) with true
      by (symmetry; apply Z.ltb_lt; lia).
    cbn [andb]. rewrite ab_read_nth by lia. f_equal. lia.
Qed.

Lemma ab_read_nil (b : ArrayBuffer) (off : Z) : ab_read b off 0 = [].
Proof. reflexivity. Qed.

Lemma skipn_app_front (l1 l2 : list byte) (c : Z) :
  0 <= c <= byteLength l1 ->
  skipn (Z.to_nat c) (l1 ++ l2) = skipn (Z.to_nat c) l1 ++ l2.
Proof.
  intros H. rewrite skipn_app.
  replace (Z.to_nat c - List.length l1)%nat with 0%nat
    by (unfold byteLength in H; lia).
  reflexivity.
Qed.

Lemma skipn_whole (l : list byte) (c : Z) :
  byteLength l <= c -> skipn (Z.to_nat c) l = [].
Proof. intros H. apply skipn_all2. unfold byteLength in H. lia. Qed.

Ltac ctl_run Hatt :=
  ctl_eval; len_norm; rewrite ?ab_read_write_append by lia;
  match goal with
  | |- context [match consume ?cs ?d ?b with _ => _ end] =>
      let c := fresh "c" in
      let cs' := fresh "cs'" in
      let E := fresh "Econsume" in
      let Hb := fresh "Hbound" in
      destruct (Hatt cs d b) as (c & cs' & E & Hb);
      rewrite E; len_norm_in Hb
  | |- context [if (if ?b then _ else _) then _ else _] =>
      first [ replace b with true by (symmetry; prove_test)
            | replace b with false by (symmetry; prove_test)
            | let E := fresh "Etest" in destruct b eqn:E; bool_prop ]
  | |- context [if ?b then _ else _] =>
      first [ replace b with true by (symmetry; prove_test)
            | replace b with false by (symmetry; prove_test)
            | let E := fresh "Etest" in destruct b eqn:E; bool_prop ]
  | |- context [_expandBuffer ?e ?x] =>
      let n := fresh "n" in
      let B := fresh "B" in
      let Hrun := fresh "Hrun" in
      let Hle := fresh "Hle" in
      let HB := fresh "HB" in
      let Hread := fresh "Hread" in
      destruct (expandBuffer_result x e) as (n & B & Hrun & Hle & HB & Hread & _);
      [ sound_leaf | sound_leaf | sound_leaf | sound_leaf | ];
      rewrite Hrun; clear Hrun; ctl_eval_in Hread
  end.

Lemma add_sub_back (c x : Z) : c + (x - c) = x.
Proof. lia. Qed.

Ltac skip_count :=
  match goal with
  | |- context [Z.to_nat ?e] =>
      lazymatch e with
      | _ - _ =>
          first [ replace e with 0 by lia
                | match goal with c : Z |- _ => replace e with c by lia end ]
      end
  end.

Ltac use_kept :=
  repeat match goal with
         | H : ab_read _ 0 _ = ab_read _ 0 _ |- _ => rewrite H
         end.

Ltac nothing_consumed :=
  repeat match goal with
         | H1 : ?c <= 0, H2 : 0 <= ?c <= _ |- _ =>
             is_var c; assert (c = 0) by lia; subst c
         end.

Ltac content_leaf :=
  try subst; nothing_consumed;
  try skip_count;
  rewrite ?Z.add_0_l, ?Z.sub_0_r, ?ab_read_nil; cbn [app];
  first [ rewrite skipn_whole by (len_norm; lia)
        | rewrite skipn_app_front by (len_norm; lia);
          rewrite ?skipn_whole by (len_norm; lia)
        | idtac ];
  cbn [Z.to_nat skipn app];
  repeat first
    [ rewrite ab_read_nil
    | rewrite ab_read_write_append by lia
    | rewrite ab_read_write_front by (len_norm; lia)
    | rewrite ab_read_moved_front by lia; rewrite ?add_sub_back ];
  use_kept;
  first [ reflexivity
        | rewrite ab_read_write_front by (len_norm; lia); reflexivity
        | match goal with
          | |- ab_read _ _ ?e = [] => replace e with 0 by lia; reflexivity
          end ].

Ltac settle_offset :=
  try match goal with
      | |- context [?u =? 0] =>
          first [ replace (u =? 0) with false by (symmetry; apply Z.eqb_neq; lia)
                | replace (u =? 0) with true by (symmetry; apply Z.eqb_eq; lia) ]
      end.

Ltac dispatch_leaf :=
  first
    [ left; split; [reflexivity |]; split; [lia | reflexivity]
    | right; eexists _, _, _;
      split; [settle_offset; reflexivity |];
      split; [reflexivity |];
      split; [reflexivity |];
      split;
      [ settle_offset;
        match goal with
        | E : consume _ _ _ = Ok _ _ |- _ => rewrite E; f_equal; lia
        end
      | first [ left; reflexivity
              | right; use_kept; reflexivity ] ] ].

Ltac step_leaf :=
  try subst; nothing_consumed;
  split; [lia |];
  split; [content_leaf |];
  split; [sound_leaf |];
  split; [repeat split |];
  split; [discriminate |];
  split; [reflexivity |];
  split; [reflexivity |];
  split; [intros; try discriminate; lia |];
  split; [intros; try discriminate; settle_offset; use_kept; reflexivity |];
  dispatch_leaf.

(** One run of the policy, from a sound object with an open range and an
    attentive consumer. *)
Lemma policy_step (Hatt : attentive consume) chunk byteStart (s : Ctl) :
  sound s ->
  _currentRange s <> None ->
  _onDataArrival s <> None ->
  returns (buffering_policy consume chunk byteStart s) (fun _ s' =>
    0 <= _stashUsed s' <= _stashUsed s + byteLength chunk /\
    stash_bytes s'
    = skipn (Z.to_nat (_stashUsed s + byteLength chunk - _stashUsed s'))
            (stash_bytes s ++ chunk) /\
    sound s' /\
    same_settings s s' /\
    _currentRange s' <> None /\
    lastByteStart s' = lastByteStart s /\
    _isEarlyEofReconnecting s' = _isEarlyEofReconnecting s /\
    (_enableStash s = false ->
     (0 < _stashUsed s -> _stashByteStart s + _stashUsed s = byteStart) ->
     0 < _stashUsed s' ->
     _stashByteStart s' + _stashUsed s' = byteStart + byteLength chunk) /\
    (_enableStash s = false ->
     trace s'
     = trace s ++ [EvDataArrival (stash_bytes s ++ chunk)
                                 (if _stashUsed s =? 0 then byteStart
                                  else _stashByteStart s)]) /\
    (trace s' = trace s /\
     _stashUsed s' = _stashUsed s + byteLength chunk /\
     _onDataArrival s' = _onDataArrival s
     \/
     exists data cs cs',
       trace s'
       = trace s ++ [EvDataArrival data (if _stashUsed s =? 0 then byteStart
                                         else _stashByteStart s)] /\
       _onDataArrival s = Some cs /\
       _onDataArrival s' = Some cs' /\
       consume cs data (if _stashUsed s =? 0 then byteStart else _stashByteStart s)
       = Ok (_stashUsed s + byteLength chunk - _stashUsed s') cs' /\
       (data = stash_bytes s \/ data = stash_bytes s ++ chunk))).
Proof.
  intros Hs Hr Hcs. destruct s. unfold sound, buffer_tracked in Hs. cbn in Hs, Hr, Hcs.
  destruct Hs as (Htracked & Hused & Hsize & Hinit). subst.
  pose proof (byteLength_nonneg chunk) as Hchunk.
  destruct _currentRange0 as [r |]; [| contradiction].
  destruct _onDataArrival0 as [cs |]; [| contradiction].
  unfold stash_bytes. cbn [_stashUsed _stashBuffer trace lastByteStart
                           _isEarlyEofReconnecting _enableStash _stashByteStart
                           _onDataArrival].
  match goal with |- returns _ ?P => set (post := P) end.
  unfold buffering_policy, arrival_direct, arrival_merge, arrival_stash,
    arrival_flush_then_stash, arrival_oversized.
  destruct _enableStash0.
  all: repeat ctl_run Hatt.
  all: unfold returns, post; clear post; ctl_eval.
  all: step_leaf.
Qed.

(** What [_onLoaderChunkArrival] does before the policy runs: it records
    the offset, reports a recovery and retunes the target. *)
Lemma arrival_prelude (s : Ctl) (cs : CS) chunk byteStart receivedLength KBps :
  sound s ->
  _onDataArrival s = Some cs ->
  _paused s = false ->
  exists s1,
    _onLoaderChunkArrival consume chunk byteStart receivedLength KBps s
    = buffering_policy consume chunk byteStart s1 /\
    sound s1 /\
    _stashUsed s1 = _stashUsed s /\
    stash_bytes s1 = stash_bytes s /\
    _stashByteStart s1 = _stashByteStart s /\
    _enableStash s1 = _enableStash s /\
    _currentRange s1 = _currentRange s /\
    _onDataArrival s1 = Some cs /\
    _paused s1 = false /\
    lastByteStart s1 = byteStart /\
    _stashSize s1 = target_for s KBps /\
    dispatched (trace s1) = dispatched (trace s).
Proof.
  intros Hs Hcs Hp.
  destruct (normalizeSpeed_tier KBps) as (tier & Htier & _).
  pose proof (normalizeSpeed_bounds _ _ Htier) as Hbounds.
  destruct s. unfold sound, buffer_tracked in Hs. cbn in Hs, Hcs, Hp.
  destruct Hs as (Htracked & Hused & Hsize & Hinit). subst.
  unfold _onLoaderChunkArrival, target_for, stash_bytes, dispatched.
  cbn [_stashUsed _stashBuffer _stashByteStart _enableStash _currentRange
       _onDataArrival _paused lastByteStart _stashSize trace _speedNormalized
       _config].
  rewrite Htier.
  destruct _isEarlyEofReconnecting0, _onRecoveredEarlyEof0, (Qeq_bool KBps 0);
    ctl_eval; try destruct (_speedNormalized0 =? tier); ctl_eval.
  all: try match goal with
           | |- context [_adjustStashSize ?t ?x] =>
               destruct (adjustStashSize_result x t) as (n & B & Hrun & Hle & Hfit & HB & Hread);
               [lia | cbn; lia | cbn; lia | cbn; lia |];
               pose proof (stash_target_KB_bounds (isLive _config0) tier ltac:(lia))
                 as (Hkb & _);
               rewrite Hrun; clear Hrun; cbn in Hle, Hfit, HB, Hread;
               specialize (HB eq_refl)
           end.
  all: eexists; (split; [reflexivity |]); unfold sound, buffer_tracked; cbn;
    rewrite ?flat_map_app, ?app_nil_r; cbn; rewrite ?app_nil_r;
    repeat split; solve [auto | lia].
Qed.

(** One arrival, from a sound object that has a consumer, is not paused
    and has an open range. *)
Lemma arrival_step (Hatt : attentive consume) (s : Ctl) (cs : CS) chunk byteStart
    receivedLength KBps :
  sound s ->
  _onDataArrival s = Some cs ->
  _paused s = false ->
  _currentRange s <> None ->
  returns (_onLoaderChunkArrival consume chunk byteStart receivedLength KBps s)
    (fun _ s' =>
       0 <= _stashUsed s' <= _stashUsed s + byteLength chunk /\
       stash_bytes s'
       = skipn (Z.to_nat (_stashUsed s + byteLength chunk - _stashUsed s'))
               (stash_bytes s ++ chunk) /\
       sound s' /\
       _paused s' = false /\
       _currentRange s' <> None /\
       _onDataArrival s' <> None /\
       _enableStash s' = _enableStash s /\
       lastByteStart s' = byteStart /\
       (_enableStash s = false ->
        (0 < _stashUsed s -> _stashByteStart s + _stashUsed s = byteStart) ->
        0 < _stashUsed s' ->
        _stashByteStart s' + _stashUsed s' = byteStart + byteLength chunk) /\
       (_enableStash s = false ->
        dispatched (trace s')
        = dispatched (trace s)
          ++ [(stash_bytes s ++ chunk, dispatch_offset s byteStart)]) /\
       (dispatched (trace s') = dispatched (trace s) /\
        _stashUsed s' = _stashUsed s + byteLength chunk /\
        _onDataArrival s' = Some cs
        \/
        exists data cs',
          dispatched (trace s')
          = dispatched (trace s) ++ [(data, dispatch_offset s byteStart)] /\
          (data = stash_bytes s \/ data = stash_bytes s ++ chunk) /\
          consume cs data (dispatch_offset s byteStart)
          = Ok (_stashUsed s + byteLength chunk - _stashUsed s') cs' /\
          _onDataArrival s' = Some cs')).
Proof.
  intros Hs Hcs Hp Hr.
  destruct (arrival_prelude s cs chunk byteStart receivedLength KBps Hs Hcs Hp)
    as (s1 & Hrun & Hs1 & Hu1 & Hb1 & Hst1 & He1 & Hr1 & Hcs1 & Hp1 & Hl1 & _ & Hd1).
  rewrite Hrun.
  eapply returns_weaken.
  - apply (policy_step Hatt chunk byteStart s1 Hs1); congruence.
  - intros _ s'
      (Hb & Hbytes & Hsound & Hsame & Hr' & Hlast & Hre & Hoff & Hall & Hdisp).
    destruct Hsame as (_ & _ & He & _ & _ & _ & Hpaused & _).
    unfold dispatch_offset. rewrite Hu1, Hb1, Hst1, He1 in *.
    split; [exact Hb |]. split; [exact Hbytes |]. split; [exact Hsound |].
    split; [congruence |]. split; [exact Hr' |].
    split; [destruct Hdisp as [(_ & _ & Hc) | (? & ? & ? & _ & _ & Hc & _)]; congruence |].
    split; [exact He |]. split; [congruence |]. split; [exact Hoff |].
    split.
    { intros Hno. rewrite (Hall Hno). unfold dispatched in *.
      rewrite flat_map_app, Hd1. reflexivity. }
    destruct Hdisp as [(Ht & Hu & Hc) | (data & c0 & c1 & Ht & Hc0 & Hc1 & Hcall & Hdata)].
    + left. rewrite Ht. split; [exact Hd1 |]. split; [exact Hu | congruence].
    + right. exists data, c1.
      rewrite Ht. unfold dispatched in *. rewrite flat_map_app, Hd1. cbn [flat_map app].
      split; [reflexivity |]. split; [exact Hdata |].
      split; [| exact Hc1].
      replace cs with c0 by congruence. exact Hcall.
Qed.

(** X8: one arrival at a controller that has a consumer, is not paused and
    has an open range.  The consumer is called at most once, with the stash
    or with the stash followed by the chunk, at the start of the stash when
    the stash holds bytes and at the offset of the chunk otherwise; the
    stash then holds the stash followed by the chunk without the count the
    consumer returned (the whole of it when the consumer is not called). *)
Theorem arrival_hands_over_pending_bytes_and_keeps_the_rest :
  forall (s : Ctl) (cs : CS) (chunk : list byte) (byteStart receivedLength : Z)
         (KBps : Q),
    attentive consume ->
    sound s ->
    _onDataArrival s = Some cs ->
    _paused s = false ->
    _currentRange s <> None ->
    returns (_onLoaderChunkArrival consume chunk byteStart receivedLength KBps s)
      (fun _ s' =>
         exists consumed,
           0 <= consumed <= _stashUsed s + byteLength chunk /\
           _stashUsed s' = _stashUsed s + byteLength chunk - consumed /\
           stash_bytes s' = skipn (Z.to_nat consumed) (stash_bytes s ++ chunk) /\
           (dispatched (trace s') = dispatched (trace s) /\
            consumed = 0 /\ _onDataArrival s' = Some cs
            \/
            exists data cs',
              dispatched (trace s')
              = dispatched (trace s) ++ [(data, dispatch_offset s byteStart)] /\
              (data = stash_bytes s \/ data = stash_bytes s ++ chunk) /\
              consume cs data (dispatch_offset s byteStart) = Ok consumed cs' /\
              _onDataArrival s' = Some cs')).
Proof.
  intros s cs chunk byteStart receivedLength KBps Hatt Hs Hcs Hp Hr.
  eapply returns_weaken.
  - exact (arrival_step Hatt s cs chunk byteStart receivedLength KBps Hs Hcs Hp Hr).
  - intros _ s' (Hb & Hbytes & _ & _ & _ & _ & _ & _ & _ & _ & Hdisp).
    exists (_stashUsed s + byteLength chunk - _stashUsed s').
    split; [lia |]. split; [lia |]. split; [exact Hbytes |].
    destruct Hdisp as [(Ht & Hu & Hc) | Hd]; [left | right; exact Hd].
    split; [exact Ht |]. split; [lia | exact Hc].
Qed.

(** X10: with the stash disabled, an arrival whose chunk follows the bytes
    of the stash hands the consumer all pending bytes, the stash followed
    by the chunk, at the stream offset of the first of them; a remainder
    that is kept ends where the chunk ends. *)
Theorem without_stash_every_arrival_dispatches_all_pending_bytes :
  forall (s : Ctl) (cs : CS) (chunk : list byte) (byteStart receivedLength : Z)
         (KBps : Q),
    attentive consume ->
    sound s ->
    _onDataArrival s = Some cs ->
    _paused s = false ->
    _currentRange s <> None ->
    _enableStash s = false ->
    (0 < _stashUsed s -> _stashByteStart s + _stashUsed s = byteStart) ->
    returns (_onLoaderChunkArrival consume chunk byteStart receivedLength KBps s)
      (fun _ s' =>
         dispatched (trace s')
         = dispatched (trace s)
           ++ [(stash_bytes s ++ chunk, byteStart - _stashUsed s)] /\
         (0 < _stashUsed s' ->
          _stashByteStart s' + _stashUsed s' = byteStart + byteLength chunk) /\
         _enableStash s' = false).
Proof.
  intros s cs chunk byteStart receivedLength KBps Hatt Hs Hcs Hp Hr Hno Hends.
  eapply returns_weaken.
  - exact (arrival_step Hatt s cs chunk byteStart receivedLength KBps Hs Hcs Hp Hr).
  - intros _ s' (_ & _ & _ & _ & _ & _ & He & _ & Hoff & Hall & _).
    split; [| split; [auto | congruence]].
    rewrite (Hall Hno). unfold dispatch_offset.
    destruct Hs as (_ & Hused & _).
    destruct (_stashUsed s =? 0) eqn:E;
      [apply Z.eqb_eq in E; rewrite E, Z.sub_0_r; reflexivity |].
    apply Z.eqb_neq in E. repeat f_equal. lia.
Qed.




(** *** Flushing *)

Ltac settle_eqb :=
  repeat match goal with
         | |- context [?a =? ?b] =>
             first [ replace (a =? b) with false by (symmetry; apply Z.eqb_neq; lia)
                   | replace (a =? b) with true by (symmetry; apply Z.eqb_eq; lia) ]
         end.

Ltac kept_leaf :=
  rewrite ?ab_read_nil;
  first [ reflexivity
        | rewrite skipn_whole by (len_norm; lia); reflexivity
        | apply ab_read_write_front; len_norm; lia ].

Ltac flush_leaf :=
  try subst; nothing_consumed;
  split; [sound_leaf |];
  split; [repeat split |];
  split; [reflexivity |];
  split; [reflexivity |];
  split; [reflexivity |];
  first
    [ left; split; [lia |]; split; reflexivity
    | right; split; [lia |]; eexists _, _;
      split; [eassumption |];
      split; [lia |];
      split; [reflexivity |];
      split; [reflexivity |];
      split; [reflexivity |];
      first [ split; [lia |]; split; reflexivity
            | split; [first [reflexivity | lia] |];
              split; [len_norm; lia |];
              split; [kept_leaf |];
              settle_eqb; first [reflexivity | lia] ] ].

(** One flush, from a sound object with an open range and an attentive
    consumer. *)
Lemma flush_step (Hatt : attentive consume) dropUnconsumed (s : Ctl) (r : Range)
    (cs : CS) :
  sound s ->
  _currentRange s = Some r ->
  _onDataArrival s = Some cs ->
  returns (_flushStashBuffer consume dropUnconsumed s) (fun v s' =>
    sound s' /\
    same_settings s s' /\
    lastByteStart s' = lastByteStart s /\
    _isEarlyEofReconnecting s' = _isEarlyEofReconnecting s /\
    _stashSize s' = _stashSize s /\
    (_stashUsed s = 0 /\ v = 0 /\ s' = s
     \/
     0 < _stashUsed s /\
     exists consumed cs',
       consume cs (stash_bytes s) (_stashByteStart s) = Ok consumed cs' /\
       0 <= consumed <= _stashUsed s /\
       _onDataArrival s' = Some cs' /\
       trace s' = trace s ++ [EvDataArrival (stash_bytes s) (_stashByteStart s)] /\
       _currentRange s'
       = Some {| from := from r; to := _stashByteStart s + _stashUsed s - 1 |} /\
       (if dropUnconsumed
        then v = _stashUsed s - consumed /\
             _stashUsed s' = 0 /\ _stashByteStart s' = 0
        else v = 0 /\
             _stashUsed s' = _stashUsed s - consumed /\
             stash_bytes s' = skipn (Z.to_nat consumed) (stash_bytes s) /\
             _stashByteStart s'
             = if consumed =? _stashUsed s then 0
               else _stashByteStart s + consumed))).
Proof.
  intros Hs Hr Hcs. destruct s. unfold sound, buffer_tracked in Hs. cbn in Hs, Hr, Hcs.
  destruct Hs as (Htracked & Hused & Hsize & Hinit). subst.
  unfold stash_bytes. cbn [_stashUsed _stashBuffer trace lastByteStart
                           _isEarlyEofReconnecting _enableStash _stashByteStart
                           _onDataArrival _stashSize _currentRange].
  match goal with |- returns _ ?P => set (post := P) end.
  unfold _flushStashBuffer.
  destruct dropUnconsumed.
  all: repeat ctl_run Hatt.
  all: unfold returns, post; clear post; ctl_eval.
  all: flush_leaf.
Qed.

(** X12: [_flushStashBuffer] on an empty stash returns 0 and changes
    nothing.  On a stash that holds bytes it calls the consumer once, with
    the whole stash at its start, and sets the end of the range to the last
    byte of the stash; when asked to drop it empties the stash and returns
    the number of bytes the consumer left, otherwise it returns 0 and keeps
    the bytes the consumer left, from the offset after those it took. *)
Theorem flush_dispatches_the_stash_then_keeps_or_drops_the_rest :
  forall (s : Ctl) (r : Range) (cs : CS) (dropUnconsumed : bool),
    attentive consume ->
    sound s ->
    _currentRange s = Some r ->
    _onDataArrival s = Some cs ->
    returns (_flushStashBuffer consume dropUnconsumed s) (fun v s' =>
      _stashUsed s = 0 /\ v = 0 /\ s' = s
      \/
      0 < _stashUsed s /\
      exists consumed cs',
        consume cs (stash_bytes s) (_stashByteStart s) = Ok consumed cs' /\
        _onDataArrival s' = Some cs' /\
        trace s' = trace s ++ [EvDataArrival (stash_bytes s) (_stashByteStart s)] /\
        _currentRange s'
        = Some {| from := from r; to := _stashByteStart s + _stashUsed s - 1 |} /\
        (if dropUnconsumed
         then v = _stashUsed s - consumed /\
              _stashUsed s' = 0 /\ _stashByteStart s' = 0
         else v = 0 /\
              _stashUsed s' = _stashUsed s - consumed /\
              stash_bytes s' = skipn (Z.to_nat consumed) (stash_bytes s) /\
              _stashByteStart s'
              = if consumed =? _stashUsed s then 0
                else _stashByteStart s + consumed)).
Proof.
  intros s r cs dropUnconsumed Hatt Hs Hr Hcs.
  eapply returns_weaken.
  - exact (flush_step Hatt dropUnconsumed s r cs Hs Hr Hcs).
  - intros v s' (_ & _ & _ & _ & _ & [H | (Hpos & c & cs' & Hc & _ & H)]);
      [left; exact H | right].
    split; [exact Hpos |]. exists c, cs'. split; [exact Hc | exact H].
Qed.

(** The object a flush without dropping leaves, as [_onLoaderError] goes
    on from it. *)
Lemma error_flush (Hatt : attentive consume) (s : Ctl) (r : Range) (cs : CS) :
  sound s ->
  _currentRange s = Some r ->
  _onDataArrival s = Some cs ->
  returns (_flushStashBuffer consume false s) (fun _ s1 =>
    sound s1 /\
    _config s1 = _config s /\
    _loader s1 = _loader s /\
    _totalLength s1 = _totalLength s /\
    _onError s1 = _onError s /\
    _isEarlyEofReconnecting s1 = _isEarlyEofReconnecting s /\
    trace s1 = trace s ++ flush_dispatch s /\
    _currentRange s1 = Some {| from := from r; to := next_from s r - 1 |}).
Proof.
  intros Hs Hr Hcs.
  eapply returns_weaken.
  - exact (flush_step Hatt false s r cs Hs Hr Hcs).
  - intros v s1 (Hs1 & Hsame & _ & Hre & _ & Hcase).
    destruct Hsame as (Hcfg & _ & _ & Hldr & _ & Htot & _ & Hcb).
    split; [exact Hs1 |]. split; [exact Hcfg |]. split; [exact Hldr |].
    split; [exact Htot |]. split; [congruence |]. split; [exact Hre |].
    unfold flush_dispatch, next_from, stash_bytes in *.
    destruct Hcase as [(Hu & _ & ->) | (Hpos & c & cs' & _ & _ & _ & Ht & Hr1 & _)].
    + rewrite Hu. cbn. rewrite app_nil_r. split; [reflexivity |].
      rewrite Hr. destruct r. cbn. do 2 f_equal. lia.
    + replace (0 <? _stashUsed s) with true by (symmetry; apply Z.ltb_lt; lia).
      split; [exact Ht |]. rewrite Hr1. do 2 f_equal. lia.
Qed.

(** X13: a loader error that is not a recoverable EARLY_EOF (any error
    while a reconnection is in progress, any kind but EARLY_EOF, or an
    EARLY_EOF of a live source or of a source of unknown length) is handed
    to [onError] after the stash is dispatched, as UNRECOVERABLE_EARLY_EOF
    when it is an EARLY_EOF or arrives during a reconnection and as itself
    otherwise; without [onError] a RuntimeException is raised.  Either way
    the reconnection flag is clear afterwards. *)
Theorem loader_errors_are_surfaced_unless_recoverable :
  forall (s : Ctl) (r : Range) (cs : CS) (type : LoaderErrors) (code : Z),
    attentive consume ->
    sound s ->
    _currentRange s = Some r ->
    _onDataArrival s = Some cs ->
    (type = EARLY_EOF ->
     _isEarlyEofReconnecting s = true \/ isLive (_config s) = true \/
     truthy (_totalLength s) = false) ->
    match _onLoaderError consume type code s with
    | Ok _ s' =>
        _onError s = true /\
        trace s' = trace s ++ flush_dispatch s ++ [EvError (reported s type) code] /\
        _isEarlyEofReconnecting s' = false
    | Throw e s' =>
        _onError s = false /\
        e = RuntimeException /\
        trace s' = trace s ++ flush_dispatch s /\
        _isEarlyEofReconnecting s' = false
    | Hang => False
    end.
Proof.
  intros s r cs type code Hatt Hs Hr Hcs Hrec.
  pose proof (error_flush Hatt s r cs Hs Hr Hcs) as Hf.
  unfold _onLoaderError. unfold bind at 1.
  destruct (_flushStashBuffer consume false s) as [v s1 | |]; try contradiction.
  cbn [returns] in Hf.
  destruct Hf as (_ & Hcfg & _ & Htot & Herr & Hre & Ht & Hr1).
  unfold reported, flush_dispatch, next_from in *. clear Hs.
  destruct s, s1. cbn in Hcfg, Htot, Herr, Hre, Ht, Hr1, Hr, Hcs, Hrec. subst.
  destruct _config0 as [live ? ?]. cbn in Hrec.
  ctl_eval.
  destruct _isEarlyEofReconnecting0; ctl_eval.
  - destruct _onError0; ctl_eval; rewrite <- ?app_assoc; auto.
  - destruct type; ctl_eval;
      try (destruct _onError0; ctl_eval; rewrite <- ?app_assoc; solve [auto]).
    destruct Hrec as [H | [H | H]]; [reflexivity | discriminate | |]; subst.
    + ctl_eval. destruct _onError0; ctl_eval; rewrite <- ?app_assoc; auto.
    + unfold truthy in H. destruct _totalLength0 as [t |];
        [apply negb_false_iff in H |];
        destruct live; ctl_eval; rewrite ?H; ctl_eval;
        destruct _onError0; ctl_eval; rewrite <- ?app_assoc; auto.
Qed.

(** X14: an EARLY_EOF of a source that is not live, whose known total
    length is not above the offset after the last byte dispatched, is
    swallowed: the stash is dispatched, and then neither [onError] is
    called nor a loader opened, and the call returns. *)
Theorem early_eof_at_the_known_end_is_swallowed :
  forall (s : Ctl) (r : Range) (cs : CS) (total code : Z),
    attentive consume ->
    sound s ->
    _currentRange s = Some r ->
    _onDataArrival s = Some cs ->
    _isEarlyEofReconnecting s = false ->
    isLive (_config s) = false ->
    _totalLength s = Some total ->
    total <> 0 ->
    total <= next_from s r ->
    returns (_onLoaderError consume EARLY_EOF code s) (fun _ s' =>
      trace s' = trace s ++ flush_dispatch s /\
      _isEarlyEofReconnecting s' = false /\
      _loader s' = _loader s).
Proof.
  intros s r cs total code Hatt Hs Hr Hcs Hre0 Hlive Htotal Hne Hend.
  pose proof (error_flush Hatt s r cs Hs Hr Hcs) as Hf.
  unfold _onLoaderError. unfold bind at 1.
  destruct (_flushStashBuffer consume false s) as [v s1 | |]; try contradiction.
  cbn [returns] in Hf.
  destruct Hf as (_ & Hcfg & Hldr & Htot & Herr & Hre & Ht & Hr1).
  unfold flush_dispatch in *. clear Hs.
  set (nf := next_from s r) in *. clearbody nf.
  destruct s, s1.
  cbn in Hcfg, Hldr, Htot, Herr, Hre, Ht, Hr1, Hr, Hcs, Hre0, Hlive, Htotal. subst.
  destruct _config0 as [live ? ?]. cbn in Hlive. subst.
  ctl_eval.
  replace (total =? 0) with false by (symmetry; apply Z.eqb_neq; lia).
  ctl_eval.
  replace (nf - 1 + 1 <? total) with false by (symmetry; apply Z.ltb_ge; lia).
  cbn. auto.
Qed.

(** *** Seeking and aborting *)

(** X15: [seek] hands nothing to the consumer.  It aborts the loader if it
    works, destroys it, opens a new one at the offset and calls [onSeeked];
    afterwards the stash is empty with start 0, the target size is the
    initial one, the range starts at the offset and the controller is
    working and not paused. *)
Theorem seek_drops_the_stash_and_reopens :
  forall (s : Ctl) (l : Loader) (bytes : Z),
    _loader s = Some l ->
    returns (seek consume bytes s) (fun _ s' =>
      trace s'
      = trace s ++ (if ldr_working l then [EvLoaderAbort] else [])
        ++ [EvLoaderDestroy; EvLoaderOpen {| from := bytes; to := -1 |}]
        ++ (if _onSeeked s then [EvSeeked] else []) /\
      _stashUsed s' = 0 /\
      _stashByteStart s' = 0 /\
      _stashSize s' = _stashInitialSize s /\
      _currentRange s' = Some {| from := bytes; to := -1 |} /\
      _paused s' = false /\
      _onDataArrival s' = _onDataArrival s /\
      isWorking s' = true).
Proof.
  intros s l bytes Hl. destruct s, l as [working]. cbn in Hl. subst.
  unfold seek, _internalSeek, _flushStashBuffer, isWorking. ctl_eval.
  destruct _loaderClass0 as [need].
  destruct working, need, _onSeeked0; ctl_eval;
    change (0 <? 0) with false; ctl_eval; unfold returns; ctl_eval;
    rewrite <- ?app_assoc; cbn [app]; repeat split; reflexivity.
Qed.

(** X16: [abort] aborts the loader and forgets a pause, and leaves the
    stash as it is: afterwards the controller is neither paused nor working,
    so that [resume] and [pause] both do nothing. *)
Theorem abort_forgets_a_pause_and_keeps_the_stash :
  forall (s : Ctl) (l : Loader),
    _loader s = Some l ->
    returns (abort s) (fun _ s1 =>
      trace s1 = trace s ++ [EvLoaderAbort] /\
      _paused s1 = false /\
      isWorking s1 = false /\
      _stashUsed s1 = _stashUsed s /\
      stash_bytes s1 = stash_bytes s /\
      resume consume s1 = Ok tt s1 /\
      pause s1 = Ok tt s1).
Proof.
  intros s l Hl. destruct s. cbn in Hl. subst.
  unfold abort, resume, pause, isWorking, stash_bytes. ctl_eval.
  destruct _paused0; ctl_eval; unfold returns; ctl_eval; repeat split; reflexivity.
Qed.

(** *** Edges of the stash *)

Ltac run_test :=
  match goal with
  | |- context [if ?b then _ else _] =>
      lazymatch b with
      | Z.ltb _ _ => idtac
      | Z.leb _ _ => idtac
      | Z.eqb _ _ => idtac
      end;
      first [ replace b with true by (symmetry; prove_test)
            | replace b with false by (symmetry; prove_test) ]
  end.

(** X7: with the stash enabled and a [config.stashInitialSize] above
    3 MiB, the first arrival, at a rate that still reads 0, of a chunk that
    fits under that size raises a RangeError before anything is stashed or
    dispatched. *)
Theorem oversized_initial_stash_raises_on_first_arrival :
  forall (filesize : option Z) (config : Config) (loaderClass : LoaderClass)
         (cs : CS) (v : Z) (chunk : list byte) (byteStart receivedLength : Z)
         (KBps : Q),
    stashInitialSize config = Some v ->
    1024 * 1024 * 3 < v ->
    enableStashBuffer config <> Some false ->
    needStashBuffer loaderClass = true ->
    Qeq_bool KBps 0 = true ->
    byteLength chunk <= v ->
    exists s',
      _onLoaderChunkArrival consume chunk byteStart receivedLength KBps
        (set_onDataArrival (Some cs) (IOController_new filesize config loaderClass))
      = Throw RangeError s' /\
      _stashUsed s' = 0 /\
      trace s' = [].
Proof.
  intros filesize config loaderClass cs v chunk byteStart receivedLength KBps
    Hv Hbig Hen Hneed Hk Hfit.
  pose proof (byteLength_nonneg chunk) as Hchunk.
  unfold IOController_new, _onLoaderChunkArrival, buffering_policy, arrival_stash.
  destruct config as [live initial enable], loaderClass as [need].
  cbn in Hv, Hen, Hneed. subst.
  replace (0 <? v) with true by (symmetry; apply Z.ltb_lt; lia).
  destruct enable as [[|] |]; [| congruence |].
  all: cbn [stashInitialSize enableStashBuffer needStashBuffer].
  all: ctl_eval; rewrite Hk; ctl_eval.
  all: change (0 =? 0) with true; ctl_eval.
  all: repeat (run_test; ctl_eval).
  all: unfold window_ok; cbn [new_ArrayBuffer ab_byteLength].
  all: replace (0 + v <=? 1024 * 1024 * 3) with false
         by (symmetry; apply Z.leb_gt; lia).
  all: rewrite andb_false_r; ctl_eval.
  all: eexists; split; [reflexivity | split; reflexivity].
Qed.

(** An arrival, at a rate that reads 0, of a chunk larger than the target
    while the stash is empty, with a consumer that takes the chunk whole. *)
Lemma oversized_arrival_taken_whole (s : Ctl) (cs cs' : CS) chunk byteStart
    receivedLength KBps :
  sound s ->
  _enableStash s = true ->
  _onDataArrival s = Some cs ->
  _paused s = false ->
  _currentRange s <> None ->
  _stashUsed s = 0 ->
  Qeq_bool KBps 0 = true ->
  _stashSize s < byteLength chunk ->
  consume cs chunk byteStart = Ok (byteLength chunk) cs' ->
  exists s',
    _onLoaderChunkArrival consume chunk byteStart receivedLength KBps s = Ok tt s' /\
    sound s' /\
    _enableStash s' = true /\
    _onDataArrival s' = Some cs' /\
    _paused s' = false /\
    _currentRange s' <> None /\
    _stashUsed s' = 0 /\
    _stashByteStart s'
    = (if _stashByteStart s =? 0 then byteStart else _stashByteStart s) /\
    _stashSize s' = _stashSize s /\
    dispatched (trace s') = dispatched (trace s) ++ [(chunk, byteStart)].
Proof.
  intros Hs Hen Hcs Hp Hr Hu Hk Hbig Hcall.
  destruct s. unfold sound, buffer_tracked in Hs.
  cbn in Hs, Hen, Hcs, Hp, Hr, Hu, Hbig.
  destruct Hs as (Htracked & Hused & Hsize & Hinit). subst.
  destruct _currentRange0 as [r |]; [| contradiction].
  pose proof (byteLength_nonneg chunk) as Hchunk.
  unfold _onLoaderChunkArrival, buffering_policy, arrival_oversized.
  ctl_eval. rewrite Hk.
  cbn [_stashByteStart].
  destruct _isEarlyEofReconnecting0, _onRecoveredEarlyEof0,
    (_stashByteStart0 =? 0) eqn:Estart; ctl_eval.
  all: change (0 =? 0) with true; ctl_eval; rewrite ?Estart; ctl_eval.
  all: repeat (run_test; ctl_eval).
  all: unfold window_ok;
    repeat (match goal with
            | |- context [?a && ?b] =>
                replace (a && b) with true by (symmetry; prove_test)
            end; ctl_eval).
  all: rewrite Hcall; ctl_eval; repeat (run_test; ctl_eval).
  all: eexists; split; [reflexivity |].
  all: unfold sound, buffer_tracked, dispatched; ctl_eval;
    rewrite ?flat_map_app; cbn [flat_map app]; rewrite ?app_nil_r.
  all: repeat split; try reflexivity; try discriminate; lia.
Qed.

(** An arrival, at a rate that reads 0, of a chunk that fits under the
    target. *)
Lemma fitting_arrival (s : Ctl) (cs : CS) chunk byteStart receivedLength KBps :
  sound s ->
  _enableStash s = true ->
  _onDataArrival s = Some cs ->
  _paused s = false ->
  Qeq_bool KBps 0 = true ->
  _stashUsed s + byteLength chunk <= _stashSize s ->
  exists s',
    _onLoaderChunkArrival consume chunk byteStart receivedLength KBps s = Ok tt s' /\
    sound s' /\
    _onDataArrival s' = Some cs /\
    _currentRange s' = _currentRange s /\
    _stashUsed s' = _stashUsed s + byteLength chunk /\
    stash_bytes s' = stash_bytes s ++ chunk /\
    _stashByteStart s'
    = (if (_stashUsed s =? 0) && (_stashByteStart s =? 0) then byteStart
       else _stashByteStart s) /\
    dispatched (trace s') = dispatched (trace s).
Proof.
  intros Hs Hen Hcs Hp Hk Hfit.
  destruct s. unfold sound, buffer_tracked in Hs.
  cbn in Hs, Hen, Hcs, Hp, Hfit.
  destruct Hs as (Htracked & Hused & Hsize & Hinit). subst.
  pose proof (byteLength_nonneg chunk) as Hchunk.
  unfold _onLoaderChunkArrival, buffering_policy, arrival_stash, stash_bytes.
  ctl_eval. rewrite Hk.
  cbn [_stashByteStart _stashUsed _stashBuffer].
  destruct _isEarlyEofReconnecting0, _onRecoveredEarlyEof0,
    (_stashUsed0 =? 0) eqn:Eused, (_stashByteStart0 =? 0) eqn:Estart; ctl_eval.
  all: rewrite ?Eused, ?Estart; ctl_eval.
  all: repeat (run_test; ctl_eval).
  all: unfold window_ok;
    repeat (match goal with
            | |- context [?a && ?b] =>
                replace (a && b) with true by (symmetry; prove_test)
            end; ctl_eval).
  all: repeat (run_test; ctl_eval).
  all: eexists; split; [reflexivity |].
  all: unfold sound, buffer_tracked, dispatched; ctl_eval;
    rewrite ?ab_write_length, ?flat_map_app; cbn [flat_map app];
    rewrite ?app_nil_r.
  all: repeat split; try reflexivity; try lia.
  all: apply ab_read_write_append; lia.
Qed.

(** A completion, with an attentive consumer. *)
Lemma completion_dispatch (Hatt : attentive consume) (s : Ctl) (r : Range) (cs : CS)
    from_ to_ :
  sound s ->
  _currentRange s = Some r ->
  _onDataArrival s = Some cs ->
  exists s',
    _onLoaderComplete consume from_ to_ s = Ok tt s' /\
    dispatched (trace s')
    = dispatched (trace s)
      ++ (if 0 <? _stashUsed s then [(stash_bytes s, _stashByteStart s)] else []).
Proof.
  intros Hs Hr Hcs.
  pose proof (flush_step Hatt true s r cs Hs Hr Hcs) as Hf.
  unfold _onLoaderComplete. unfold bind at 1.
  destruct (_flushStashBuffer consume true s) as [v s1 | |]; try contradiction.
  cbn [returns] in Hf.
  destruct Hf as (_ & _ & _ & _ & _ & Hcase).
  assert (Ht : dispatched (trace s1)
               = dispatched (trace s)
                 ++ (if 0 <? _stashUsed s then [(stash_bytes s, _stashByteStart s)]
                     else [])).
  { destruct Hcase as [(Hu & _ & ->) | (Hpos & c & cs' & _ & _ & _ & Ht & _)].
    - rewrite Hu. cbn. now rewrite app_nil_r.
    - replace (0 <? _stashUsed s) with true by (symmetry; apply Z.ltb_lt; lia).
      rewrite Ht. unfold dispatched. now rewrite flat_map_app. }
  rewrite <- Ht. clear. destruct s1. ctl_eval.
  destruct (0 <=? lastByteStart0), _onComplete0, _onError0; ctl_eval;
    eexists; (split; [reflexivity |]); unfold dispatched; ctl_eval;
    rewrite ?flat_map_app; cbn [flat_map]; now rewrite ?app_nil_r.
Qed.

(** X11: with the stash enabled and empty, a chunk larger than the target
    that arrives at an offset other than 0 and is taken whole by the
    consumer leaves [_stashByteStart] at its own offset.  The chunk that
    follows is stashed, and the completion dispatches it at the offset of
    the first chunk, not at its own. *)
Theorem stash_start_stays_behind_an_oversized_chunk_taken_whole :
  forall (s : Ctl) (cs : CS) (chunk1 chunk2 : list byte)
         (byteStart received1 received2 from_ to_ : Z) (KBps1 KBps2 : Q),
    (forall cs data byteStart,
        exists cs', consume cs data byteStart = Ok (byteLength data) cs') ->
    sound s ->
    _enableStash s = true ->
    _onDataArrival s = Some cs ->
    _paused s = false ->
    _currentRange s <> None ->
    _stashUsed s = 0 ->
    _stashByteStart s = 0 ->
    Qeq_bool KBps1 0 = true ->
    Qeq_bool KBps2 0 = true ->
    _stashSize s < byteLength chunk1 ->
    0 < byteLength chunk2 <= _stashSize s ->
    byteStart <> 0 ->
    exists s',
      run consume
        [OpChunkArrival chunk1 byteStart received1 KBps1;
         OpChunkArrival chunk2 (byteStart + byteLength chunk1) received2 KBps2;
         OpComplete from_ to_] s = Some s' /\
      dispatched (trace s')
      = dispatched (trace s) ++ [(chunk1, byteStart); (chunk2, byteStart)].
Proof.
  intros s cs chunk1 chunk2 byteStart received1 received2 from_ to_ KBps1 KBps2
    Hfull Hs Hen Hcs Hp Hr Hu Hst Hk1 Hk2 Hbig Hfit Hne.
  assert (Hatt : attentive consume).
  { intros c data b. destruct (Hfull c data b) as (c' & E).
    exists (byteLength data), c'. split; [exact E |].
    pose proof (byteLength_nonneg data). lia. }
  destruct (Hfull cs chunk1 byteStart) as (cs1 & Hcall).
  destruct (oversized_arrival_taken_whole s cs cs1 chunk1 byteStart received1 KBps1
              Hs Hen Hcs Hp Hr Hu Hk1 Hbig Hcall)
    as (s1 & Hrun1 & Hs1 & Hen1 & Hcs1 & Hp1 & Hr1 & Hu1 & Hst1 & Hsz1 & Hd1).
  rewrite Hst in Hst1. change (0 =? 0) with true in Hst1. cbv iota in Hst1.
  destruct (fitting_arrival s1 cs1 chunk2 (byteStart + byteLength chunk1) received2
              KBps2 Hs1 Hen1 Hcs1 Hp1 Hk2 ltac:(lia))
    as (s2 & Hrun2 & Hs2 & Hcs2 & Hr2 & Hu2 & Hb2 & Hst2 & Hd2).
  rewrite Hu1, Hst1 in Hst2.
  replace (byteStart =? 0) with false in Hst2 by (symmetry; apply Z.eqb_neq; lia).
  rewrite andb_false_r in Hst2.
  destruct (_currentRange s2) as [r2 |] eqn:Er2; [| congruence].
  destruct (completion_dispatch Hatt s2 r2 cs1 from_ to_ Hs2 Er2 Hcs2)
    as (s3 & Hrun3 & Hd3).
  exists s3. unfold run. cbn [run_all exec].
  rewrite Hrun1. cbn [state_of]. rewrite Hrun2. cbn [state_of].
  rewrite Hrun3. cbn [state_of]. split; [reflexivity |].
  rewrite Hd3, Hd2, Hd1, Hu2, Hu1, Hb2, Hst2.
  replace (0 <? 0 + byteLength chunk2) with true by (symmetry; apply Z.ltb_lt; lia).
  unfold stash_bytes. rewrite Hu1. cbn [ab_read Z.to_nat seq map app].
  rewrite <- app_assoc. reflexivity.
Qed.

(** *** What no method changes *)

Lemma settled_refl (s : Ctl) : settled s s.
Proof. unfold settled. tauto. Qed.

Lemma settled_trans (s1 s2 s3 : Ctl) :
  settled s1 s2 -> settled s2 s3 -> settled s1 s3.
Proof.
  unfold settled. intros (H1 & H2 & H3 & H4 & H5) (K1 & K2 & K3 & K4 & K5).
  split; [congruence |]. split; [congruence |]. split; [congruence |].
  split; [tauto |].
  intros H. destruct (H5 H) as (F & T). destruct (K5 F) as (F' & T').
  split; congruence.
Qed.

Ltac settled_modify :=
  apply keeps_modify; unfold settled;
  match goal with |- context [?f ?s] => is_var s; destruct s end;
  cbn; repeat split; solve [auto | congruence].

Ltac settled_step :=
  lazymatch goal with
  | |- keeps _ (ret _) _ => apply (keeps_ret _ settled_refl)
  | |- keeps _ (throw _) _ => apply (keeps_throw _ settled_refl)
  | |- keeps _ hang _ => apply keeps_hang
  | |- keeps _ (bind get _) _ => apply keeps_bind_get; cbv beta
  | |- keeps _ (bind _ _) _ => apply (keeps_bind _ settled_trans); [| intros ? ? _]
  | |- keeps _ (when ?c _) _ => destruct c eqn:?; cbn [when]
  | |- keeps _ (modify _) _ => settled_modify
  | |- keeps _ (if ?c then _ else _) _ => destruct c eqn:?
  | |- keeps _ (match ?x with _ => _ end) _ => destruct x eqn:?
  | |- keeps _ _ _ => solve [auto with settled]
  end.

Ltac settled_tac := repeat settled_step.

Create HintDb settled.

Lemma settled_emit e (s : Ctl) : keeps settled (emit e) s.
Proof. unfold emit. settled_tac. Qed.

Hint Resolve settled_emit : settled.

Lemma settled_with_loader {A} (k : Loader -> MC A) (s : Ctl) :
  (forall l s', keeps settled (k l) s') -> keeps settled (with_loader k) s.
Proof. intros H. unfold with_loader. settled_tac. Qed.

Lemma settled_loader_isWorking (s : Ctl) : keeps settled loader_isWorking s.
Proof. apply settled_with_loader. intros. settled_tac. Qed.

Lemma settled_loader_abort (s : Ctl) : keeps settled loader_abort s.
Proof. apply settled_with_loader. intros. settled_tac. Qed.

Lemma settled_loader_destroy (s : Ctl) : keeps settled loader_destroy s.
Proof. apply settled_with_loader. intros. settled_tac. Qed.

Lemma settled_loader_open r (s : Ctl) : keeps settled (loader_open r) s.
Proof. apply settled_with_loader. intros. settled_tac. Qed.

Hint Resolve settled_loader_isWorking settled_loader_abort
  settled_loader_destroy settled_loader_open : settled.

Lemma settled_createLoader (s : Ctl) : keeps settled _createLoader s.
Proof. unfold _createLoader. settled_tac. Qed.

Lemma settled_currentRange (s : Ctl) : keeps settled currentRange s.
Proof. unfold currentRange. settled_tac. Qed.

Hint Resolve settled_createLoader settled_currentRange : settled.

Lemma settled_set_currentRange_to v (s : Ctl) :
  keeps settled (set_currentRange_to v) s.
Proof. unfold set_currentRange_to. settled_tac. Qed.

Lemma settled_view total off len (s : Ctl) : keeps settled (view total off len) s.
Proof. unfold view. settled_tac. Qed.

Lemma settled_stashArray_set viewLen src at_ (s : Ctl) :
  keeps settled (stashArray_set viewLen src at_) s.
Proof. unfold stashArray_set. settled_tac. Qed.

Lemma settled_call_onDataArrival chunks byteStart (s : Ctl) :
  keeps settled (call_onDataArrival consume chunks byteStart) s.
Proof.
  unfold keeps, call_onDataArrival.
  destruct (_onDataArrival s) as [cs |]; [| apply settled_refl].
  destruct (consume cs chunks byteStart); try exact I;
    unfold settled; destruct s; cbn; tauto.
Qed.

Hint Resolve settled_set_currentRange_to settled_view settled_stashArray_set
  settled_call_onDataArrival : settled.

Lemma settled_dispatchChunks chunks byteStart (s : Ctl) :
  keeps settled (_dispatchChunks consume chunks byteStart) s.
Proof. unfold _dispatchChunks. settled_tac. Qed.

Lemma settled_expandBuffer e (s : Ctl) : keeps settled (_expandBuffer e) s.
Proof. unfold _expandBuffer. settled_tac. Qed.

Hint Resolve settled_dispatchChunks settled_expandBuffer : settled.

Lemma settled_adjustStashSize normalized (s : Ctl) :
  keeps settled (_adjustStashSize normalized) s.
Proof. unfold _adjustStashSize. settled_tac. Qed.

Lemma settled_flushStashBuffer dropUnconsumed (s : Ctl) :
  keeps settled (_flushStashBuffer consume dropUnconsumed) s.
Proof. unfold _flushStashBuffer. settled_tac. Qed.

Hint Resolve settled_adjustStashSize settled_flushStashBuffer : settled.

Lemma settled_internalSeek bytes dropUnconsumed (s : Ctl) :
  keeps settled (_internalSeek consume bytes dropUnconsumed) s.
Proof. unfold _internalSeek. settled_tac. Qed.

Hint Resolve settled_internalSeek : settled.

Lemma settled_buffering_policy chunk byteStart (s : Ctl) :
  keeps settled (buffering_policy consume chunk byteStart) s.
Proof.
  unfold buffering_policy, arrival_direct, arrival_merge, arrival_stash,
    arrival_flush_then_stash, arrival_oversized.
  settled_tac.
Qed.

Hint Resolve settled_buffering_policy : settled.

Lemma settled_surface_error type code (s : Ctl) :
  keeps settled (surface_error type code) s.
Proof. unfold surface_error. settled_tac. Qed.

Hint Resolve settled_surface_error : settled.

Lemma settled_exec op (s : Ctl) :
  partial_request op = true -> keeps settled (exec consume op) s.
Proof.
  intros Hop. destruct op; cbn [exec partial_request] in *.
  - unfold open. rewrite Hop. cbn [negb when]. settled_tac.
  - unfold abort. settled_tac.
  - unfold pause. settled_tac.
  - unfold resume. settled_tac.
  - unfold seek. settled_tac.
  - unfold _onContentLengthKnown. apply keeps_bind_get; cbv beta.
    destruct (negb (contentLength =? 0) && _fullRequestFlag s) eqn:E; cbn [when];
      [| settled_tac].
    apply andb_prop in E as (_ & F).
    apply (keeps_bind _ settled_trans); [| intros ? ? _; settled_tac].
    apply keeps_modify. unfold settled. destruct s; cbn in *.
    repeat split; auto; congruence.
  - unfold _onURLRedirect. settled_tac.
  - unfold _onLoaderChunkArrival. settled_tac.
  - unfold _onLoaderComplete. settled_tac.
  - unfold _onLoaderError. settled_tac.
Qed.

Lemma settled_run (ops : list Op) :
  forall s s' : Ctl,
    forallb partial_request ops = true ->
    run consume ops s = Some s' ->
    settled s s'.
Proof.
  unfold run. induction ops as [| op ops IH]; intros s s' Hall Hrun.
  - injection Hrun as <-. apply settled_refl.
  - cbn [forallb] in Hall. apply andb_prop in Hall as (Hop & Hall).
    cbn [run_all] in Hrun.
    destruct (state_of (exec consume op s)) as [s1 |] eqn:E; [| discriminate].
    eapply settled_trans; [| exact (IH s1 s' Hall Hrun)].
    exact (keeps_state_of _ _ _ _ (settled_exec op s Hop) E).
Qed.

(** X17: after an [open] without offset and a content length that is not
    0, [_totalLength] is that length and stays so, whatever operations
    follow, as long as none of them is another [open] without offset: the
    content lengths of later requests are ignored. *)
Theorem total_length_is_the_first_content_length_of_a_full_request :
  forall (ops : list Op) (s s' : Ctl) (optionalFrom : option Z) (contentLength : Z),
    truthy optionalFrom = false ->
    contentLength <> 0 ->
    forallb partial_request ops = true ->
    run consume (OpOpen optionalFrom :: OpContentLengthKnown contentLength :: ops) s
    = Some s' ->
    _totalLength s' = Some contentLength /\ _fullRequestFlag s' = false.
Proof.
  intros ops s s' optionalFrom contentLength Hfull Hn Hall Hrun.
  unfold run in Hrun. cbn [run_all exec] in Hrun.
  assert (Hopen : exists s1, state_of (open optionalFrom s) = Some s1 /\
                             _fullRequestFlag s1 = true).
  { unfold open. rewrite Hfull. destruct s. destruct _loader0; ctl_eval;
      eexists; split; reflexivity. }
  destruct Hopen as (s1 & E1 & F1). rewrite E1 in Hrun.
  assert (Hlen : exists s2, state_of (_onContentLengthKnown contentLength s1) = Some s2 /\
                            _fullRequestFlag s2 = false /\
                            _totalLength s2 = Some contentLength).
  { unfold _onContentLengthKnown. destruct s1. cbn in F1. subst. ctl_eval.
    replace (contentLength =? 0) with false by (symmetry; apply Z.eqb_neq; lia).
    ctl_eval. eexists. repeat split. }
  destruct Hlen as (s2 & E2 & F2 & T2). rewrite E2 in Hrun.
  destruct (settled_run ops s2 s' Hall Hrun) as (_ & _ & _ & _ & H).
  destruct (H F2) as (F & T). split; congruence.
Qed.

(** What every operation keeps, a request for the whole source too. *)
Lemma fixed_exec op (s s' : Ctl) :
  state_of (exec consume op s) = Some s' ->
  _config s' = _config s /\
  _stashInitialSize s' = _stashInitialSize s /\
  _loaderClass s' = _loaderClass s /\
  (_enableStash s = false -> _enableStash s' = false).
Proof.
  intros E. destruct (partial_request op) eqn:Hop.
  - destruct (keeps_state_of _ _ _ _ (settled_exec op s Hop) E)
      as (H1 & H2 & H3 & H4 & _).
    auto.
  - destruct op; try discriminate. cbn [exec partial_request] in *.
    unfold open in E. rewrite Hop in E. destruct s. destruct _loader0;
      ctl_eval_in E; injection E as <-; cbn; auto.
Qed.

(** X18: no operation of a session changes the configuration, the initial
    stash size or the loader class, and none enables a stash that is
    disabled. *)
Theorem settings_stay_and_a_disabled_stash_stays_disabled :
  forall (ops : list Op) (s s' : Ctl),
    run consume ops s = Some s' ->
    _config s' = _config s /\
    _stashInitialSize s' = _stashInitialSize s /\
    _loaderClass s' = _loaderClass s /\
    (_enableStash s = false -> _enableStash s' = false).
Proof.
  unfold run. induction ops as [| op ops IH]; intros s s' Hrun.
  - injection Hrun as <-. auto.
  - cbn [run_all] in Hrun.
    destruct (state_of (exec consume op s)) as [s1 |] eqn:E; [| discriminate].
    destruct (fixed_exec op s s1 E) as (H1 & H2 & H3 & H4).
    destruct (IH s1 s' Hrun) as (K1 & K2 & K3 & K4).
    repeat split; try congruence. auto.
Qed.

(** *** A consumer that raises *)

Ltac ctl_raise Hraise :=
  ctl_eval; len_norm; rewrite ?ab_read_write_append by lia;
  match goal with
  | |- context [match consume ?cs ?d ?b with _ => _ end] =>
      rewrite (Hraise d b)
  | |- context [if (if ?b then _ else _) then _ else _] =>
      first [ replace b with true by (symmetry; prove_test)
            | replace b with false by (symmetry; prove_test)
            | let E := fresh "Etest" in destruct b eqn:E; bool_prop ]
  | |- context [if ?b then _ else _] =>
      first [ replace b with true by (symmetry; prove_test)
            | replace b with false by (symmetry; prove_test)
            | let E := fresh "Etest" in destruct b eqn:E; bool_prop ]
  | |- context [_expandBuffer ?e ?x] =>
      let n := fresh "n" in
      let B := fresh "B" in
      let Hrun := fresh "Hrun" in
      let Hle := fresh "Hle" in
      let HB := fresh "HB" in
      let Hread := fresh "Hread" in
      destruct (expandBuffer_result x e) as (n & B & Hrun & Hle & HB & Hread & _);
      [ sound_leaf | sound_leaf | sound_leaf | sound_leaf | ];
      rewrite Hrun; clear Hrun; ctl_eval_in Hread
  end.

Ltac raise_leaf :=
  split; [reflexivity |];
  split; [reflexivity |];
  split; [first [ reflexivity
                | rewrite ab_read_write_append by lia; use_kept; reflexivity ] |];
  first [ reflexivity
        | eexists; split; [reflexivity |]; do 2 f_equal; len_norm; lia ].

(** The policy with a consumer that raises whatever it is given. *)
Lemma policy_raise (s : Ctl) (r : Range) (cs cs' : CS) (e : Exn) chunk byteStart :
  sound s ->
  _currentRange s = Some r ->
  _onDataArrival s = Some cs ->
  (forall data start, consume cs data start = Throw e cs') ->
  match buffering_policy consume chunk byteStart s with
  | Ok _ s' =>
      _enableStash s = true /\
      _stashUsed s' = _stashUsed s + byteLength chunk /\
      stash_bytes s' = stash_bytes s ++ chunk /\
      trace s' = trace s
  | Throw e' s' =>
      e' = e /\
      _stashUsed s'
      = (if negb (_enableStash s) && negb (_stashUsed s =? 0)
         then _stashUsed s + byteLength chunk else _stashUsed s) /\
      stash_bytes s'
      = (if negb (_enableStash s) && negb (_stashUsed s =? 0)
         then stash_bytes s ++ chunk else stash_bytes s) /\
      exists data,
        trace s' = trace s ++ [EvDataArrival data (dispatch_offset s byteStart)] /\
        _currentRange s'
        = Some {| from := from r;
                  to := dispatch_offset s byteStart + byteLength data - 1 |}
  | Hang => False
  end.
Proof.
  intros Hs Hr Hcs Hraise. destruct s. unfold sound, buffer_tracked in Hs.
  cbn in Hs, Hr, Hcs.
  destruct Hs as (Htracked & Hused & Hsize & Hinit). subst.
  pose proof (byteLength_nonneg chunk) as Hchunk.
  unfold stash_bytes, dispatch_offset.
  cbn [_stashUsed _stashBuffer trace _enableStash _stashByteStart _currentRange].
  match goal with
  | |- match _ with Ok _ x => @?P x | Throw y z => @?Q y z | Hang => _ end =>
      set (post := P); set (post' := Q)
  end.
  unfold buffering_policy, arrival_direct, arrival_merge, arrival_stash,
    arrival_flush_then_stash, arrival_oversized.
  destruct _enableStash0.
  all: repeat ctl_raise Hraise.
  all: unfold post, post'; clear post post'; ctl_eval.
  all: raise_leaf.
Qed.

(** X27: an arrival during which the consumer raises.  When the chunk fits
    under the target of an enabled stash it is stashed and the consumer is
    not called.  Otherwise the consumer is called once, the exception it
    raises ends the arrival, and the end of the range has moved to the last
    byte it was given; the chunk is then in the stash only when the stash
    is disabled and held bytes, in every other case the stash is what it
    was and the chunk is lost. *)
Theorem consumer_exception_loses_the_chunk_unless_merged :
  forall (s : Ctl) (r : Range) (cs cs' : CS) (e : Exn) (chunk : list byte)
         (byteStart receivedLength : Z) (KBps : Q),
    sound s ->
    _onDataArrival s = Some cs ->
    _paused s = false ->
    _currentRange s = Some r ->
    (forall data start, consume cs data start = Throw e cs') ->
    match _onLoaderChunkArrival consume chunk byteStart receivedLength KBps s with
    | Ok _ s' =>
        _enableStash s = true /\
        stash_bytes s' = stash_bytes s ++ chunk /\
        dispatched (trace s') = dispatched (trace s)
    | Throw e' s' =>
        e' = e /\
        stash_bytes s'
        = (if negb (_enableStash s) && negb (_stashUsed s =? 0)
           then stash_bytes s ++ chunk else stash_bytes s) /\
        exists data,
          dispatched (trace s')
          = dispatched (trace s) ++ [(data, dispatch_offset s byteStart)] /\
          _currentRange s'
          = Some {| from := from r;
                    to := dispatch_offset s byteStart + byteLength data - 1 |}
    | Hang => False
    end.
Proof.
  intros s r cs cs' e chunk byteStart receivedLength KBps Hs Hcs Hp Hr Hraise.
  destruct (arrival_prelude s cs chunk byteStart receivedLength KBps Hs Hcs Hp)
    as (s1 & Hrun & Hs1 & Hu1 & Hb1 & Hst1 & He1 & Hr1 & Hcs1 & Hp1 & Hl1 & _ & Hd1).
  rewrite Hrun.
  pose proof (policy_raise s1 r cs cs' e chunk byteStart Hs1
                ltac:(congruence) Hcs1 Hraise) as H.
  unfold dispatch_offset in *. rewrite Hu1, Hb1, Hst1, He1 in H.
  destruct (buffering_policy consume chunk byteStart s1) as [[] s' | e' s' |].
  - destruct H as (Hen & _ & Hb & Ht). rewrite Ht. auto.
  - destruct H as (He & _ & Hb & data & Ht & Hrange).
    split; [exact He |]. split; [exact Hb |]. exists data.
    rewrite Ht. unfold dispatched in *. rewrite flat_map_app, Hd1.
    split; [reflexivity | exact Hrange].
  - exact H.
Qed.

End ControllerFacts.

(** Examples *)

Section ControllerExamples.

Import IO IOExamples.

(** C1 as the claim has it fails: the three chunks make two dispatches of
    40 KiB, at offsets 0 and 40 KiB, not one of 80 KiB at offset 0. *)
Lemma three_chunks_one_dispatch_counterexample :
  option_map (fun s => (_stashSize s, dispatches (trace s), _stashUsed s))
             (run eager three_chunks listening)
    = Some (65536, [(40960, 0); (40960, 40960)], 40960) /\
  option_map (fun s => dispatches (trace s)) (run eager three_chunks listening)
    <> Some [(81920, 0)].
Proof.
  assert (E : option_map (fun s => (_stashSize s, dispatches (trace s), _stashUsed s))
                (run eager three_chunks listening)
              = Some (65536, [(40960, 0); (40960, 40960)], 40960)).
  { lazy. reflexivity. }
  split; [exact E |].
  destruct (run eager three_chunks listening) as [s |]; [| discriminate].
  cbn in *. intros H. inversion H as [H1]. inversion E as [[H2 H3 H4]].
  rewrite H1 in H3. discriminate.
Qed.


Lemma run_after (consume : unit -> list byte -> Z -> Res unit Z) ops s s' :
  run consume ops s = Some s' -> run consume ops s = Some (after consume ops s).
Proof. intros H. unfold after. now rewrite H. Qed.

Lemma three_chunks_are_dispatched_one_arrival_late_witness :
  _stashSize (after eager [OpOpen None] listening_64k) = 64 * 1024 /\
  80 * 1024 <= _bufferSize (after eager [OpOpen None] listening_64k) /\
  byteLength (chunk_of x01 40960) = 40 * 1024 /\
  returns (_onLoaderChunkArrival eager (chunk_of x01 40960) 0 40960 (0 # 1)
             (after eager [OpOpen None] listening_64k))
          (fun _ s1 => trace s1 = [EvLoaderOpen {| from := 0; to := -1 |}]).
Proof.
  assert (L : forall b, byteLength (chunk_of b 40960) = 40 * 1024).
  { intros b. unfold byteLength, chunk_of. rewrite repeat_length, Z2Nat.id by lia. reflexivity. }
  assert (Hfull : forall (cs : unit) data byteStart,
             exists cs', eager cs data byteStart = Ok (byteLength data) cs').
  { intros cs data byteStart. exists cs. reflexivity. }
  assert (Hcap : 80 * 1024 <= _bufferSize (after eager [OpOpen None] listening_64k)).
  { cbn. lia. }
  assert (Ht : tier_steady (after eager [OpOpen None] listening_64k) (0 # 1)).
  { left. reflexivity. }
  split; [reflexivity |]. split; [exact Hcap |]. split; [apply L |].
  eapply returns_weaken.
  - exact (three_chunks_are_dispatched_one_arrival_late eager
             (after eager [OpOpen None] listening_64k)
             {| from := 0; to := -1 |} tt
             (chunk_of x01 40960) (chunk_of x02 40960) (chunk_of x03 40960)
             (0 # 1) (0 # 1) (0 # 1) 40960 81920 122880
             Hfull eq_refl eq_refl eq_refl eq_refl eq_refl Hcap eq_refl eq_refl
             eq_refl eq_refl Ht Ht Ht (L x01) (L x02) (L x03)).
  - cbv beta. intros _ s1 (H & _). exact H.
Defined.

(** C7 as the claim has it fails: a loader that delivers one empty chunk
    has delivered no byte, yet its completion calls [onComplete] and raises
    no CONNECTING_TIMEOUT. *)
Lemma empty_delivery_completes_counterexample :
  bytes_received empty_delivery = 0 /\
  option_map (fun s => trace s) (run eager empty_delivery listening)
    = Some [EvLoaderOpen {| from := 0; to := -1 |}; EvComplete].
Proof. split; reflexivity. Qed.

Lemma completion_flushes_then_notifies_witness :
  lastByteStart listening = -1 /\
  Forall offset_nonneg four_bytes /\
  run eager four_bytes listening = Some (after eager four_bytes listening) /\
  returns (_onLoaderComplete eager 0 3 (after eager four_bytes listening))
    (fun _ s' =>
       _stashUsed s' = 0 /\
       trace s' = [EvLoaderOpen {| from := 0; to := -1 |};
                   EvDataArrival [x01; x02; x03; x04] 0; EvComplete]).
Proof.
  assert (F : Forall offset_nonneg four_bytes).
  { repeat constructor. cbn. lia. }
  assert (H : run eager four_bytes listening = Some (after eager four_bytes listening)).
  { eapply run_after. lazy. reflexivity. }
  split; [reflexivity |]. split; [exact F |]. split; [exact H |].
  eapply returns_weaken.
  - apply (completion_flushes_then_notifies eager four_bytes listening
             (after eager four_bytes listening) {| from := 0; to := -1 |}
             tt tt 4 0 3 eq_refl F H);
      [cbn; lia | reflexivity | reflexivity | reflexivity].
  - cbv beta. intros _ s' (H1 & H2). split; [exact H1 | rewrite H2; reflexivity].
Defined.

Lemma stash_capacity_never_shrinks_witness :
  buffer_tracked listening /\
  run eager five_bytes_from_1000 listening
    = Some (after eager five_bytes_from_1000 listening) /\
  run eager fast_arrival_pause_resume (after eager five_bytes_from_1000 listening)
    = Some (after eager fast_arrival_pause_resume
              (after eager five_bytes_from_1000 listening)) /\
  ab_byteLength (_stashBuffer (after eager five_bytes_from_1000 listening))
    <= ab_byteLength
         (_stashBuffer (after eager fast_arrival_pause_resume
                          (after eager five_bytes_from_1000 listening))).
Proof.
  assert (H1 : run eager five_bytes_from_1000 listening
               = Some (after eager five_bytes_from_1000 listening)).
  { eapply run_after. lazy. reflexivity. }
  assert (H2 : run eager fast_arrival_pause_resume
                 (after eager five_bytes_from_1000 listening)
               = Some (after eager fast_arrival_pause_resume
                         (after eager five_bytes_from_1000 listening))).
  { eapply run_after. lazy. reflexivity. }
  split; [reflexivity |]. split; [exact H1 |]. split; [exact H2 |].
  apply (stash_capacity_never_shrinks eager five_bytes_from_1000
           fast_arrival_pause_resume listening
           (after eager five_bytes_from_1000 listening)
           (after eager fast_arrival_pause_resume
              (after eager five_bytes_from_1000 listening))
           eq_refl H1 H2).
Defined.

(** The 4096 KB/s arrival of the session above replaces the 3 MiB buffer by
    one of 13 MiB. *)
Example fast_arrival_grows_buffer :
  _bufferSize (after eager five_bytes_from_1000 listening) = 3 * 1024 * 1024 /\
  _bufferSize (after eager fast_arrival_pause_resume
                 (after eager five_bytes_from_1000 listening)) = 13 * 1024 * 1024.
Proof. split; reflexivity. Qed.

Lemma pause_then_resume_reopens_at_resume_offset_witness :
  _currentRange (after eager five_bytes_from_1000 listening)
    = Some {| from := 1000; to := -1 |} /\
  returns (pause (after eager five_bytes_from_1000 listening)) (fun _ s1 =>
    _resumeFrom s1 = 1000 /\
    returns (resume eager s1) (fun _ s2 =>
      trace s2 = trace s1 ++ [EvLoaderDestroy;
                              EvLoaderOpen {| from := 1000; to := -1 |};
                              EvSeeked])).
Proof.
  split; [reflexivity |].
  eapply returns_weaken.
  - apply (pause_then_resume_reopens_at_resume_offset eager
             (after eager five_bytes_from_1000 listening)
             {| from := 1000; to := -1 |} eq_refl).
  - cbv beta. intros _ s1 H.
    change (isWorking (after eager five_bytes_from_1000 listening)) with true in H.
    cbv iota zeta in H. destruct H as (_ & _ & Hfrom & Hresume).
    split; [exact Hfrom |].
    eapply returns_weaken; [exact Hresume |].
    cbv beta. intros _ s2 (_ & _ & _ & Htrace). exact Htrace.
Defined.

Lemma pause_drops_stash_without_dispatch_witness :
  isWorking (after eager five_bytes_from_1000 listening) = true /\
  _currentRange (after eager five_bytes_from_1000 listening)
    = Some {| from := 1000; to := -1 |} /\
  _stashUsed (after eager five_bytes_from_1000 listening) = 5 /\
  returns (pause (after eager five_bytes_from_1000 listening)) (fun _ s1 =>
    _stashUsed s1 = 0 /\
    trace s1 = [EvLoaderOpen {| from := 1000; to := -1 |}; EvLoaderAbort] /\
    _resumeFrom s1 = 1000).
Proof.
  split; [reflexivity |]. split; [reflexivity |]. split; [reflexivity |].
  eapply returns_weaken.
  - apply (pause_drops_stash_without_dispatch eager
             (after eager five_bytes_from_1000 listening)
             {| from := 1000; to := -1 |} eq_refl eq_refl).
  - cbv beta. intros _ s1 (Hused & _ & Htrace & _ & Hfrom & _).
    split; [exact Hused |]. split; [exact Htrace | exact Hfrom].
Defined.

Lemma early_eof_reconnects_once_or_escalates_witness :
  stash_ok (after halving four_bytes listening_100000) /\
  _totalLength (after halving four_bytes listening_100000) = Some 100000 /\
  stash_bytes (after halving four_bytes listening_100000) = [x01; x02; x03; x04] /\
  returns (_onLoaderError halving EARLY_EOF 0
             (after halving four_bytes listening_100000))
    (fun _ s' =>
       _isEarlyEofReconnecting s' = true /\
       trace s' = [EvLoaderOpen {| from := 0; to := -1 |};
                   EvDataArrival [x01; x02; x03; x04] 0;
                   EvLoaderAbort;
                   EvDataArrival [x03; x04] 2;
                   EvLoaderDestroy;
                   EvLoaderOpen {| from := 4; to := -1 |};
                   EvSeeked] /\
       stash_bytes s' = [x04]).
Proof.
  assert (Hok : stash_ok (after halving four_bytes listening_100000)).
  { split; [reflexivity | cbn; lia]. }
  split; [exact Hok |]. split; [reflexivity |]. split; [reflexivity |].
  eapply returns_weaken.
  - apply (early_eof_reconnects_once_or_escalates halving
             (after halving four_bytes listening_100000)
             {| from := 0; to := -1 |} {| ldr_working := true |} tt tt tt
             2 1 100000 0 Hok);
      try reflexivity; cbn; lia.
  - cbv beta zeta.
    change (_isEarlyEofReconnecting (after halving four_bytes listening_100000))
      with false.
    cbv iota.
    intros _ s' (Hflag & Htrace & _ & Hbytes & _).
    split; [exact Hflag |]. split; [rewrite Htrace; reflexivity | exact Hbytes].
Defined.


(** *** Instances of the further properties *)

Lemma eager_well_behaved : well_behaved eager.
Proof. intros cs data byteStart. cbn. pose proof (byteLength_nonneg data). lia. Qed.

Lemma refusing_well_behaved : well_behaved refusing.
Proof. intros cs data byteStart. exact I. Qed.

Lemma eager_attentive : attentive eager.
Proof.
  intros cs data byteStart. exists (byteLength data), cs.
  split; [reflexivity |]. pose proof (byteLength_nonneg data). lia.
Qed.

Lemma halving_attentive : attentive halving.
Proof.
  intros cs data byteStart. exists (byteLength data / 2), cs.
  split; [reflexivity |]. pose proof (byteLength_nonneg data).
  split; [apply Z.div_pos; lia | apply Z.div_le_upper_bound; lia].
Qed.

Lemma eager_takes_all (cs : unit) (data : list byte) (byteStart : Z) :
  exists cs', eager cs data byteStart = Ok (byteLength data) cs'.
Proof. exists cs. reflexivity. Qed.

Lemma expandBuffer_grows_and_keeps_bytes_witness :
  let s := after eager four_bytes listening in
  _bufferSize s = 3 * 1024 * 1024 /\
  _stashSize s = 384 * 1024 /\
  stash_bytes s = [x01; x02; x03; x04] /\
  returns (_expandBuffer (4 * 1024 * 1024) s) (fun _ s' =>
    4 * 1024 * 1024 <= _bufferSize s' /\
    stash_bytes s' = [x01; x02; x03; x04]).
Proof.
  cbv zeta. split; [reflexivity |]. split; [reflexivity |]. split; [reflexivity |].
  eapply returns_weaken.
  - apply (expandBuffer_grows_and_keeps_bytes (after eager four_bytes listening)
             (4 * 1024 * 1024));
      [reflexivity | reflexivity | cbn; lia | cbn; lia].
  - cbv beta. intros _ s' (Hle & _ & _ & _ & Hbytes & _).
    split; [exact Hle | rewrite Hbytes; reflexivity].
Defined.

Lemma adjustStashSize_sets_target_within_buffer_witness :
  let s := after eager four_bytes listening in
  _stashSize s = 384 * 1024 /\
  returns (_adjustStashSize 4096 s) (fun _ s' =>
    _stashSize s' = 8192 * 1024 /\
    9 * 1024 * 1024 <= _bufferSize s' /\
    stash_bytes s' = [x01; x02; x03; x04]).
Proof.
  cbv zeta. split; [reflexivity |].
  eapply returns_weaken.
  - apply (adjustStashSize_sets_target_within_buffer
             (after eager four_bytes listening) 4096);
      [lia | reflexivity | reflexivity | cbn; lia].
  - cbv beta. intros _ s' (Hsize & _ & Hfit & _ & _ & _ & Hbytes & _).
    change (stash_target_KB
              (isLive (_config (after eager four_bytes listening))) 4096 * 1024)
      with (8192 * 1024) in Hsize.
    split; [exact Hsize |]. split; [lia | rewrite Hbytes; reflexivity].
Defined.

Lemma listening_sound : sound listening.
Proof. unfold sound, buffer_tracked. cbn. lia. Qed.

Lemma session_ends_with_sizes_that_fit_witness :
  exists s',
    run eager three_chunks listening = Some s' /\ sound s'.
Proof.
  exact (session_ends_with_sizes_that_fit eager three_chunks listening
           eager_well_behaved listening_sound).
Defined.

Lemma range_errors_come_from_the_consumer_witness :
  let s1 := after refusing four_bytes listening in
  let s2 := after refusing (four_bytes ++ [OpComplete 0 3]) listening in
  run refusing four_bytes listening = Some s1 /\
  exec refusing (OpComplete 0 3) s1 = Throw RangeError s2 /\
  exists events data byteStart cs cs',
    trace s2 = trace s1 ++ events ++ [EvDataArrival data byteStart] /\
    threads refusing (_onDataArrival s1) (dispatched events) (Some cs) /\
    refusing cs data byteStart = Throw RangeError cs' /\
    _onDataArrival s2 = Some cs'.
Proof.
  cbv zeta.
  assert (H1 : run refusing four_bytes listening
               = Some (after refusing four_bytes listening)).
  { eapply run_after. lazy. reflexivity. }
  assert (H2 : exec refusing (OpComplete 0 3) (after refusing four_bytes listening)
               = Throw RangeError
                   (after refusing (four_bytes ++ [OpComplete 0 3]) listening)).
  { lazy. reflexivity. }
  split; [exact H1 |]. split; [exact H2 |].
  exact (range_errors_come_from_the_consumer refusing four_bytes (OpComplete 0 3)
           listening _ _ refusing_well_behaved listening_sound H1 H2).
Defined.

Lemma oversized_initial_stash_raises_on_first_arrival_witness :
  exists s',
    _onLoaderChunkArrival eager [x01; x02; x03; x04] 0 4 (0 # 1)
      (set_onDataArrival (Some tt) (IOController_new None config_4m stream_loader))
    = Throw RangeError s' /\
    _stashUsed s' = 0 /\
    trace s' = [].
Proof.
  apply (oversized_initial_stash_raises_on_first_arrival eager None config_4m
           stream_loader tt (4 * 1024 * 1024) [x01; x02; x03; x04] 0 4 (0 # 1));
    [reflexivity | lia | discriminate | reflexivity | reflexivity | cbn; lia].
Defined.

Lemma no_stash_open_sound : sound (after halving [OpOpen None] listening_no_stash).
Proof. unfold sound, buffer_tracked. cbn. lia. Qed.

Lemma arrival_hands_over_pending_bytes_and_keeps_the_rest_witness :
  let s := after halving [OpOpen None] listening_no_stash in
  _onDataArrival s = Some tt /\
  _paused s = false /\
  _currentRange s = Some {| from := 0; to := -1 |} /\
  returns (_onLoaderChunkArrival halving [x01; x02; x03; x04] 0 4 (0 # 1) s)
    (fun _ s' =>
       exists consumed,
         0 <= consumed <= 4 /\
         _stashUsed s' = 4 - consumed /\
         stash_bytes s' = skipn (Z.to_nat consumed) [x01; x02; x03; x04]).
Proof.
  cbv zeta. split; [reflexivity |]. split; [reflexivity |]. split; [reflexivity |].
  eapply returns_weaken.
  - apply (arrival_hands_over_pending_bytes_and_keeps_the_rest halving
             (after halving [OpOpen None] listening_no_stash) tt
             [x01; x02; x03; x04] 0 4 (0 # 1)
             halving_attentive no_stash_open_sound eq_refl eq_refl).
    discriminate.
  - cbv beta. intros _ s' (c & Hc & Hu & Hb & _). exists c.
    split; [exact Hc |]. split; [exact Hu | exact Hb].
Defined.


Lemma without_stash_every_arrival_dispatches_all_pending_bytes_witness :
  let s := after halving [OpOpen None] listening_no_stash in
  _enableStash s = false /\
  _stashUsed s = 0 /\
  returns (_onLoaderChunkArrival halving [x01; x02; x03; x04] 0 4 (0 # 1) s)
    (fun _ s' =>
       dispatched (trace s') = [([x01; x02; x03; x04], 0)] /\
       (0 < _stashUsed s' -> _stashByteStart s' + _stashUsed s' = 4)).
Proof.
  cbv zeta. split; [reflexivity |]. split; [reflexivity |].
  eapply returns_weaken.
  - apply (without_stash_every_arrival_dispatches_all_pending_bytes halving
             (after halving [OpOpen None] listening_no_stash) tt
             [x01; x02; x03; x04] 0 4 (0 # 1)
             halving_attentive no_stash_open_sound eq_refl eq_refl);
      [discriminate | reflexivity | cbn; lia].
  - cbv beta. intros _ s' (Hd & Ho & _). split; [exact Hd | exact Ho].
Defined.

Lemma opened_at_1000_sound : sound (after eager [OpOpen (Some 1000)] listening_64k).
Proof. unfold sound, buffer_tracked. cbn. lia. Qed.

Lemma stash_start_stays_behind_an_oversized_chunk_taken_whole_witness :
  let s := after eager [OpOpen (Some 1000)] listening_64k in
  _stashSize s = 64 * 1024 /\
  byteLength (chunk_of x01 70000) = 70000 /\
  exists s',
    run eager
      [OpChunkArrival (chunk_of x01 70000) 1000 70000 (0 # 1);
       OpChunkArrival [x02] (1000 + byteLength (chunk_of x01 70000)) 70001 (0 # 1);
       OpComplete 1000 (-1)] s = Some s' /\
    dispatched (trace s')
    = dispatched (trace s) ++ [(chunk_of x01 70000, 1000); ([x02], 1000)].
Proof.
  cbv zeta.
  assert (L : byteLength (chunk_of x01 70000) = 70000).
  { unfold byteLength, chunk_of. rewrite repeat_length, Z2Nat.id by lia. reflexivity. }
  split; [reflexivity |]. split; [exact L |].
  apply (stash_start_stays_behind_an_oversized_chunk_taken_whole eager
           (after eager [OpOpen (Some 1000)] listening_64k) tt
           (chunk_of x01 70000) [x02] 1000 70000 70001 1000 (-1) (0 # 1) (0 # 1)
           eager_takes_all opened_at_1000_sound eq_refl eq_refl eq_refl).
  - discriminate.
  - reflexivity.
  - reflexivity.
  - reflexivity.
  - reflexivity.
  - rewrite L. reflexivity.
  - split; [reflexivity | discriminate].
  - discriminate.
Defined.

Lemma four_bytes_sound : sound (after halving four_bytes listening).
Proof. unfold sound, buffer_tracked. cbn. lia. Qed.

Lemma flush_dispatches_the_stash_then_keeps_or_drops_the_rest_witness :
  let s := after halving four_bytes listening in
  _currentRange s = Some {| from := 0; to := -1 |} /\
  _onDataArrival s = Some tt /\
  stash_bytes s = [x01; x02; x03; x04] /\
  returns (_flushStashBuffer halving false s) (fun v s' =>
    v = 0 /\
    trace s' = trace s ++ [EvDataArrival [x01; x02; x03; x04] 0] /\
    stash_bytes s' = [x03; x04] /\
    _stashByteStart s' = 2).
Proof.
  cbv zeta. split; [reflexivity |]. split; [reflexivity |]. split; [reflexivity |].
  eapply returns_weaken.
  - apply (flush_dispatches_the_stash_then_keeps_or_drops_the_rest halving
             (after halving four_bytes listening) {| from := 0; to := -1 |} tt false
             halving_attentive four_bytes_sound eq_refl eq_refl).
  - cbv beta. intros v s' [(Hu & _) | (_ & c & cs' & Hc & _ & Ht & _ & Hrest)].
    + discriminate Hu.
    + injection Hc as <- _. destruct Hrest as (Hv & _ & Hb & Hs).
      split; [exact Hv |]. split; [exact Ht |]. split; [exact Hb | exact Hs].
Defined.

Lemma four_bytes_eager_sound : sound (after eager four_bytes listening).
Proof. unfold sound, buffer_tracked. cbn. lia. Qed.

Lemma loader_errors_are_surfaced_unless_recoverable_witness :
  let s := after eager four_bytes listening in
  _onError s = true /\
  returns (_onLoaderError eager HTTP_STATUS_CODE_INVALID 404 s) (fun _ s' =>
    trace s'
    = trace s ++ [EvDataArrival [x01; x02; x03; x04] 0;
                  EvError HTTP_STATUS_CODE_INVALID 404]).
Proof.
  cbv zeta. split; [reflexivity |].
  pose proof (loader_errors_are_surfaced_unless_recoverable eager
                (after eager four_bytes listening) {| from := 0; to := -1 |} tt
                HTTP_STATUS_CODE_INVALID 404
                eager_attentive four_bytes_eager_sound eq_refl eq_refl
                ltac:(discriminate)) as H.
  destruct (_onLoaderError eager HTTP_STATUS_CODE_INVALID 404
              (after eager four_bytes listening)) as [[] s' | e s' |].
  - destruct H as (_ & Ht & _). exact Ht.
  - destruct H as (H & _). discriminate H.
  - exact H.
Defined.

Lemma four_of_four_sound : sound (after eager four_bytes listening_4).
Proof. unfold sound, buffer_tracked. cbn. lia. Qed.

Lemma early_eof_at_the_known_end_is_swallowed_witness :
  let s := after eager four_bytes listening_4 in
  _totalLength s = Some 4 /\
  next_from s {| from := 0; to := -1 |} = 4 /\
  returns (_onLoaderError eager EARLY_EOF 0 s) (fun _ s' =>
    trace s' = trace s ++ [EvDataArrival [x01; x02; x03; x04] 0] /\
    _isEarlyEofReconnecting s' = false).
Proof.
  cbv zeta. split; [reflexivity |]. split; [reflexivity |].
  eapply returns_weaken.
  - apply (early_eof_at_the_known_end_is_swallowed eager
             (after eager four_bytes listening_4) {| from := 0; to := -1 |} tt 4 0
             eager_attentive four_of_four_sound eq_refl eq_refl eq_refl eq_refl
             eq_refl);
      [discriminate | cbn; lia].
  - cbv beta. intros _ s' (Ht & Hre & _). split; [exact Ht | exact Hre].
Defined.

Lemma seek_drops_the_stash_and_reopens_witness :
  let s := after eager four_bytes listening in
  _loader s = Some {| ldr_working := true |} /\
  _stashUsed s = 4 /\
  returns (seek eager 1000 s) (fun _ s' =>
    trace s' = trace s ++ [EvLoaderAbort; EvLoaderDestroy;
                           EvLoaderOpen {| from := 1000; to := -1 |}; EvSeeked] /\
    _stashUsed s' = 0).
Proof.
  cbv zeta. split; [reflexivity |]. split; [reflexivity |].
  eapply returns_weaken.
  - apply (seek_drops_the_stash_and_reopens eager (after eager four_bytes listening)
             {| ldr_working := true |} 1000 eq_refl).
  - cbv beta. intros _ s' (Ht & Hu & _). split; [exact Ht | exact Hu].
Defined.

Lemma abort_forgets_a_pause_and_keeps_the_stash_witness :
  let s := after eager four_bytes listening in
  _loader s = Some {| ldr_working := true |} /\
  returns (abort s) (fun _ s1 =>
    stash_bytes s1 = [x01; x02; x03; x04] /\
    resume eager s1 = Ok tt s1 /\
    pause s1 = Ok tt s1).
Proof.
  cbv zeta. split; [reflexivity |].
  eapply returns_weaken.
  - apply (abort_forgets_a_pause_and_keeps_the_stash eager
             (after eager four_bytes listening) {| ldr_working := true |} eq_refl).
  - cbv beta. intros _ s1 (_ & _ & _ & _ & Hb & Hr & Hp).
    split; [rewrite Hb; reflexivity |]. split; [exact Hr | exact Hp].
Defined.

Lemma total_length_is_the_first_content_length_of_a_full_request_witness :
  let ops := OpOpen None :: OpContentLengthKnown 100 :: seek_then_content_length in
  run eager ops listening = Some (after eager ops listening) /\
  _totalLength (after eager ops listening) = Some 100 /\
  _fullRequestFlag (after eager ops listening) = false.
Proof.
  cbv zeta.
  assert (H : run eager (OpOpen None :: OpContentLengthKnown 100
                           :: seek_then_content_length) listening
              = Some (after eager (OpOpen None :: OpContentLengthKnown 100
                                     :: seek_then_content_length) listening)).
  { eapply run_after. lazy. reflexivity. }
  split; [exact H |].
  apply (total_length_is_the_first_content_length_of_a_full_request eager
           seek_then_content_length listening _ None 100 eq_refl
           ltac:(discriminate) eq_refl H).
Defined.

Lemma settings_stay_and_a_disabled_stash_stays_disabled_witness :
  let s := after halving [OpOpen None] listening_no_stash in
  run halving arrival_then_seek s = Some (after halving arrival_then_seek s) /\
  _enableStash s = false /\
  _enableStash (after halving arrival_then_seek s) = false.
Proof.
  cbv zeta.
  assert (H : run halving arrival_then_seek
                (after halving [OpOpen None] listening_no_stash)
              = Some (after halving arrival_then_seek
                        (after halving [OpOpen None] listening_no_stash))).
  { eapply run_after. lazy. reflexivity. }
  split; [exact H |]. split; [reflexivity |].
  apply (settings_stay_and_a_disabled_stash_stays_disabled halving arrival_then_seek
           (after halving [OpOpen None] listening_no_stash) _ H).
  reflexivity.
Defined.

Lemma no_stash_refusing_sound : sound (after refusing [OpOpen None] listening_no_stash).
Proof. unfold sound, buffer_tracked. cbn. lia. Qed.

Lemma consumer_exception_loses_the_chunk_unless_merged_witness :
  let s := after refusing [OpOpen None] listening_no_stash in
  _currentRange s = Some {| from := 0; to := -1 |} /\
  _enableStash s = false /\
  exists s',
    _onLoaderChunkArrival refusing [x01; x02; x03; x04] 0 4 (0 # 1) s
    = Throw RangeError s' /\
    stash_bytes s' = [].
Proof.
  cbv zeta. split; [reflexivity |]. split; [reflexivity |].
  pose proof (consumer_exception_loses_the_chunk_unless_merged refusing
                (after refusing [OpOpen None] listening_no_stash)
                {| from := 0; to := -1 |} tt tt RangeError [x01; x02; x03; x04]
                0 4 (0 # 1) no_stash_refusing_sound eq_refl eq_refl eq_refl
                (fun _ _ => eq_refl)) as H.
  destruct (_onLoaderChunkArrival refusing [x01; x02; x03; x04] 0 4 (0 # 1)
              (after refusing [OpOpen None] listening_no_stash)) as [[] s' | e s' |].
  - destruct H as (H & _). discriminate H.
  - destruct H as (-> & Hb & _). exists s'. split; [reflexivity | exact Hb].
  - contradiction.
Defined.

End ControllerExamples.


(** ** The demuxer: the frame scan *)

Section FrameScan.

Import H264.

Lemma byte_at_nonneg v i : 0 <= byte_at v i.
Proof. unfold byte_at, byteZ. lia. Qed.

Lemma getUint32_inv v offset le (d d' : H264Demuxer) n :
  getUint32 v offset le d = Ok n d' -> 0 <= n /\ d' = d.
Proof.
  unfold getUint32. destruct (window_ok _ _ _); [| discriminate].
  unfold ret.
  match goal with |- Ok ?val _ = _ -> _ => assert (Hval : 0 <= val) end.
  { pose proof (byte_at_nonneg v offset). pose proof (byte_at_nonneg v (offset + 1)).
    pose proof (byte_at_nonneg v (offset + 2)). pose proof (byte_at_nonneg v (offset + 3)).
    destruct le; rewrite ?Z.lor_nonneg, ?Z.shiftl_nonneg; tauto. }
  intros H. split; [| congruence].
  replace n with (if le
                  then Z.lor (Z.lor (Z.lor (byte_at v offset)
                                           (Z.shiftl (byte_at v (offset + 1)) 8))
                                    (Z.shiftl (byte_at v (offset + 2)) 16))
                             (Z.shiftl (byte_at v (offset + 3)) 24)
                  else Z.lor (Z.lor (Z.lor (Z.shiftl (byte_at v offset) 24)
                                           (Z.shiftl (byte_at v (offset + 1)) 16))
                                    (Z.shiftl (byte_at v (offset + 2)) 8))
                             (byte_at v (offset + 3)))
    by congruence.
  exact Hval.
Qed.

Lemma Zsum_app l1 l2 : Zsum (l1 ++ l2) = Zsum l1 + Zsum l2.
Proof.
  unfold Zsum. induction l1 as [| y l1 IH]; cbn [app fold_right]; [reflexivity | lia].
Qed.

Lemma Zsum_snoc l x : Zsum (l ++ [x]) = Zsum l + x.
Proof. rewrite Zsum_app. unfold Zsum. cbn [fold_right]. lia. Qed.

Lemma units_length_snoc us u :
  units_length (us ++ [u]) = units_length us + byteLength (unit_data u).
Proof. unfold units_length. rewrite map_app. cbn [map]. apply Zsum_snoc. Qed.

(** The scan ends, and what it returns is the units with their bytes
    counted; it touches nothing of the object but the log. *)
Lemma scan_units_accounts fuel arrayBuffer v dataOffset dataSize lengthSize dts le :
  1 <= lengthSize ->
  forall units length offset keyframe d,
    length = units_length units ->
    (Z.to_nat (dataSize - offset) < fuel)%nat ->
    match scan_units fuel arrayBuffer v dataOffset dataSize lengthSize dts le
                     units length offset keyframe d with
    | Ok (Some (us, len, _)) d' =>
        len = units_length us /\ (units <> [] -> us <> []) /\ same_track d d'
    | Ok None d' => same_track d d'
    | Throw _ d' => same_track d d'
    | Hang => False
    end.
Proof.
  intros Hls. induction fuel as [| fuel IH];
    intros units length offset keyframe d Hlen Hfuel; [lia |].
  cbn [scan_units].
  assert (Hsame : same_track d d) by (split; reflexivity).
  assert (Hlog : forall n, same_track d (set_notified n d)) by (split; reflexivity).
  destruct (offset <? dataSize) eqn:E1; [| cbn; auto].
  apply Z.ltb_lt in E1.
  destruct (dataSize <=? offset + 4) eqn:E2; [cbn; auto |].
  unfold bind at 1.
  destruct (getUint32 v offset (negb le) d) as [n d1 | e d1 |] eqn:E32.
  - apply getUint32_inv in E32. destruct E32 as (Hn & ->).
    set (naluSize := if lengthSize =? 3 then Z.shiftr n 8 else n).
    assert (Hsize : 0 <= naluSize).
    { unfold naluSize. destruct (lengthSize =? 3); [apply Z.shiftr_nonneg |]; exact Hn. }
    destruct (dataSize - lengthSize <? naluSize); [cbn; auto |].
    unfold bind at 1. unfold getUint8.
    destruct (window_ok (byteLength v) (offset + lengthSize) 1); [| cbn; auto].
    cbn [ret]. unfold bind at 1.
    destruct (window_ok (byteLength arrayBuffer) (dataOffset + offset)
                        (lengthSize + naluSize)); [| cbn; auto].
    cbn [ret].
    match goal with
    | |- match scan_units _ _ _ _ _ _ _ _ ?us ?len ?off ?kf _ with _ => _ end =>
        specialize (IH us len off kf d)
    end.
    rewrite units_length_snoc in IH. cbn [unit_data] in IH.
    specialize (IH ltac:(lia) ltac:(lia)).
    destruct (scan_units _ _ _ _ _ _ _ _ _ _ _ _ d) as [[[[us len] kf] |] d' | e d' |];
      try exact IH.
    destruct IH as (H1 & H2 & H3). split; [exact H1 |]. split; [| exact H3].
    intros _. apply H2. now destruct units.
  - unfold getUint32 in E32. destruct (window_ok _ _ _); [discriminate |].
    unfold throw in E32. injection E32 as _ <-. exact Hsame.
  - unfold getUint32 in E32. destruct (window_ok _ _ _); discriminate.
Qed.

(** X21: [_parseAVCVideoData] ends, and keeps the track accounted: its
    [length] is the sum of the lengths of its samples, and each sample has
    a unit and is as long as its units together.  A call that raises leaves
    the track as it was. *)
Theorem parseAVCVideoData_keeps_track_accounted :
  forall (arrayBuffer : list byte)
         (dataOffset dataSize tagTimestamp tagPosition frameType cts : Z)
         (d : H264Demuxer),
    1 <= _naluLengthSize d ->
    accounted (_videoTrack d) ->
    match _parseAVCVideoData arrayBuffer dataOffset dataSize tagTimestamp
                             tagPosition frameType cts d with
    | Ok _ d' => accounted (_videoTrack d') /\ _naluLengthSize d' = _naluLengthSize d
    | Throw _ d' => same_track d d'
    | Hang => False
    end.
Proof.
  intros arrayBuffer dataOffset dataSize tagTimestamp tagPosition frameType cts d
    Hls Hacc.
  unfold _parseAVCVideoData. unfold bind at 1. cbn [get].
  unfold bind at 1.
  destruct (window_ok (byteLength arrayBuffer) dataOffset dataSize);
    [| split; reflexivity].
  cbn [ret]. unfold bind at 1.
  pose proof (scan_units_accounts (S (Z.to_nat dataSize)) arrayBuffer
                (subarray arrayBuffer dataOffset dataSize) dataOffset dataSize
                (_naluLengthSize d) (_timestampBase d + tagTimestamp) (_littleEndian d)
                Hls [] 0 0 (frameType =? 1) d eq_refl) as Hscan.
  rewrite Z.sub_0_r in Hscan. specialize (Hscan ltac:(lia)).
  destruct (scan_units _ _ _ _ _ _ _ _ _ _ _ _ d) as [[[[us len] kf] |] d' | e d' |];
    [ | | exact Hscan | exact Hscan].
  - destruct Hscan as (Hlen & _ & Htrack & Hsize).
    destruct us as [| u us].
    + cbn. rewrite Htrack. now split.
    + unfold bind, get, modify. cbn [_videoTrack set_videoTrack _naluLengthSize].
      split; [| exact Hsize].
      rewrite Htrack. destruct Hacc as (Hsum & Hall).
      split; cbn [track_length samples].
      * rewrite map_app. cbn [map]. rewrite Zsum_snoc. cbn [sample_length]. lia.
      * apply Forall_app. split; [exact Hall |].
        constructor; [| constructor]. cbn. split; [discriminate | exact Hlen].
  - cbn. destruct Hscan as (Htrack & Hsize). rewrite Htrack. now split.
Qed.

(** *** A well-formed frame is read back unit by unit *)

Lemma byteZ_byte_of_Z z : 0 <= z < 256 -> byteZ (byte_of_Z z) = z.
Proof.
  intros H. unfold byteZ, byte_of_Z.
  destruct (Byte.of_N (Z.to_N z)) as [b |] eqn:E.
  - apply Byte.to_of_N in E. rewrite E. lia.
  - apply Byte.of_N_None_iff in E. lia.
Qed.

Lemma lor_shiftl_add a n b :
  0 <= n -> 0 <= b < 2 ^ n -> Z.lor (Z.shiftl a n) b = a * 2 ^ n + b.
Proof.
  intros Hn Hb.
  assert (Hland : Z.land (Z.shiftl a n) b = 0).
  { apply Z.bits_inj'. intros m Hm. rewrite Z.land_spec, Z.bits_0.
    destruct (Z.lt_ge_cases m n) as [Hlt | Hge].
    - now rewrite Z.shiftl_spec_low.
    - destruct (Z.eq_dec b 0) as [-> | Hne]; [now rewrite Z.bits_0, andb_false_r |].
      rewrite (Z.bits_above_log2 b m), andb_false_r; [reflexivity | lia |].
      apply Z.log2_lt_pow2; [lia |].
      apply Z.lt_le_trans with (2 ^ n); [lia |].
      apply Z.pow_le_mono_r; lia. }
  pose proof (Z.add_lor_land (Z.shiftl a n) b) as H.
  rewrite Hland in H. rewrite Z.shiftl_mul_pow2 in * by lia. lia.
Qed.

Lemma lor_add a b n :
  0 <= n -> 0 <= b < 2 ^ n -> a mod 2 ^ n = 0 -> Z.lor a b = a + b.
Proof.
  intros Hn Hb Ha.
  assert (Hpos : 0 < 2 ^ n) by (apply Z.pow_pos_nonneg; lia).
  assert (E : a = Z.shiftl (a / 2 ^ n) n).
  { rewrite Z.shiftl_mul_pow2 by lia.
    pose proof (Z.div_mod a (2 ^ n) ltac:(lia)). lia. }
  rewrite E at 1. rewrite lor_shiftl_add by assumption.
  pose proof (Z.div_mod a (2 ^ n) ltac:(lia)). lia.
Qed.

(** The big-endian reading of the four bytes of [be32 n] is [n]. *)
Lemma be32_value n :
  0 <= n < 2 ^ 32 ->
  Z.lor (Z.lor (Z.lor (Z.shiftl (n / 2 ^ 24 mod 256) 24)
                      (Z.shiftl (n / 2 ^ 16 mod 256) 16))
               (Z.shiftl (n / 2 ^ 8 mod 256) 8))
        (n mod 256) = n.
Proof.
  intros Hn.
  rewrite !Z.shiftl_mul_pow2 by lia.
  change (2 ^ 24) with 16777216 in *. change (2 ^ 16) with 65536 in *.
  change (2 ^ 8) with 256 in *. change (2 ^ 32) with 4294967296 in *.
  set (s3 := (n / 16777216) mod 256 * 16777216).
  set (s2 := (n / 65536) mod 256 * 65536).
  set (s1 := (n / 256) mod 256 * 256).
  rewrite (lor_add s3 s2 24), (lor_add (s3 + s2) s1 16),
    (lor_add (s3 + s2 + s1) (n mod 256) 8);
    subst s3 s2 s1;
    change (2 ^ 24) with 16777216; change (2 ^ 16) with 65536;
    change (2 ^ 8) with 256;
    try (Z.to_euclidean_division_equations; lia).
Qed.

Lemma subarray_app (a x b : list byte) :
  subarray (a ++ x ++ b) (byteLength a) (byteLength x) = x.
Proof.
  unfold subarray, byteLength. rewrite !Nat2Z.id.
  rewrite skipn_app, skipn_all, Nat.sub_diag. cbn [app skipn].
  rewrite firstn_app, firstn_all, Nat.sub_diag. cbn [firstn]. apply app_nil_r.
Qed.

Lemma byte_at_app (a x b : list byte) i :
  0 <= i < byteLength x ->
  byte_at (a ++ x ++ b) (byteLength a + i) = byte_at x i.
Proof.
  intros Hi. unfold byte_at, byteLength in *. f_equal.
  replace (Z.to_nat (Z.of_nat (List.length a) + i))
    with (List.length a + Z.to_nat i)%nat by lia.
  rewrite app_nth2_plus. apply app_nth1. lia.
Qed.

(** The little-endian reading of the same four bytes reversed is [n]. *)
Lemma le32_value n :
  0 <= n < 2 ^ 32 ->
  Z.lor (Z.lor (Z.lor (n mod 256) (Z.shiftl (n / 2 ^ 8 mod 256) 8))
               (Z.shiftl (n / 2 ^ 16 mod 256) 16))
        (Z.shiftl (n / 2 ^ 24 mod 256) 24) = n.
Proof.
  intros Hn. etransitivity; [| exact (be32_value n Hn)].
  set (b0 := n mod 256). set (b1 := Z.shiftl _ 8).
  set (b2 := Z.shiftl _ 16). set (b3 := Z.shiftl _ 24).
  rewrite (Z.lor_comm (Z.lor (Z.lor b0 b1) b2) b3), (Z.lor_comm (Z.lor b0 b1) b2),
    (Z.lor_comm b0 b1), !Z.lor_assoc.
  reflexivity.
Qed.

Lemma byteLength_prefix32 le n : byteLength (prefix32 le n) = 4.
Proof. now destruct le. Qed.

Lemma getUint32_prefix32 (a b : list byte) le n (d : H264Demuxer) :
  0 <= n < 2 ^ 32 ->
  getUint32 (a ++ prefix32 le n ++ b) (byteLength a) (negb le) d = Ok n d.
Proof.
  intros Hn. unfold getUint32.
  assert (Hw : window_ok (byteLength (a ++ prefix32 le n ++ b)) (byteLength a) 4 = true).
  { rewrite !byteLength_app, byteLength_prefix32. pose proof (byteLength_nonneg a).
    pose proof (byteLength_nonneg b).
    unfold window_ok. repeat (apply andb_true_intro; split); apply Z.leb_le; lia. }
  rewrite Hw. clear Hw.
  destruct le; cbn [negb];
    (replace (byteLength a) with (byteLength a + 0) at 1 by lia);
    rewrite !byte_at_app by (rewrite byteLength_prefix32; lia).
  - change (byte_at (prefix32 true n) 0) with (byteZ (byte_of_Z (n / 2 ^ 24 mod 256))).
    change (byte_at (prefix32 true n) 1) with (byteZ (byte_of_Z (n / 2 ^ 16 mod 256))).
    change (byte_at (prefix32 true n) 2) with (byteZ (byte_of_Z (n / 2 ^ 8 mod 256))).
    change (byte_at (prefix32 true n) 3) with (byteZ (byte_of_Z (n mod 256))).
    rewrite !byteZ_byte_of_Z by (apply Z.mod_pos_bound; lia).
    unfold ret. now rewrite be32_value.
  - change (byte_at (prefix32 false n) 0) with (byteZ (byte_of_Z (n mod 256))).
    change (byte_at (prefix32 false n) 1) with (byteZ (byte_of_Z (n / 2 ^ 8 mod 256))).
    change (byte_at (prefix32 false n) 2) with (byteZ (byte_of_Z (n / 2 ^ 16 mod 256))).
    change (byte_at (prefix32 false n) 3) with (byteZ (byte_of_Z (n / 2 ^ 24 mod 256))).
    rewrite !byteZ_byte_of_Z by (apply Z.mod_pos_bound; lia).
    unfold ret. now rewrite le32_value.
Qed.

Lemma frame_of_cons le nalu nalus :
  frame_of le (nalu :: nalus)
  = prefix32 le (byteLength nalu) ++ nalu ++ frame_of le nalus.
Proof. unfold frame_of. cbn [flat_map]. now rewrite <- app_assoc. Qed.

Lemma scan_units_frame (pre post frame : list byte) (d : H264Demuxer) le dts :
  forall todo done units length keyframe fuel,
    frame = done ++ frame_of le todo ->
    Forall (fun nalu => 1 <= byteLength nalu < 2 ^ 32) todo ->
    (List.length todo < fuel)%nat ->
    scan_units fuel (pre ++ frame ++ post) frame (byteLength pre) (byteLength frame)
               4 dts le units length (byteLength done) keyframe d
    = Ok (Some (units ++ map (unit_of le) todo,
                length + byteLength (frame_of le todo),
                keyframe || existsb (fun nalu => unit_type (unit_of le nalu) =? 5) todo))
         d.
Proof.
  induction todo as [| nalu todo IH];
    intros done units length keyframe fuel Hframe Hall Hfuel;
    (destruct fuel as [| fuel]; [cbn in Hfuel; lia |]); cbn [scan_units].
  - cbn [frame_of flat_map] in Hframe. rewrite app_nil_r in Hframe. subst frame.
    rewrite Z.ltb_irrefl. cbn [map existsb frame_of flat_map].
    unfold ret. rewrite app_nil_r, orb_false_r.
    change (byteLength []) with 0. now rewrite Z.add_0_r.
  - inversion Hall as [| ? ? Hnalu Hrest]; subst.
    rewrite frame_of_cons in *.
    set (n := byteLength nalu) in *.
    set (rest := frame_of le todo) in *.
    set (prefix := prefix32 le n) in *.
    pose proof (byteLength_prefix32 le n) as Hprefix. fold prefix in Hprefix.
    pose proof (byteLength_nonneg done) as Hd.
    pose proof (byteLength_nonneg rest) as Hr.
    pose proof (byteLength_nonneg pre) as Hp.
    pose proof (byteLength_nonneg post) as Hq.
    assert (Hlen : byteLength (done ++ prefix ++ nalu ++ rest)
                   = byteLength done + 4 + n + byteLength rest).
    { rewrite !byteLength_app, Hprefix. fold n. lia. }
    rewrite Hlen.
    replace (byteLength done <? byteLength done + 4 + n + byteLength rest) with true
      by (symmetry; apply Z.ltb_lt; lia).
    replace (byteLength done + 4 + n + byteLength rest <=? byteLength done + 4) with false
      by (symmetry; apply Z.leb_gt; lia).
    unfold bind at 1.
    unfold prefix at 1. rewrite (getUint32_prefix32 done (nalu ++ rest) le n d) by lia.
    fold prefix.
    change (4 =? 3) with false. cbv iota.
    replace (byteLength done + 4 + n + byteLength rest - 4 <? n) with false
      by (symmetry; apply Z.ltb_ge; lia).
    (* the header byte *)
    assert (H8 : getUint8 (done ++ prefix ++ nalu ++ rest) (byteLength done + 4) d
                 = Ok (byte_at nalu 0) d).
    { unfold getUint8. rewrite Hlen.
      replace (window_ok _ _ _) with true
        by (symmetry; unfold window_ok;
            repeat (apply andb_true_intro; split); apply Z.leb_le; lia).
      unfold ret. f_equal.
      replace (done ++ prefix ++ nalu ++ rest)
        with ((done ++ prefix) ++ nalu ++ rest) by (now rewrite <- app_assoc).
      replace (byteLength done + 4) with (byteLength (done ++ prefix) + 0)
        by (rewrite byteLength_app, Hprefix; lia).
      apply byte_at_app. fold n. lia. }
    unfold bind at 1. rewrite H8.
    (* the unit *)
    assert (Hdata : subarray (pre ++ (done ++ prefix ++ nalu ++ rest) ++ post)
                             (byteLength pre + byteLength done) (4 + n)
                    = prefix ++ nalu).
    { replace (pre ++ (done ++ prefix ++ nalu ++ rest) ++ post)
        with ((pre ++ done) ++ (prefix ++ nalu) ++ (rest ++ post))
        by (now rewrite <- !app_assoc).
      replace (byteLength pre + byteLength done) with (byteLength (pre ++ done))
        by apply byteLength_app.
      replace (4 + n) with (byteLength (prefix ++ nalu))
        by (rewrite byteLength_app, Hprefix; reflexivity).
      apply subarray_app. }
    rewrite Hdata.
    replace (window_ok _ _ _) with true
      by (symmetry; rewrite !byteLength_app, Hprefix;
          fold n; unfold window_ok;
          repeat (apply andb_true_intro; split); apply Z.leb_le; lia).
    unfold bind at 1. cbn [ret].
    specialize (IH (done ++ prefix ++ nalu)
                   (units ++ [{| unit_type := Z.land (byte_at nalu 0) 31;
                                 unit_data := prefix ++ nalu |}])
                   (length + byteLength (prefix ++ nalu))
                   (if Z.land (byte_at nalu 0) 31 =? 5 then true else keyframe)
                   fuel).
    rewrite <- Hlen.
    replace (byteLength done + 4 + n) with (byteLength (done ++ prefix ++ nalu))
      by (rewrite !byteLength_app, Hprefix; fold n; lia).
    replace (done ++ prefix ++ nalu ++ rest) with ((done ++ prefix ++ nalu) ++ rest) in *
      by (now rewrite <- !app_assoc).
    rewrite IH; [| reflexivity | exact Hrest | cbn in Hfuel; lia].
    f_equal. f_equal. f_equal; [f_equal |].
    + cbn [map]. unfold unit_of at 2. fold n. fold prefix. now rewrite <- app_assoc.
    + rewrite !byteLength_app. fold rest. lia.
    + cbn [existsb unit_of unit_type].
      destruct (Z.land (byte_at nalu 0) 31 =? 5), keyframe; reflexivity.
Qed.

Lemma frame_of_length le nalus :
  Z.of_nat (List.length nalus) <= byteLength (frame_of le nalus).
Proof.
  induction nalus as [| nalu nalus IH]; [cbn; lia |].
  rewrite frame_of_cons, !byteLength_app, byteLength_prefix32.
  pose proof (byteLength_nonneg nalu). cbn [List.length]. lia.
Qed.

(** X22: a payload made of NAL units, each behind the four bytes of its
    length in the order the scan reads them with [getUint32(offset, !le)]
    (the most significant first where [_littleEndian] is true, as on a
    little-endian platform; the least significant first where it is
    false), is read back: the call appends one sample whose units are those
    units in order, prefix included, with the type of each in the low five
    bits of its first byte, whose length is that of the payload, and which
    is a key frame when the frame type is 1 or a unit has type 5. *)
Theorem well_formed_frame_is_read_back :
  forall (pre post : list byte) (nalus : list (list byte))
         (tagTimestamp tagPosition frameType cts : Z) (d : H264Demuxer),
    _naluLengthSize d = 4 ->
    nalus <> [] ->
    Forall (fun nalu => 1 <= byteLength nalu < 2 ^ 32) nalus ->
    let le := _littleEndian d in
    let frame := frame_of le nalus in
    let keyframe :=
      (frameType =? 1) || existsb (fun nalu => unit_type (unit_of le nalu) =? 5) nalus in
    let dts := _timestampBase d + tagTimestamp in
    _parseAVCVideoData (pre ++ frame ++ post) (byteLength pre) (byteLength frame)
                       tagTimestamp tagPosition frameType cts d
    = Ok tt
        (set_videoTrack
           {| track_type := track_type (_videoTrack d);
              track_id := track_id (_videoTrack d);
              sequenceNumber := sequenceNumber (_videoTrack d);
              samples :=
                samples (_videoTrack d)
                ++ [{| units := map (unit_of le) nalus;
                       sample_length := byteLength frame;
                       isKeyframe := keyframe;
                       dts := dts; cts := cts; pts := dts + cts;
                       fileposition := if keyframe then Some tagPosition else None |}];
              track_length := track_length (_videoTrack d) + byteLength frame |}
           d).
Proof.
  intros pre post nalus tagTimestamp tagPosition frameType cts d Hls Hne Hall
    le frame keyframe dts.
  unfold _parseAVCVideoData. unfold bind at 1. cbn [get].
  pose proof (byteLength_nonneg pre) as Hp.
  pose proof (byteLength_nonneg post) as Hq.
  pose proof (byteLength_nonneg frame) as Hf.
  replace (window_ok _ _ _) with true
    by (symmetry; rewrite !byteLength_app; unfold window_ok;
        repeat (apply andb_true_intro; split); apply Z.leb_le; lia).
  unfold bind at 1. cbn [ret]. rewrite subarray_app, Hls. fold le.
  unfold bind at 1.
  change 0 with (byteLength (@nil byte)) at 2.
  rewrite (scan_units_frame pre post frame d le (_timestampBase d + tagTimestamp) nalus []);
    [| reflexivity | exact Hall
     | pose proof (frame_of_length le nalus); unfold frame in *; lia].
  cbn [app]. destruct nalus as [| nalu nalus]; [contradiction |].
  cbn [map]. unfold bind, get, modify. rewrite Z.add_0_l. reflexivity.
Qed.

End FrameScan.

(** ** The demuxer: further properties *)

Section DemuxerMore.

Import H264.

Variable parseSPS : list byte -> option SPSConfig.

(** *** Raising before anything is parsed *)

(** X19: [parseChunks] raises before anything is parsed when a callback is
    missing (IllegalStateException, the object untouched) or the chunk is
    shorter than the five bytes of timestamp and header (RangeError, with
    [_firstParse] cleared). *)
Theorem parseChunks_raises_before_parsing :
  forall (host : Host) (chunk : list byte) (byteStart : Z) (d : H264Demuxer),
    registered d = false \/ byteLength chunk < 5 ->
    parseChunks parseSPS host chunk byteStart d =
    Throw (if registered d then RangeError else IllegalStateException)
          (if registered d && _firstParse d then set_firstParse false d else d).
Proof.
  intros host chunk byteStart d H.
  unfold parseChunks. unfold bind at 1. cbn [get].
  rewrite not_registered_iff.
  destruct (registered d) eqn:Hreg; cbn [negb andb]; [| reflexivity].
  destruct H as [H | H]; [discriminate |].
  pose proof (byteLength_nonneg chunk) as Hlen.
  assert (E : forall d0, _parseVideoData parseSPS host chunk d0 = Throw RangeError d0).
  { intros d0. unfold _parseVideoData. unfold bind at 1. cbn [get].
    unfold bind at 1. unfold getUint32.
    destruct (window_ok (byteLength chunk) 0 4) eqn:E4; [| reflexivity].
    cbn [ret]. unfold bind at 1. unfold getUint8.
    destruct (window_ok (byteLength chunk) 4 1) eqn:E1; [| reflexivity].
    unfold window_ok in E1. apply andb_prop in E1. destruct E1 as (_ & E1).
    apply Z.leb_le in E1. lia. }
  destruct (_firstParse d); cbn [when]; unfold bind; cbn [modify ret]; now rewrite E.
Qed.

(** *** The samples stay in the track *)

Lemma dispatch_off_refl d : dispatch_off d d.
Proof. intros H. now split. Qed.

Lemma dispatch_off_trans d1 d2 d3 : dispatch_off d1 d2 -> dispatch_off d2 d3 -> dispatch_off d1 d3.
Proof.
  intros H1 H2 H. destruct (H1 H) as (Ha & Hb). destruct (H2 Ha) as (Hc & Hd).
  split; [exact Hc | congruence].
Qed.

Lemma handed_over_snoc ns n :
  match n with NDataAvailable _ _ => False | _ => True end ->
  handed_over (ns ++ [n]) = handed_over ns.
Proof.
  intros H. unfold handed_over. rewrite filter_app. cbn.
  destruct n; try contradiction; apply app_nil_r.
Qed.

Ltac off_step :=
  lazymatch goal with
  | |- keeps _ (ret _) _ => apply (keeps_ret _ dispatch_off_refl)
  | |- keeps _ (throw _) _ => apply (keeps_throw _ dispatch_off_refl)
  | |- keeps _ hang _ => apply keeps_hang
  | |- keeps _ (bind get _) _ => apply keeps_bind_get; cbv beta
  | |- keeps _ (bind _ _) _ => apply (keeps_bind _ dispatch_off_trans); [| intros ? ? _]
  | |- keeps _ (when ?c _) _ => destruct c eqn:?; cbn [when]
  | |- keeps _ (notify ?n) _ =>
      apply keeps_modify; intros ?; cbn; split;
      [assumption | apply handed_over_snoc; exact I]
  | |- keeps _ (modify _) _ => apply keeps_modify; intros ?; cbn; split; auto
  | |- keeps _ (if ?c then _ else _) _ => destruct c eqn:?
  | |- keeps _ (match ?x with _ => _ end) _ => destruct x eqn:?
  | |- keeps _ _ _ => solve [auto with off]
  end.

Ltac off_tac := repeat off_step.

Create HintDb off.

Lemma off_getUint8 v offset d : keeps dispatch_off (getUint8 v offset) d.
Proof. unfold getUint8. off_tac. Qed.

Lemma off_getUint32 v offset le d : keeps dispatch_off (getUint32 v offset le) d.
Proof. unfold getUint32. off_tac. Qed.

Hint Resolve off_getUint8 off_getUint32 : off.

Lemma off_codec_loop codecArray n :
  forall j codecString d, keeps dispatch_off (codec_loop codecArray j n codecString) d.
Proof.
  induction n as [| n IH]; intros j codecString d; cbn [codec_loop]; off_tac.
Qed.

Hint Resolve off_codec_loop : off.

Lemma off_parseAVCSPSVideoData arrayBuffer offset d :
  keeps dispatch_off (_parseAVCSPSVideoData parseSPS arrayBuffer offset) d.
Proof. unfold _parseAVCSPSVideoData. off_tac. Qed.

Lemma off_scan_units fuel arrayBuffer v dataOffset dataSize lengthSize dts le :
  forall units length offset keyframe d,
    keeps dispatch_off
      (scan_units fuel arrayBuffer v dataOffset dataSize lengthSize dts le
                  units length offset keyframe) d.
Proof.
  induction fuel as [| fuel IH]; intros units length offset keyframe d;
    cbn [scan_units]; off_tac.
Qed.

Hint Resolve off_parseAVCSPSVideoData off_scan_units : off.

Lemma off_parseAVCVideoData arrayBuffer dataOffset dataSize tagTimestamp
    tagPosition frameType cts d :
  keeps dispatch_off
    (_parseAVCVideoData arrayBuffer dataOffset dataSize tagTimestamp tagPosition
                        frameType cts) d.
Proof. unfold _parseAVCVideoData. off_tac. Qed.

Hint Resolve off_parseAVCVideoData : off.

Lemma off_call_parseAVCVideoPacket host arrayBuffer d :
  packet_parser_scans host ->
  keeps dispatch_off (call_parseAVCVideoPacket host arrayBuffer) d.
Proof.
  intros [H | (cts & H)]; unfold call_parseAVCVideoPacket; rewrite H; off_tac.
Qed.

Lemma off_parseChunks host chunk byteStart d :
  packet_parser_scans host ->
  keeps dispatch_off (parseChunks parseSPS host chunk byteStart) d.
Proof.
  intros Hhost. unfold parseChunks, _parseVideoData. off_tac.
  all: try (now apply off_call_parseAVCVideoPacket).
  match goal with
  | H : _dispatch _ && _ = true |- _ => apply andb_prop in H; destruct H as (Hd & _)
  end.
  unfold notify. apply keeps_modify. intros Hshut. congruence.
Qed.

(** X20: while [_dispatch] is false it stays false along a session, and
    [onDataAvailable] is never called: the samples the scan gathers stay in
    the track. *)
Theorem samples_are_never_handed_over :
  forall (host : Host) (chunks : list (list byte * Z)) (d d' : H264Demuxer),
    packet_parser_scans host ->
    _dispatch d = false ->
    parse_session parseSPS host chunks d = Some d' ->
    _dispatch d' = false /\ handed_over (notified d') = handed_over (notified d).
Proof.
  intros host chunks d d' Hhost Hd Hrun.
  refine (keeps_run_all dispatch_off dispatch_off_refl dispatch_off_trans
            (fun c => parseChunks parseSPS host (fst c) (snd c)) _ chunks d d' Hrun Hd).
  intros c x. now apply off_parseChunks.
Qed.

(** *** What a parameter set leaves in the metadata *)

Ltac dm_eval :=
  lazy beta iota zeta delta
    [bind ret get gets modify throw hang when notify
     set_firstParse set_hasVideo set_mediaInfo set_videoMetadata set_videoTrack
     set_notified
     _onError _onMediaInfo _onTrackMetadata _onDataAvailable _firstParse _dispatch
     _hasAudio _hasVideo _audioInitialMetadataDispatched
     _videoInitialMetadataDispatched _mediaInfo _videoMetadata _naluLengthSize
     _timestampBase _timescale _duration _referenceFrameRate _videoTrack
     _audioTrack _littleEndian notified
     meta_type meta_id meta_timescale meta_duration meta_geometry meta_codec
     mi_hasAudio mi_hasVideo mi_duration mi_video].

Lemma subarray_to_end (l : list byte) (off : Z) :
  0 <= off <= byteLength l ->
  subarray l off (byteLength l - off) = skipn (Z.to_nat off) l.
Proof.
  intros H. unfold subarray. apply firstn_all2.
  rewrite length_skipn. unfold byteLength in *. lia.
Qed.

Lemma codec_loop_three (b1 b2 b3 : byte) (more : list byte) (s : string)
    (d : H264Demuxer) :
  codec_loop (b1 :: b2 :: b3 :: more) 0 3 s d
  = Ok (String.append
          (String.append (String.append s (hex2 (byteZ b1))) (hex2 (byteZ b2)))
          (hex2 (byteZ b3))) d.
Proof. reflexivity. Qed.

Lemma append_assoc (s1 s2 s3 : string) :
  String.append (String.append s1 s2) s3 = String.append s1 (String.append s2 s3).
Proof. induction s1 as [| c s1 IH]; cbn; [reflexivity | now rewrite IH]. Qed.

(** Two lower-case hexadecimal digits that spell the byte. *)
Lemma hex2_spells (b : byte) :
  exists hi lo,
    hex2 (byteZ b) = String hi (String lo EmptyString) /\
    unhex2 (hex2 (byteZ b)) = Some (byteZ b).
Proof. destruct b; do 2 eexists; split; reflexivity. Qed.

(** The object after [_parseAVCSPSVideoData] on a chunk whose parameter
    set decodes to [config]. *)
Lemma parseAVCSPSVideoData_result (chunk : list byte) (d : H264Demuxer)
    (config : SPSConfig) :
  9 <= byteLength chunk ->
  parseSPS (subarray chunk 5 (byteLength chunk - 5)) = Some config ->
  _onMediaInfo d = true ->
  _onTrackMetadata d = true ->
  exists d' meta g mi v,
    _parseAVCSPSVideoData parseSPS chunk 5 d = Ok tt d' /\
    _videoMetadata d' = Some meta /\
    meta_geometry meta = Some g /\
    _mediaInfo d' = mi /\
    mi_video mi = Some v /\
    notified d' = notified d ++ [NMediaInfo mi; NTrackMetadata "video" meta] /\
    frameRate g = (if usable (frame_rate config) then frame_rate config
                   else _referenceFrameRate d) /\
    refSampleDuration g
    = (inject_Z (meta_timescale meta)
       * (inject_Z (fps_den (frameRate g)) / inject_Z (fps_num (frameRate g))))%Q /\
    meta_timescale meta
    = match _videoMetadata d with
      | Some old => meta_timescale old
      | None => _timescale d
      end /\
    meta_codec meta
    = Some (String.append "avc1."
              (String.append (hex2 (byte_at chunk 6))
                 (String.append (hex2 (byte_at chunk 7)) (hex2 (byte_at chunk 8))))) /\
    mi_videoCodec v
    = String.append "avc1."
        (String.append (hex2 (byte_at chunk 6))
           (String.append (hex2 (byte_at chunk 7)) (hex2 (byte_at chunk 8)))) /\
    mi_mimeType v
    = String.append "video/x-flv; codecs="
        (String.append dquote
           (String.append
              (String.append "avc1."
                 (String.append (hex2 (byte_at chunk 6))
                    (String.append (hex2 (byte_at chunk 7)) (hex2 (byte_at chunk 8)))))
              dquote)) /\
    mi_fps v = fps (frameRate g) /\
    (mi_width v, mi_height v) = (width (codec_size config), height (codec_size config)) /\
    (codecWidth g, codecHeight g) = (width (codec_size config), height (codec_size config)).
Proof.
  intros Hlen Hsps Hmi Htm.
  pose proof (byteLength_nonneg chunk) as Hnn.
  rewrite subarray_to_end in Hsps by lia.
  unfold _parseAVCSPSVideoData.
  replace (window_ok _ _ _) with true
    by (symmetry; unfold window_ok;
        repeat (apply andb_true_intro; split); apply Z.leb_le; lia).
  rewrite subarray_to_end by lia. rewrite Hsps.
  destruct chunk as [| c0 [| c1 [| c2 [| c3 [| c4 [| c5 [| c6 [| c7 [| c8 more]]]]]]]]];
    try (cbn in Hlen; lia).
  change (Z.to_nat 5) with 5%nat. cbn [skipn firstn].
  change (byte_at _ 6) with (byteZ c6). change (byte_at _ 7) with (byteZ c7).
  change (byte_at _ 8) with (byteZ c8).
  assert (Hrate : (if negb (fixed (frame_rate config)) || (fps_num (frame_rate config) =? 0)
                       || (fps_den (frame_rate config) =? 0)
                   then _referenceFrameRate d else frame_rate config)
                  = (if usable (frame_rate config) then frame_rate config
                     else _referenceFrameRate d)).
  { unfold usable. destruct (fixed (frame_rate config)),
      (fps_num (frame_rate config) =? 0), (fps_den (frame_rate config) =? 0); reflexivity. }
  destruct d. cbn in Hmi, Htm, Hrate. subst.
  destruct _videoMetadata0 as [old |]; dm_eval; rewrite codec_loop_three; dm_eval;
    rewrite !append_assoc, Hrate;
    do 5 eexists; (split; [reflexivity |]); dm_eval;
    (split; [reflexivity |]); (split; [reflexivity |]); (split; [reflexivity |]);
    (split; [reflexivity |]);
    (split; [rewrite <- app_assoc; reflexivity |]);
    repeat (split; [first [reflexivity | rewrite !append_assoc; reflexivity] |]);
    reflexivity.
Qed.

(** X23: for a parameter set that decodes, the codec string is [avc1.]
    followed by the bytes 6, 7 and 8 of the chunk as two lower-case
    hexadecimal digits each: it is 11 characters long, its digits read back
    as those bytes, and the MIME type quotes it. *)
Theorem sps_codec_string_spells_three_bytes :
  forall (chunk : list byte) (d : H264Demuxer),
    registered d = true ->
    decodable_sps parseSPS chunk ->
    returns (_parseAVCSPSVideoData parseSPS chunk 5 d) (fun _ d' =>
      exists meta v codec,
        _videoMetadata d' = Some meta /\
        mi_video (_mediaInfo d') = Some v /\
        meta_codec meta = Some codec /\
        mi_videoCodec v = codec /\
        mi_mimeType v
        = String.append "video/x-flv; codecs="
            (String.append dquote (String.append codec dquote)) /\
        codec = String.append "avc1."
                  (String.append (hex2 (byte_at chunk 6))
                     (String.append (hex2 (byte_at chunk 7)) (hex2 (byte_at chunk 8)))) /\
        String.length codec = 11%nat /\
        map unhex2 [String.substring 5 2 codec; String.substring 7 2 codec;
                    String.substring 9 2 codec]
        = [Some (byte_at chunk 6); Some (byte_at chunk 7); Some (byte_at chunk 8)]).
Proof.
  intros chunk d Hreg (_ & Hlen & config & Hsps).
  unfold registered in Hreg.
  apply andb_prop in Hreg. destruct Hreg as (Hreg & _).
  apply andb_prop in Hreg. destruct Hreg as (Hreg & Htm).
  apply andb_prop in Hreg. destruct Hreg as (_ & Hmi).
  destruct (parseAVCSPSVideoData_result chunk d config Hlen Hsps Hmi Htm)
    as (d' & meta & g & mi & v & Hrun & Hmeta & _ & Hinfo & Hv & _ & _ & _ & _
        & Hcodec & Hvc & Hmime & _).
  rewrite Hrun. cbn [returns]. exists meta, v. eexists.
  split; [exact Hmeta |]. split; [now rewrite Hinfo |]. split; [exact Hcodec |].
  split; [exact Hvc |]. split; [exact Hmime |]. split; [reflexivity |].
  destruct chunk as [| c0 [| c1 [| c2 [| c3 [| c4 [| c5 [| c6 [| c7 [| c8 more]]]]]]]]];
    try (cbn in Hlen; lia).
  change (byte_at _ 6) with (byteZ c6). change (byte_at _ 7) with (byteZ c7).
  change (byte_at _ 8) with (byteZ c8).
  destruct (hex2_spells c6) as (h6 & l6 & E6 & U6).
  destruct (hex2_spells c7) as (h7 & l7 & E7 & U7).
  destruct (hex2_spells c8) as (h8 & l8 & E8 & U8).
  rewrite E6, E7, E8 in *. split; [reflexivity |].
  cbn [String.append String.substring map]. now rewrite U6, U7, U8.
Qed.


End DemuxerMore.

(** ** The byte-order helpers *)

Section Words.

Import H264.

(** *** The 32-bit operators, bit by bit *)

Lemma ToUint32_testbit x n :
  0 <= n -> Z.testbit (ToUint32 x) n = (n <? 32) && Z.testbit x n.
Proof.
  intros Hn. unfold ToUint32. destruct (n <? 32) eqn:E.
  - apply Z.ltb_lt in E. now rewrite Z.mod_pow2_bits_low.
  - apply Z.ltb_ge in E. now rewrite Z.mod_pow2_bits_high.
Qed.

Lemma ToInt32_testbit x n :
  Z.testbit (ToInt32 x) n = Z.testbit x (Z.min n 31).
Proof.
  destruct (Z.lt_ge_cases n 0) as [Hneg | Hn];
    [rewrite Z.min_l by lia; now rewrite !Z.testbit_neg_r |].
  unfold ToInt32.
  assert (Hu : 0 <= x mod 2 ^ 32 < 2 ^ 32) by (apply Z.mod_pos_bound; lia).
  assert (H31 : Z.testbit x 31 = Z.testbit (x mod 2 ^ 32) 31)
    by (now rewrite Z.mod_pow2_bits_low).
  set (u := x mod 2 ^ 32) in *.
  destruct (Z.lt_ge_cases n 32) as [Hlt | Hge].
  - rewrite Z.min_l by lia.
    assert (E : Z.testbit x n = Z.testbit u n)
      by (unfold u; now rewrite Z.mod_pow2_bits_low).
    rewrite E. destruct (2 ^ 31 <=? u); [| reflexivity].
    rewrite <- (Z.mod_pow2_bits_low (u - 2 ^ 32) 32 n) by lia.
    rewrite <- (Z.mod_pow2_bits_low u 32 n) by lia.
    f_equal. replace (u - 2 ^ 32) with (u + (-1) * 2 ^ 32) by lia.
    apply Z.mod_add. lia.
  - rewrite Z.min_r by lia. rewrite H31.
    destruct (2 ^ 31 <=? u) eqn:E.
    + apply Z.leb_le in E.
      rewrite Z.bits_above_log2_neg.
      * symmetry. apply Z.testbit_true; [lia |].
        replace (u / 2 ^ 31) with 1; [reflexivity |].
        apply Z.div_unique with (u - 2 ^ 31); lia.
      * lia.
      * destruct (Z.eq_dec (Z.pred (- (u - 2 ^ 32))) 0) as [-> | Hne]; [cbn; lia |].
        apply Z.log2_lt_pow2; [lia |].
        apply Z.lt_le_trans with (2 ^ 31); [lia |].
        apply Z.pow_le_mono_r; lia.
    + apply Z.leb_gt in E.
      destruct (Z.eq_dec u 0) as [-> | Hne]; [now rewrite !Z.bits_0 |].
      rewrite !Z.bits_above_log2; try reflexivity; try lia.
      * apply Z.log2_lt_pow2; lia.
      * apply Z.log2_lt_pow2; [lia |].
        apply Z.lt_le_trans with (2 ^ 31); [lia |].
        apply Z.pow_le_mono_r; lia.
Qed.

Lemma js_and_testbit a b n :
  Z.testbit (js_and a b) n = Z.testbit a (Z.min n 31) && Z.testbit b (Z.min n 31).
Proof.
  unfold js_and. rewrite ToInt32_testbit, Z.land_spec, !ToInt32_testbit.
  now rewrite Z.min_l by lia.
Qed.

Lemma js_or_testbit a b n :
  Z.testbit (js_or a b) n = Z.testbit a (Z.min n 31) || Z.testbit b (Z.min n 31).
Proof.
  unfold js_or. rewrite ToInt32_testbit, Z.lor_spec, !ToInt32_testbit.
  now rewrite Z.min_l by lia.
Qed.

Lemma js_shl_testbit a k n :
  0 <= n -> 0 <= k < 32 ->
  Z.testbit (js_shl a k) n
  = (k <=? Z.min n 31) && Z.testbit a (Z.min n 31 - k).
Proof.
  intros Hn Hk. unfold js_shl, ToUint32.
  rewrite (Z.mod_small k) by lia. rewrite (Z.mod_small k) by lia.
  rewrite ToInt32_testbit.
  destruct (k <=? Z.min n 31) eqn:E.
  - apply Z.leb_le in E. rewrite Z.shiftl_spec by lia.
    rewrite ToInt32_testbit. now rewrite Z.min_l by lia.
  - apply Z.leb_gt in E. now rewrite Z.shiftl_spec_low by lia.
Qed.

Lemma js_shru_testbit a k n :
  0 <= n -> 0 <= k < 32 ->
  Z.testbit (js_shru a k) n = (n + k <? 32) && Z.testbit a (n + k).
Proof.
  intros Hn Hk. unfold js_shru. unfold ToUint32 at 2.
  rewrite (Z.mod_small k) by lia. rewrite (Z.mod_small k) by lia.
  rewrite Z.shiftr_spec by lia. apply ToUint32_testbit. lia.
Qed.

Ltac bit_cases m :=
  let H := fresh in
  assert (H : m = 0 \/ m = 1 \/ m = 2 \/ m = 3 \/ m = 4 \/ m = 5 \/ m = 6 \/ m = 7 \/
              m = 8 \/ m = 9 \/ m = 10 \/ m = 11 \/ m = 12 \/ m = 13 \/ m = 14 \/
              m = 15 \/ m = 16 \/ m = 17 \/ m = 18 \/ m = 19 \/ m = 20 \/ m = 21 \/
              m = 22 \/ m = 23 \/ m = 24 \/ m = 25 \/ m = 26 \/ m = 27 \/ m = 28 \/
              m = 29 \/ m = 30 \/ m = 31) by lia;
  repeat (destruct H as [H | H]; [rewrite H; clear H |]); [.. | rewrite H; clear H].

Ltac bit_finish f :=
  vm_compute;
  repeat match goal with |- context [f ?k] => destruct (f k) end;
  reflexivity.

Lemma Swap32_testbit x n :
  0 <= n -> Z.testbit (Swap32 x) n = Z.testbit x (swap_index (Z.min n 31)).
Proof.
  intros Hn. unfold Swap32.
  assert (Hm : 0 <= Z.min n 31 <= 31) by lia.
  set (m := Z.min n 31) in *.
  rewrite js_or_testbit. fold m.
  rewrite (js_or_testbit _ _ m). rewrite (Z.min_l m 31) by lia.
  rewrite (js_or_testbit _ _ m). rewrite (Z.min_l m 31) by lia.
  rewrite !js_shru_testbit, !js_shl_testbit by lia.
  rewrite (Z.min_l m 31) by lia.
  rewrite !js_and_testbit.
  set (f := Z.testbit x). clearbody f. clear Hn. clearbody m.
  bit_cases m; bit_finish f.
Qed.

Lemma swap_index_twice m : 0 <= m <= 31 -> swap_index (Z.min (swap_index m) 31) = m.
Proof.
  intros Hm. unfold swap_index.
  destruct (m <? 8) eqn:E1; [apply Z.ltb_lt in E1 | apply Z.ltb_ge in E1;
    destruct (m <? 16) eqn:E2; [apply Z.ltb_lt in E2 | apply Z.ltb_ge in E2;
      destruct (m <? 24) eqn:E3; [apply Z.ltb_lt in E3 | apply Z.ltb_ge in E3]]].
  all: rewrite Z.min_l by lia.
  all: repeat match goal with
         | |- context [?a <? ?b] =>
             first [ replace (a <? b) with true by (symmetry; apply Z.ltb_lt; lia)
                   | replace (a <? b) with false by (symmetry; apply Z.ltb_ge; lia) ]
         end; lia.
Qed.

Lemma Swap16_testbit x n :
  0 <= n ->
  Z.testbit (Swap16 x) n
  = (n <? 16) && Z.testbit x (if n <? 8 then n + 8 else n - 8).
Proof.
  intros Hn. unfold Swap16.
  assert (Hm : 0 <= Z.min n 31 <= 31) by lia.
  rewrite js_or_testbit, js_and_testbit, js_shl_testbit by lia.
  rewrite js_and_testbit, js_shru_testbit by lia.
  rewrite !Z.min_l by lia.
  destruct (Z.lt_ge_cases n 31) as [Hlt | Hge].
  - rewrite Z.min_l by lia.
    set (f := Z.testbit x). clearbody f. clear Hm.
    assert (Hc : 0 <= n <= 31) by lia. clear Hn Hlt.
    bit_cases n; bit_finish f.
  - rewrite Z.min_r by lia.
    replace (n <? 16) with false by (symmetry; apply Z.ltb_ge; lia).
    set (f := Z.testbit x). clearbody f. bit_finish f.
Qed.

(** X25: [Swap32] is its own inverse on 32-bit values and [Swap16] on
    16-bit values: swapping twice gives the argument back, as a signed
    32-bit value and modulo [2^16]. *)
Theorem swapping_twice_gives_back :
  forall x : Z,
    Swap32 (Swap32 x) = ToInt32 x /\
    Swap16 (Swap16 x) = x mod 2 ^ 16 /\
    0 <= Swap16 x < 2 ^ 16.
Proof.
  intros x.
  assert (H16 : forall y, Swap16 y = Swap16 y mod 2 ^ 16).
  { intros y. apply Z.bits_inj'. intros n Hn.
    destruct (Z.lt_ge_cases n 16) as [Hlt | Hge].
    - now rewrite Z.mod_pow2_bits_low.
    - rewrite Z.mod_pow2_bits_high by lia. rewrite Swap16_testbit by lia.
      now replace (n <? 16) with false by (symmetry; apply Z.ltb_ge; lia). }
  split; [| split].
  - apply Z.bits_inj'. intros n Hn.
    rewrite Swap32_testbit, ToInt32_testbit by lia.
    assert (Hm : 0 <= Z.min n 31 <= 31) by lia.
    assert (Hs : 0 <= swap_index (Z.min n 31)).
    { unfold swap_index.
      destruct (_ <? 8); [lia |]. destruct (_ <? 16) eqn:E2; [lia |].
      destruct (_ <? 24) eqn:E3; [apply Z.ltb_ge in E2; lia |].
      apply Z.ltb_ge in E3. lia. }
    rewrite Swap32_testbit by exact Hs.
    now rewrite swap_index_twice.
  - apply Z.bits_inj'. intros n Hn.
    rewrite Swap16_testbit by lia.
    destruct (n <? 16) eqn:E.
    + apply Z.ltb_lt in E. rewrite Z.mod_pow2_bits_low by lia. cbn [andb].
      destruct (n <? 8) eqn:E8.
      * apply Z.ltb_lt in E8. rewrite Swap16_testbit by lia.
        replace (n + 8 <? 16) with true by (symmetry; apply Z.ltb_lt; lia).
        replace (n + 8 <? 8) with false by (symmetry; apply Z.ltb_ge; lia).
        cbn [andb]. f_equal. lia.
      * apply Z.ltb_ge in E8. rewrite Swap16_testbit by lia.
        replace (n - 8 <? 16) with true by (symmetry; apply Z.ltb_lt; lia).
        replace (n - 8 <? 8) with true by (symmetry; apply Z.ltb_lt; lia).
        cbn [andb]. f_equal. lia.
    + apply Z.ltb_ge in E. now rewrite Z.mod_pow2_bits_high by lia.
  - rewrite H16. apply Z.mod_pos_bound. lia.
Qed.

Lemma byte_at_range v i : 0 <= byte_at v i < 256.
Proof.
  unfold byte_at, byteZ. pose proof (Byte.to_N_bounded (nth (Z.to_nat i) v x00)). lia.
Qed.

Lemma byte_at_testbit_out v i k :
  (k <? 0) || (8 <=? k) = true -> Z.testbit (byte_at v i) k = false.
Proof.
  intros H. apply orb_prop in H. destruct H as [H | H].
  - apply Z.ltb_lt in H. now apply Z.testbit_neg_r.
  - apply Z.leb_le in H. pose proof (byte_at_range v i) as Hr.
    destruct (Z.eq_dec (byte_at v i) 0) as [-> | Hne]; [apply Z.bits_0 |].
    apply Z.bits_above_log2; [lia |].
    apply Z.log2_lt_pow2; [lia |].
    apply Z.lt_le_trans with (2 ^ 8); [lia |].
    apply Z.pow_le_mono_r; lia.
Qed.

Lemma element_in_window v off j :
  window_ok (byteLength v) off 4 = true -> 0 <= j < 4 ->
  element v (off + j) = byte_at v (off + j).
Proof.
  intros Hw Hj. unfold window_ok in Hw.
  apply andb_prop in Hw. destruct Hw as (Hw & H3).
  apply andb_prop in Hw. destruct Hw as (H1 & _).
  apply Z.leb_le in H1, H3.
  unfold element, at_index, byte_at.
  replace (off + j <? 0) with false by (symmetry; apply Z.ltb_ge; lia).
  rewrite (nth_error_nth' v x00); [reflexivity |].
  unfold byteLength in H3. lia.
Qed.

Ltac byte_bits f Hf :=
  repeat match goal with
         | |- context [f ?k] =>
             first [ rewrite (Hf k) by reflexivity | destruct (f k) ]
         end.

(** X26: the helpers agree with [DataView]: [Swap32] of the little-endian
    reading of four bytes is the big-endian reading as a signed 32-bit
    value, and conversely, and [ReadBig32] is the big-endian reading as a
    signed 32-bit value. *)
Theorem Swap32_and_ReadBig32_agree_with_DataView :
  forall (v : list byte) (offset : Z) (d d1 d2 : H264Demuxer)
         (little big : Z),
    0 <= offset ->
    getUint32 v offset true d = Ok little d1 ->
    getUint32 v offset false d = Ok big d2 ->
    Swap32 little = ToInt32 big /\
    Swap32 big = ToInt32 little /\
    ReadBig32 v offset = ToInt32 big.
Proof.
  intros v offset d d1 d2 little big Hoff Hl Hb.
  unfold getUint32 in Hl, Hb.
  destruct (window_ok (byteLength v) offset 4) eqn:Hw; [| discriminate].
  unfold ret in Hl, Hb.
  assert (El : little = Z.lor (Z.lor (Z.lor (byte_at v offset)
                                       (Z.shiftl (byte_at v (offset + 1)) 8))
                                (Z.shiftl (byte_at v (offset + 2)) 16))
                         (Z.shiftl (byte_at v (offset + 3)) 24)) by congruence.
  assert (Eb : big = Z.lor (Z.lor (Z.lor (Z.shiftl (byte_at v offset) 24)
                                    (Z.shiftl (byte_at v (offset + 1)) 16))
                             (Z.shiftl (byte_at v (offset + 2)) 8))
                      (byte_at v (offset + 3))) by congruence.
  clear Hl Hb.
  assert (Er : ReadBig32 v offset
               = js_or (js_or (js_or (js_shl (byte_at v offset) 24)
                                     (js_shl (byte_at v (offset + 1)) 16))
                              (js_shl (byte_at v (offset + 2)) 8))
                       (byte_at v (offset + 3))).
  { unfold ReadBig32.
    rewrite !(element_in_window v offset) by (assumption || lia).
    replace (element v offset) with (byte_at v offset); [reflexivity |].
    symmetry. replace offset with (offset + 0) at 1 2 by lia.
    apply element_in_window; [assumption | lia]. }
  rewrite Er. clear Er Hw.
  pose proof (byte_at_testbit_out v offset) as H0.
  pose proof (byte_at_testbit_out v (offset + 1)) as H1.
  pose proof (byte_at_testbit_out v (offset + 2)) as H2.
  pose proof (byte_at_testbit_out v (offset + 3)) as H3.
  set (f0 := Z.testbit (byte_at v offset)) in *.
  set (f1 := Z.testbit (byte_at v (offset + 1))) in *.
  set (f2 := Z.testbit (byte_at v (offset + 2))) in *.
  set (f3 := Z.testbit (byte_at v (offset + 3))) in *.
  assert (Hidx : forall m, 0 <= m <= 31 -> 0 <= swap_index m).
  { intros m Hm. unfold swap_index.
    destruct (m <? 8); [lia |]. destruct (m <? 16) eqn:E2; [lia |].
    destruct (m <? 24) eqn:E3; [apply Z.ltb_ge in E2; lia |].
    apply Z.ltb_ge in E3. lia. }
  subst little big.
  split; [| split]; apply Z.bits_inj'; intros n Hn;
    assert (Hm : 0 <= Z.min n 31 <= 31) by lia;
    set (m := Z.min n 31) in *.
  - rewrite Swap32_testbit, ToInt32_testbit by lia. fold m.
    rewrite !Z.lor_spec, !Z.shiftl_spec by (try apply Hidx; lia).
    fold f0 f1 f2 f3. clearbody f0 f1 f2 f3 m. clear Hn Hidx.
    bit_cases m; vm_compute; byte_bits f0 H0; byte_bits f1 H1;
      byte_bits f2 H2; byte_bits f3 H3; reflexivity.
  - rewrite Swap32_testbit, ToInt32_testbit by lia. fold m.
    rewrite !Z.lor_spec, !Z.shiftl_spec by (try apply Hidx; lia).
    fold f0 f1 f2 f3. clearbody f0 f1 f2 f3 m. clear Hn Hidx.
    bit_cases m; vm_compute; byte_bits f0 H0; byte_bits f1 H1;
      byte_bits f2 H2; byte_bits f3 H3; reflexivity.
  - rewrite ToInt32_testbit. fold m.
    rewrite !js_or_testbit. fold m. rewrite !(Z.min_l m 31) by lia.
    rewrite !js_shl_testbit by lia. rewrite !(Z.min_l m 31) by lia.
    rewrite !Z.lor_spec, !Z.shiftl_spec by lia.
    fold f0 f1 f2 f3. clearbody f0 f1 f2 f3 m. clear Hn Hidx.
    bit_cases m; vm_compute; byte_bits f0 H0; byte_bits f1 H1;
      byte_bits f2 H2; byte_bits f3 H3; reflexivity.
Qed.

End Words.

(** Examples *)

Section DemuxerMoreExamples.

Import H264 DemuxExamples.

Lemma parseChunks_raises_before_parsing_witness :
  (registered fresh = false \/ byteLength timestamp_only < 5) /\
  parseChunks sample_parseSPS plain_host timestamp_only 0 fresh
  = Throw RangeError (set_firstParse false fresh).
Proof.
  assert (H : registered fresh = false \/ byteLength timestamp_only < 5)
    by (right; cbn; lia).
  split; [exact H |].
  exact (parseChunks_raises_before_parsing sample_parseSPS plain_host timestamp_only
           0 fresh H).
Defined.

Lemma scanning_host_scans : packet_parser_scans scanning_host.
Proof. right. exists 0. reflexivity. Qed.

Lemma samples_are_never_handed_over_witness :
  packet_parser_scans scanning_host /\
  _dispatch fresh = false /\
  exists d',
    parse_session sample_parseSPS scanning_host
      [(idr_frame_chunk, 0); (idr_frame_chunk, 11)] fresh = Some d' /\
    List.length (samples (_videoTrack d')) = 2%nat /\
    handed_over (notified d') = [].
Proof.
  split; [exact scanning_host_scans |]. split; [reflexivity |].
  eexists. split; [lazy; reflexivity |]. split; [reflexivity |].
  refine (proj2 (samples_are_never_handed_over sample_parseSPS scanning_host
                   [(idr_frame_chunk, 0); (idr_frame_chunk, 11)] fresh _
                   scanning_host_scans eq_refl _)).
  lazy. reflexivity.
Defined.

Lemma parseAVCVideoData_keeps_track_accounted_witness :
  1 <= _naluLengthSize fresh /\
  accounted (_videoTrack fresh) /\
  match _parseAVCVideoData idr_frame_chunk 5 6 0 0 0 0 fresh with
  | Ok _ d' => accounted (_videoTrack d') /\ track_length (_videoTrack d') = 6
  | _ => False
  end.
Proof.
  assert (H1 : 1 <= _naluLengthSize fresh) by (cbn; lia).
  assert (H2 : accounted (_videoTrack fresh)) by (split; [reflexivity | constructor]).
  split; [exact H1 |]. split; [exact H2 |].
  pose proof (parseAVCVideoData_keeps_track_accounted idr_frame_chunk 5 6 0 0 0 0
                fresh H1 H2) as H.
  destruct (_parseAVCVideoData idr_frame_chunk 5 6 0 0 0 0 fresh) as [[] d' | e d' |] eqn:E;
    [| discriminate E | discriminate E].
  split; [apply H |].
  injection E as <-. reflexivity.
Defined.

Lemma well_formed_frame_is_read_back_witness :
  _littleEndian fresh = true /\
  _naluLengthSize fresh = 4 /\
  Forall (fun nalu => 1 <= byteLength nalu < 2 ^ 32) two_nalus /\
  frame_of true two_nalus = [x00; x00; x00; x02; x65; x88; x00; x00; x00; x01; x41] /\
  exists d',
    _parseAVCVideoData ([xaa] ++ frame_of true two_nalus ++ [xbb]) 1 11 40 7 0 3 fresh
      = Ok tt d' /\
    map (fun s => (map unit_type (units s), sample_length s, isKeyframe s,
                   dts s, pts s, fileposition s))
        (samples (_videoTrack d'))
    = [([5; 1], 11, true, 40, 43, Some 7)].
Proof.
  assert (Hall : Forall (fun nalu => 1 <= byteLength nalu < 2 ^ 32) two_nalus).
  { repeat constructor; cbn; lia. }
  split; [reflexivity |]. split; [reflexivity |]. split; [exact Hall |].
  split; [reflexivity |].
  eexists. split.
  - exact (well_formed_frame_is_read_back [xaa] [xbb] two_nalus 40 7 0 3 fresh
             eq_refl ltac:(discriminate) Hall).
  - reflexivity.
Defined.

(** The same two units on a platform where [_littleEndian] is false: the
    scan reads the prefixes the least significant byte first. *)
Example big_endian_platform_reads_reversed_prefixes :
  let d := with_callbacks (H264Demuxer_new false true false) in
  frame_of false two_nalus = [x02; x00; x00; x00; x65; x88; x01; x00; x00; x00; x41] /\
  option_map (fun d' => map (fun s => (map unit_type (units s), sample_length s, isKeyframe s))
                            (samples (_videoTrack d')))
             (state_of (_parseAVCVideoData ([xaa] ++ frame_of false two_nalus ++ [xbb])
                                           1 11 40 7 0 3 d))
  = Some [([5; 1], 11, true)] /\
  option_map (fun d' => (samples (_videoTrack d'), notified d'))
             (state_of (_parseAVCVideoData ([xaa] ++ frame_of true two_nalus ++ [xbb])
                                           1 11 40 7 0 3 d))
  = Some ([], [NLogW (NaluSizeExceedsDataSize 40)]).
Proof. cbv zeta. repeat split. Qed.

Lemma sps_chunk_decodes : decodable_sps sample_parseSPS sps_chunk.
Proof. repeat split; [vm_compute; discriminate | eexists; reflexivity]. Qed.

Lemma sps_codec_string_spells_three_bytes_witness :
  registered fresh = true /\
  decodable_sps sample_parseSPS sps_chunk /\
  returns (_parseAVCSPSVideoData sample_parseSPS sps_chunk 5 fresh) (fun _ d' =>
    exists meta, _videoMetadata d' = Some meta /\ meta_codec meta = Some "avc1.001eab"%string).
Proof.
  split; [reflexivity |]. split; [exact sps_chunk_decodes |].
  eapply returns_weaken.
  - exact (sps_codec_string_spells_three_bytes sample_parseSPS sps_chunk fresh
             eq_refl sps_chunk_decodes).
  - cbv beta. intros _ d' (meta & v & codec & Hmeta & _ & Hcodec & _ & _ & E & _).
    exists meta. split; [exact Hmeta |]. rewrite Hcodec, E. reflexivity.
Defined.


Lemma Swap32_and_ReadBig32_agree_with_DataView_witness :
  0 <= 0 /\
  getUint32 high_word 0 true fresh = Ok 50463104 fresh /\
  getUint32 high_word 0 false fresh = Ok 2147549699 fresh /\
  Swap32 50463104 = -2147417597 /\
  ReadBig32 high_word 0 = -2147417597.
Proof.
  split; [lia |]. split; [reflexivity |]. split; [reflexivity |].
  pose proof (Swap32_and_ReadBig32_agree_with_DataView high_word 0 fresh fresh fresh
                50463104 2147549699 ltac:(lia) eq_refl eq_refl) as (H1 & _ & H3).
  split; [rewrite H1 | rewrite H3]; reflexivity.
Defined.

End DemuxerMoreExamples.
